(** * A shallow embedding of PyTree's array-backed quadtree

    Source: [src/pytree/SpatialPartioningtree/quadtree/_quadtree.py].

    The tree keeps every node in one Python list ([all_quad_node]); nodes refer
    to each other by integer index, a freed group of four siblings is threaded
    on a free list through the [first_child] field.  Mutating methods are
    embedded in a state-and-exception monad over the record [QuadTree]; a
    raised exception keeps the state reached so far, as in Python.  Loops and
    recursion whose termination depends on the shape of the pool take fuel
    and answer [OutOfFuel] when it is exhausted. *)

From stdpp Require Import base list.
From Stdlib Require Import ZArith Lia.

Local Open Scope Z_scope.

(** ** Python values used by the module *)

Inductive exn : Type :=
  | ValueError
  | IndexError
  | TypeError
  | NotImplementedError.

Inductive result (A : Type) : Type :=
  | Ok (a : A)
  | Raise (e : exn)
  | OutOfFuel.

Arguments Ok {A} a.
Arguments Raise {A} e.
Arguments OutOfFuel {A}.

Definition rbind {A B : Type} (m : result A) (k : A -> result B) : result B :=
  match m with
  | Ok a => k a
  | Raise e => Raise e
  | OutOfFuel => OutOfFuel
  end.

(** [l[i]] on a Python list: a negative index counts from the end, an index
    outside [-len, len) raises IndexError.  [py_slot] is the position the
    subscript designates. *)
Definition py_slot (len : nat) (i : Z) : option nat :=
  let n := Z.of_nat len in
  if (0 <=? i) && (i <? n) then Some (Z.to_nat i)
  else if (- n <=? i) && (i <? 0) then Some (Z.to_nat (n + i))
  else None.

(** [min(l, key=...)]: the first element whose key is the least; ValueError
    on an empty sequence. *)
Fixpoint py_min_from {A : Type} (key : A -> Z) (best : A) (l : list A) : A :=
  match l with
  | [] => best
  | a :: l' =>
      if key a <? key best then py_min_from key a l' else py_min_from key best l'
  end.

Definition py_min {A : Type} (key : A -> Z) (l : list A) : result A :=
  match l with
  | [] => Raise ValueError
  | a :: l' => Ok (py_min_from key a l')
  end.

(** ** Bounding boxes and the geometry helpers

    Modelled from the spec: [BBox] and the helpers [split_box],
    [is_intersecting], [is_inscribed] live in [..utils], which is not part of
    the sources at hand.  The tree only reads the fields [w] and [h] of a box
    and builds its own as [BBox(0, 0, *size)]; the helpers are taken as an
    interface. *)

Record BBox : Type := mkBBox { bx : Z; by_ : Z; w : Z; h : Z }.

Class Geometry : Type := {
  split_box : BBox -> list BBox;
  is_intersecting : BBox -> BBox -> bool;
  is_inscribed : BBox -> BBox -> bool
}.

Definition area (b : BBox) : Z := w b * h b.

(** ** Quad nodes

    Modelled from the spec: the class [QuadNode] ([._quadnode]) is not part of
    the sources at hand.  Section 3 of the specification gives its fields, the
    derived predicates [is_leaf] and [is_branch], the default values of a new
    node, and section 4.1 what [update] and [set_free] do to a slot. *)

Record QuadNode : Type := mkQuadNode {
  first_child : Z;
  total_entity : Z;
  parent_index : Z;
  in_use : bool
}.

Definition SENTINEL_NONE : Z := -1.

(** [QuadNode(parent_index=p)]; the root is built by [QuadNode()]. *)
Definition new_QuadNode (p : Z) : QuadNode :=
  {| first_child := SENTINEL_NONE; total_entity := 0; parent_index := p; in_use := true |}.

Definition root_QuadNode : QuadNode := new_QuadNode 0.

Definition is_leaf (n : QuadNode) : bool := 0 <=? total_entity n.
Definition is_branch (n : QuadNode) : bool := total_entity n =? -1.

Definition with_first_child (v : Z) (n : QuadNode) : QuadNode :=
  {| first_child := v; total_entity := total_entity n;
     parent_index := parent_index n; in_use := in_use n |}.

Definition with_total_entity (v : Z) (n : QuadNode) : QuadNode :=
  {| first_child := first_child n; total_entity := v;
     parent_index := parent_index n; in_use := in_use n |}.

(** [node.update(first_child=fc, total_entity=te, parent_index=p)], which
    brings a recycled slot back to the state of a new node. *)
Definition update (fc te p : Z) (n : QuadNode) : QuadNode :=
  {| first_child := fc; total_entity := te; parent_index := p; in_use := true |}.

(** [node.set_free(next)]: the slot leaves the tree and its [first_child]
    becomes the link to the next free block. *)
Definition set_free (next : Z) (n : QuadNode) : QuadNode :=
  {| first_child := next; total_entity := total_entity n;
     parent_index := parent_index n; in_use := false |}.

(** ** The tree *)

Record QuadTree : Type := mkQuadTree {
  bbox : BBox;
  auto_id : bool;
  max_depth : Z;
  free_quad_node_index : Z;
  num_quad_node_in_use : Z;
  all_quad_node : list QuadNode;
  cleaned : bool
}.

Definition with_nodes (l : list QuadNode) (t : QuadTree) : QuadTree :=
  {| bbox := bbox t; auto_id := auto_id t; max_depth := max_depth t;
     free_quad_node_index := free_quad_node_index t;
     num_quad_node_in_use := num_quad_node_in_use t;
     all_quad_node := l; cleaned := cleaned t |}.

Definition with_free_index (v : Z) (t : QuadTree) : QuadTree :=
  {| bbox := bbox t; auto_id := auto_id t; max_depth := max_depth t;
     free_quad_node_index := v;
     num_quad_node_in_use := num_quad_node_in_use t;
     all_quad_node := all_quad_node t; cleaned := cleaned t |}.

Definition with_in_use_count (v : Z) (t : QuadTree) : QuadTree :=
  {| bbox := bbox t; auto_id := auto_id t; max_depth := max_depth t;
     free_quad_node_index := free_quad_node_index t;
     num_quad_node_in_use := v;
     all_quad_node := all_quad_node t; cleaned := cleaned t |}.

(** [QuadTree(size, max_depth, auto_id)] with [size = (sw, sh)]. *)
Definition new_QuadTree (sw sh : Z) (md : Z) (aid : bool) : QuadTree :=
  {| bbox := mkBBox 0 0 sw sh; auto_id := aid; max_depth := md;
     free_quad_node_index := -1;
     num_quad_node_in_use := 1;
     all_quad_node := [root_QuadNode];
     cleaned := true |}.

Definition num_quad_node (t : QuadTree) : Z := Z.of_nat (length (all_quad_node t)).

(** ** The monad of the mutating methods *)

Definition M (A : Type) : Type := QuadTree -> result A * QuadTree.

Definition ret {A : Type} (a : A) : M A := fun t => (Ok a, t).
Definition throw {A : Type} (e : exn) : M A := fun t => (Raise e, t).
Definition out_of_fuel {A : Type} : M A := fun t => (OutOfFuel, t).

Definition bind {A B : Type} (m : M A) (k : A -> M B) : M B :=
  fun t =>
    match m t with
    | (Ok a, t') => k a t'
    | (Raise e, t') => (Raise e, t')
    | (OutOfFuel, t') => (OutOfFuel, t')
    end.

Declare Scope quad_scope.
Delimit Scope quad_scope with quad.
Notation "'let*' x ':=' m 'in' k" := (bind m (fun x => k))
  (at level 10, x name, m at level 100, k at level 200, only parsing) : quad_scope.
Notation "'do' m 'then' k" := (bind m (fun _ => k))
  (at level 10, m at level 100, k at level 200, only parsing) : quad_scope.
Local Open Scope quad_scope.

Definition get : M QuadTree := fun t => (Ok t, t).
Definition modify (f : QuadTree -> QuadTree) : M unit := fun t => (Ok tt, f t).

(** [self.all_quad_node[i]]: the node object is identified with the slot
    that holds it, its fields are read from the current pool. *)
Definition node_at (i : Z) : M nat :=
  fun t =>
    match py_slot (length (all_quad_node t)) i with
    | Some s => (Ok s, t)
    | None => (Raise IndexError, t)
    end.

(** Reading the fields of a node object held by the caller. *)
Definition read (s : nat) : M QuadNode :=
  fun t =>
    match all_quad_node t !! s with
    | Some n => (Ok n, t)
    | None => (Raise IndexError, t)
    end.

(** Assigning to fields of a node object. *)
Definition write (s : nat) (f : QuadNode -> QuadNode) : M unit :=
  let* n := read s in
  modify (fun t => with_nodes (<[s := f n]> (all_quad_node t)) t).

Definition append (n : QuadNode) : M unit :=
  modify (fun t => with_nodes (all_quad_node t ++ [n]) t).

Fixpoint for_each {A : Type} (l : list A) (body : A -> M unit) : M unit :=
  match l with
  | [] => ret tt
  | a :: l' => do body a then for_each l' body
  end.

(** [range(4)] *)
Definition range4 : list Z := [0; 1; 2; 3].

(** ** The allocator *)

(** [set_branch(qnode, qindex)]: [qnode] is the node object (a slot of the
    pool), [qindex] the integer the caller passes along with it. *)
Definition set_branch (qnode : nat) (qindex : Z) : M unit :=
  do write qnode (with_total_entity (-1)) then
  do modify (fun t => with_in_use_count (num_quad_node_in_use t + 4) t) then
  let* t := get in
  if free_quad_node_index t =? -1 then
    do write qnode (with_first_child (num_quad_node t)) then
    for_each range4 (fun _ => append (new_QuadNode qindex))
  else
    do write qnode (with_first_child (free_quad_node_index t)) then
    let* n := read qnode in
    let* c := node_at (first_child n) in
    let* cn := read c in
    let next_free_quad_node_index := first_child cn in
    do for_each range4 (fun i =>
         let* t := get in
         let* child := node_at (free_quad_node_index t + i) in
         write child (update (-1) 0 qindex)) then
    modify (with_free_index next_free_quad_node_index).

Definition set_free_quad_node (qindex : Z) : M unit :=
  if negb ((qindex - 1) mod 4 =? 0) then throw ValueError
  else
    let* q := node_at qindex in
    let* qnode := read q in
    let* parent_node := node_at (parent_index qnode) in
    do for_each range4 (fun i =>
         let* p := read parent_node in
         let* child := node_at (first_child p + i) in
         let* t := get in
         write child (set_free (free_quad_node_index t))) then
    do modify (with_free_index qindex) then
    do modify (fun t => with_in_use_count (num_quad_node_in_use t - 4) t) then
    do write parent_node (with_first_child (-1)) then
    write parent_node (with_total_entity 0).

(** ** Cleanup *)

(** [sum(body(a) for a in l)] *)
Fixpoint sum_gen {A : Type} (acc : Z) (l : list A) (body : A -> M Z) : M Z :=
  match l with
  | [] => ret acc
  | a :: l' => let* r := body a in sum_gen (acc + r) l' body
  end.

(** The local function [clean_unused_qnode] of [clean_up]; [qnode == self.root]
    compares node objects, the root is the object in slot 0. *)
Fixpoint clean_unused_qnode (fuel : nat) (qnode : nat) : M Z :=
  match fuel with
  | O => out_of_fuel
  | S fuel' =>
      let* n := read qnode in
      if negb (in_use n) || (is_leaf n && (0 <? total_entity n)) then ret 0
      else
        do (if is_branch n then
              let cindex := first_child n in
              let* s := sum_gen 0 range4 (fun i =>
                          let* c := node_at (cindex + i) in
                          clean_unused_qnode fuel' c) in
              if s =? 4 then
                do set_free_quad_node cindex then
                if Nat.eqb qnode 0 then write qnode (with_first_child 1) else ret tt
              else ret tt
            else ret tt) then
        ret 1
  end.

Definition clean_up (fuel : nat) : M unit :=
  let* root := node_at 0 in
  do clean_unused_qnode fuel root then
  ret tt.

(** ** Insertion *)

(** [insert(self)] takes no argument besides the tree: a call that passes
    some is refused with TypeError before the body runs. *)
Definition insert {A : Type} (args : list A) : M unit :=
  match args with
  | [] => throw NotImplementedError
  | _ :: _ => throw TypeError
  end.

(** [QuadTree(size, max_depth, auto_id)] on Python values: [size] is unpacked
    into the two remaining fields of a [BBox], [int(max_depth)] refuses
    [None]. *)
Definition init (size : list Z) (max_depth : option Z) (aid : bool) : result QuadTree :=
  match size, max_depth with
  | [sw; sh], Some md => Ok (new_QuadTree sw sh md aid)
  | _, _ => Raise TypeError
  end.

Definition truthy {A : Type} (l : option (list A)) : bool :=
  match l with
  | Some (_ :: _) => true
  | _ => false
  end.

(** [fill_tree(bbox, entities, size, capacity, auto_id)]; [bbox] is passed on
    as the [size] of the constructor, [capacity] as its [max_depth]. *)
Definition fill_tree {A : Type} (bbox : option (list Z)) (entities : option (list A))
    (capacity : option Z) (aid : bool) : result QuadTree :=
  if negb (truthy entities || truthy bbox) then Raise ValueError
  else
    match bbox with
    | None => Raise TypeError
    | Some size =>
        rbind (init size capacity aid) (fun quadtree =>
          match entities with
          | None => Raise TypeError
          | Some es =>
              match for_each es (fun e => insert [e]) quadtree with
              | (Ok _, quadtree') => Ok quadtree'
              | (Raise e, _) => Raise e
              | (OutOfFuel, _) => OutOfFuel
              end
          end)
    end.

(** ** Queries *)

Notation "'let+' x ':=' m 'in' k" := (rbind m (fun x => k))
  (at level 10, x name, m at level 100, k at level 200, only parsing) : quad_scope.

(** [self.all_quad_node[i]] in a method that does not change the pool. *)
Definition lookup_node (t : QuadTree) (i : Z) : result QuadNode :=
  match py_slot (length (all_quad_node t)) i with
  | Some s =>
      match all_quad_node t !! s with
      | Some n => Ok n
      | None => Raise IndexError
      end
  | None => Raise IndexError
  end.

(** [enumerate(l)] *)
Fixpoint enumerate_from {A : Type} (i : Z) (l : list A) : list (Z * A) :=
  match l with
  | [] => []
  | a :: l' => (i, a) :: enumerate_from (i + 1) l'
  end.

Definition enumerate {A : Type} (l : list A) : list (Z * A) := enumerate_from 0 l.

Section Queries.
Context {G : Geometry}.

(** One step of the inner [for] loop of [get_bbox]: the box becomes the
    quadrant whose position is [quadrant_index]. *)
Definition select_quadrant (tbbox : BBox) (quadrant_index : Z) : BBox :=
  fold_left (fun acc iq => if fst iq =? quadrant_index then snd iq else acc)
            (enumerate (split_box tbbox)) tbbox.

(** The [while] loop of [get_bbox]. *)
Fixpoint climb (fuel : nat) (t : QuadTree) (qnode : QuadNode) (quadrants : list Z)
    : result (list Z) :=
  if negb (parent_index qnode =? 0) then
    match fuel with
    | O => OutOfFuel
    | S fuel' =>
        let quadrants' := quadrants ++ [(parent_index qnode - 1) mod 4] in
        let+ parent := lookup_node t (parent_index qnode) in
        climb fuel' t parent quadrants'
    end
  else Ok quadrants.

(** [get_bbox(qnode, index)]: [qnode] is a node object of the pool, given by
    its slot; [all_quad_node.index(qnode)] is that slot. *)
Definition get_bbox (fuel : nat) (t : QuadTree) (qnode : nat) : result (Z * BBox) :=
  let+ _ := lookup_node t 0 in
  if Nat.eqb qnode 0 then Ok (0, bbox t)
  else
    match all_quad_node t !! qnode with
    | None => Raise ValueError
    | Some n =>
        let qnode_index := Z.of_nat qnode in
        let+ quadrants := climb fuel t n [(qnode_index - 1) mod 4] in
        Ok (qnode_index, fold_left select_quadrant quadrants (bbox t))
    end.

(** The quadrants a traversal pushes on [to_process]; the list is kept with
    its top first, so the quadrant pushed last comes first. *)
Definition push_quadrants (keep : BBox -> bool) (first_child : Z) (qbbox : BBox)
    (to_process : list (Z * BBox)) : list (Z * BBox) :=
  fold_left (fun stack iq =>
               if keep (snd iq) then (first_child + fst iq, snd iq) :: stack else stack)
            (enumerate (split_box qbbox)) to_process.

(** The [while] loop of [find_quad_node]. *)
Fixpoint find_candidates (fuel : nat) (t : QuadTree) (bbox : BBox)
    (to_process : list (Z * BBox)) (candidates : list (Z * QuadNode * BBox))
    : result (list (Z * QuadNode * BBox)) :=
  match to_process with
  | [] => Ok candidates
  | (qindex, qbbox) :: to_process' =>
      match fuel with
      | O => OutOfFuel
      | S fuel' =>
          let+ qnode := lookup_node t qindex in
          if negb (in_use qnode) then find_candidates fuel' t bbox to_process' candidates
          else
            let candidates' := candidates ++ [(qindex, qnode, qbbox)] in
            if is_leaf qnode then find_candidates fuel' t bbox to_process' candidates'
            else
              find_candidates fuel' t bbox
                (push_quadrants
                   (fun quadrant => is_intersecting bbox quadrant && is_inscribed bbox quadrant)
                   (first_child qnode) qbbox to_process')
                candidates'
      end
  end.

Definition candidate_area (c : Z * QuadNode * BBox) : Z := w (snd c) * h (snd c).

(** [find_quad_node(bbox, index=True)]; with [index=False] the caller gets
    the last two components of the same triple. *)
Definition find_quad_node (fuel : nat) (t : QuadTree) (bbox_ : BBox)
    : result (Z * QuadNode * BBox) :=
  let+ candidates := find_candidates fuel t bbox_ [(0, bbox t)] [] in
  py_min candidate_area candidates.

(** The [while] loop of [find_leaves]. *)
Fixpoint collect_leaves (fuel : nat) (t : QuadTree)
    (to_process : list (Z * BBox)) (bounded_leaves : list (Z * QuadNode * BBox))
    : result (list (Z * QuadNode * BBox)) :=
  match to_process with
  | [] => Ok bounded_leaves
  | (qindex, qbbox) :: to_process' =>
      match fuel with
      | O => OutOfFuel
      | S fuel' =>
          let+ qnode := lookup_node t qindex in
          if negb (in_use qnode) then collect_leaves fuel' t to_process' bounded_leaves
          else if is_leaf qnode then
            collect_leaves fuel' t to_process' (bounded_leaves ++ [(qindex, qnode, qbbox)])
          else
            collect_leaves fuel' t
              (push_quadrants (fun quadrant => is_intersecting qbbox quadrant)
                 (first_child qnode) qbbox to_process')
              bounded_leaves
      end
  end.

(** [find_leaves(qnode, bbox, index=True)]; an argument left out is [None]. *)
Definition find_leaves (fuel : nat) (t : QuadTree) (qnode : option nat)
    (bbox_ : option BBox) : result (list (Z * QuadNode * BBox)) :=
  match qnode, bbox_ with
  | None, None => Raise ValueError
  | Some _, Some _ => Raise ValueError
  | Some q, None =>
      let+ start := get_bbox fuel t q in
      collect_leaves fuel t [start] []
  | None, Some b =>
      let+ found := find_quad_node fuel t b in
      collect_leaves fuel t [(fst (fst found), snd found)] []
  end.

End Queries.

(** ** A concrete geometry

    Modelled from the spec: the helpers of [..utils] as section 2 and the
    glossary describe them, a split into four equal quadrants listed in a fixed
    order, an overlap test and a box-in-box test.  Boxes of even, positive
    width and height are halved exactly. *)

Definition halve (b : BBox) : list BBox :=
  let w2 := w b / 2 in
  let h2 := h b / 2 in
  [ mkBBox (bx b) (by_ b) w2 h2;
    mkBBox (bx b + w2) (by_ b) w2 h2;
    mkBBox (bx b) (by_ b + h2) w2 h2;
    mkBBox (bx b + w2) (by_ b + h2) w2 h2 ].

Definition overlaps (a b : BBox) : bool :=
  (bx a <? bx b + w b) && (bx b <? bx a + w a) &&
  (by_ a <? by_ b + h b) && (by_ b <? by_ a + h a).

(** [inside a b]: the box [a] lies within the box [b]. *)
Definition inside (a b : BBox) : bool :=
  (bx b <=? bx a) && (by_ b <=? by_ a) &&
  (bx a + w a <=? bx b + w b) && (by_ a + h a <=? by_ b + h b).

Definition plane_geometry : Geometry :=
  {| split_box := halve; is_intersecting := overlaps; is_inscribed := inside |}.

(** ** Well-formed pools

    The shape every pool has that was obtained from a new tree by splitting
    leaves, freeing the child block of a branch and cleaning up. *)

Definition pool_size (t : QuadTree) : nat := length (all_quad_node t).

(** The four children of the branch [n] stored in slot [s]. *)
Definition children_ok (l : list QuadNode) (s : nat) (n : QuadNode) : Prop :=
  exists c : nat,
    first_child n = Z.of_nat c /\ (1 <= c)%nat /\ (Z.of_nat c - 1) mod 4 = 0 /\
    (c + 3 < length l)%nat /\
    forall i : nat, (i < 4)%nat ->
      exists cn, l !! (c + i)%nat = Some cn /\ in_use cn = true /\
                 parent_index cn = Z.of_nat s.

(** The free list: [free_chain l head bs] when following the links from
    [head] visits the blocks [bs], each of four unused slots, and ends on the
    sentinel. *)
Inductive free_chain (l : list QuadNode) : Z -> list nat -> Prop :=
  | free_chain_nil : free_chain l (-1) []
  | free_chain_cons (b : nat) (bn : QuadNode) (bs : list nat) :
      (1 <= b)%nat -> (Z.of_nat b - 1) mod 4 = 0 -> (b + 3 < length l)%nat ->
      (forall i : nat, (i < 4)%nat ->
         exists n, l !! (b + i)%nat = Some n /\ in_use n = false) ->
      l !! b = Some bn ->
      free_chain l (first_child bn) bs ->
      b ∉ bs ->
      free_chain l (Z.of_nat b) (b :: bs).

(** [ranked rk l]: the children of a branch in use have a smaller rank than
    the branch, so that following [first_child] from a node in use ends. *)
Definition ranked (rk : nat -> nat) (l : list QuadNode) : Prop :=
  forall (s : nat) (n : QuadNode) (c i : nat),
    l !! s = Some n -> in_use n = true -> is_branch n = true ->
    first_child n = Z.of_nat c -> (i < 4)%nat ->
    (rk (c + i)%nat < rk s)%nat.

Record wf_with (rk : nat -> nat) (t : QuadTree) : Prop := {
  wf_root : exists r, all_quad_node t !! 0%nat = Some r /\ in_use r = true;
  wf_len : (Z.of_nat (pool_size t) - 1) mod 4 = 0;
  wf_entity : forall s n, all_quad_node t !! s = Some n -> -1 <= total_entity n;
  wf_branch : forall s n, all_quad_node t !! s = Some n ->
      in_use n = true -> is_branch n = true -> children_ok (all_quad_node t) s n;
  wf_free : exists bs, free_chain (all_quad_node t) (free_quad_node_index t) bs;
  wf_rank : ranked rk (all_quad_node t)
}.

Definition wf (t : QuadTree) : Prop := exists rk, wf_with rk t.

(** [shrinks l l']: every branch in use of [l'] is the same branch of [l]. *)
Definition shrinks (l l' : list QuadNode) : Prop :=
  forall (z : nat) (n : QuadNode),
    l' !! z = Some n -> in_use n = true -> is_branch n = true -> l !! z = Some n.

(** One operation applied within its contract: a leaf in use is split, the
    child block of a branch in use is freed, the tree is cleaned up, or the
    entity count of a leaf in use changes (what an insertion or a removal does
    to a node). *)
Inductive step (t : QuadTree) : QuadTree -> Prop :=
  | step_set_branch (q : nat) (n : QuadNode) (t' : QuadTree) :
      all_quad_node t !! q = Some n -> in_use n = true -> is_leaf n = true ->
      set_branch q (Z.of_nat q) t = (Ok tt, t') ->
      step t t'
  | step_set_free (s : nat) (n : QuadNode) (t' : QuadTree) :
      all_quad_node t !! s = Some n -> in_use n = true -> is_branch n = true ->
      set_free_quad_node (first_child n) t = (Ok tt, t') ->
      step t t'
  | step_clean_up (fuel : nat) (t' : QuadTree) :
      clean_up fuel t = (Ok tt, t') ->
      step t t'
  | step_entities (q : nat) (n : QuadNode) (k : Z) :
      all_quad_node t !! q = Some n -> in_use n = true -> is_leaf n = true ->
      0 <= k ->
      step t (with_nodes (<[q := with_total_entity k n]> (all_quad_node t)) t).

Inductive reachable : QuadTree -> Prop :=
  | reachable_new (sw sh md : Z) (aid : bool) :
      reachable (new_QuadTree sw sh md aid)
  | reachable_step (t t' : QuadTree) :
      reachable t -> step t t' -> reachable t'.

(** [desc l y z]: the node [z] is [y] or lies below it, going down through
    branches in use. *)
Inductive desc (l : list QuadNode) (y : nat) : nat -> Prop :=
  | desc_refl : desc l y y
  | desc_child (p : nat) (pn : QuadNode) (c i : nat) :
      desc l y p ->
      l !! p = Some pn -> in_use pn = true -> is_branch pn = true ->
      first_child pn = Z.of_nat c -> (i < 4)%nat ->
      desc l y (c + i)%nat.

(** [settled l x r]: cleaning the subtree of [x] has nothing left to do and
    answers [r]. *)
Inductive settled (l : list QuadNode) : nat -> Z -> Prop :=
  | settled_unused x n :
      l !! x = Some n -> in_use n = false -> settled l x 0
  | settled_full_leaf x n :
      l !! x = Some n -> in_use n = true -> is_leaf n = true ->
      0 < total_entity n -> settled l x 0
  | settled_empty_leaf x n :
      l !! x = Some n -> in_use n = true -> total_entity n = 0 -> settled l x 1
  | settled_branch x n c r0 r1 r2 r3 :
      l !! x = Some n -> in_use n = true -> is_branch n = true ->
      first_child n = Z.of_nat c -> (c + 3 < length l)%nat ->
      settled l c r0 -> settled l (c + 1)%nat r1 ->
      settled l (c + 2)%nat r2 -> settled l (c + 3)%nat r3 ->
      r0 + r1 + r2 + r3 <> 4 ->
      settled l x 1.

(** [raises_only e m]: the only exception [m] can raise is [e]. *)
Definition raises_only {A : Type} (e : exn) (m : M A) : Prop :=
  forall t e' t', m t = (Raise e', t') -> e' = e.

(** The states the allocator produces when the slots it touches exist and
    do not overlap; the lemmas [set_branch_fresh], [set_branch_reuse] and
    [set_free_quad_node_ok] relate them to the code. *)

Definition as_branch (c : Z) (n : QuadNode) : QuadNode :=
  with_first_child c (with_total_entity (-1) n).

Definition as_empty_leaf (n : QuadNode) : QuadNode :=
  with_total_entity 0 (with_first_child (-1) n).

Definition alter4 (f : QuadNode -> QuadNode) (c : nat) (l : list QuadNode) : list QuadNode :=
  alter f (c + 3)%nat (alter f (c + 2)%nat (alter f (c + 1)%nat (alter f c l))).

Definition branched_fresh (q : nat) (qindex : Z) (t : QuadTree) : QuadTree :=
  {| bbox := bbox t; auto_id := auto_id t; max_depth := max_depth t;
     free_quad_node_index := free_quad_node_index t;
     num_quad_node_in_use := num_quad_node_in_use t + 4;
     all_quad_node :=
       alter (as_branch (num_quad_node t)) q (all_quad_node t)
         ++ [new_QuadNode qindex; new_QuadNode qindex; new_QuadNode qindex;
             new_QuadNode qindex];
     cleaned := cleaned t |}.

Definition branched_reuse (q : nat) (qindex : Z) (f : nat) (next : Z) (t : QuadTree)
    : QuadTree :=
  {| bbox := bbox t; auto_id := auto_id t; max_depth := max_depth t;
     free_quad_node_index := next;
     num_quad_node_in_use := num_quad_node_in_use t + 4;
     all_quad_node :=
       alter4 (update (-1) 0 qindex) f
         (alter (as_branch (Z.of_nat f)) q (all_quad_node t));
     cleaned := cleaned t |}.

Definition freed (p c : nat) (t : QuadTree) : QuadTree :=
  {| bbox := bbox t; auto_id := auto_id t; max_depth := max_depth t;
     free_quad_node_index := Z.of_nat c;
     num_quad_node_in_use := num_quad_node_in_use t - 4;
     all_quad_node :=
       alter as_empty_leaf p
         (alter4 (set_free (free_quad_node_index t)) c (all_quad_node t));
     cleaned := cleaned t |}.

(** ** Trees used as examples *)

Definition tree_64 : QuadTree := new_QuadTree 64 64 12 false.

(** The root split once: nodes 1 to 4 are its quadrants. *)
Definition split_root : QuadTree := snd (set_branch 0 0 tree_64).

(** Node 1 split as well: nodes 5 to 8 are the quadrants of node 1. *)
Definition split_twice : QuadTree := snd (set_branch 1 1 split_root).

(** [cleaned_to rk x t r t']: what one call of [clean_unused_qnode] on the node
    [x] of a well-formed tree [t] achieves when it answers [r] in state [t']. *)
Definition cleaned_to (rk : nat -> nat) (x : nat) (t : QuadTree) (r : Z)
    (t' : QuadTree) : Prop :=
  wf_with rk t' /\ pool_size t' = pool_size t /\
  shrinks (all_quad_node t) (all_quad_node t') /\
  (forall z, ~ desc (all_quad_node t) x z ->
     all_quad_node t' !! z = all_quad_node t !! z) /\
  settled (all_quad_node t') x r.

(** ** Read-only properties of the tree *)

(** [self.root]: the node in slot 0. *)
Definition root (t : QuadTree) : result QuadNode := lookup_node t 0.

(** [max(l, default=d)] *)
Definition py_max_default (l : list Z) (d : Z) : Z :=
  match l with
  | [] => d
  | a :: l' => fold_left Z.max l' a
  end.

(** [[f(a) for a in l]]: the calls are made in order, the first exception
    ends the comprehension. *)
Fixpoint comprehension {A B : Type} (f : A -> result B) (l : list A) : result (list B) :=
  match l with
  | [] => Ok []
  | a :: l' => rbind (f a) (fun b => rbind (comprehension f l') (fun bs => Ok (b :: bs)))
  end.

(** The local function [traversal_counter] of [height].  [first_child] is an
    integer in every node, so the guard of the comprehension comes down to
    [first_child != -1]. *)
Fixpoint traversal_counter (fuel : nat) (t : QuadTree) (qnode_index : Z) : result Z :=
  match fuel with
  | O => OutOfFuel
  | S fuel' =>
      rbind (lookup_node t qnode_index) (fun n =>
        let first_child := first_child n in
        rbind (comprehension (fun i => traversal_counter fuel' t (first_child + i))
                 (List.filter (fun _ => negb (first_child =? -1)) range4))
              (fun hs => Ok (1 + py_max_default hs 0)))
  end.

Definition height (fuel : nat) (t : QuadTree) : result Z := traversal_counter fuel t 0.

(** The invariant of the in-use counter: with [bs] the blocks on the free
    list, [num_quad_node_in_use + 4 * len(bs) = num_quad_node]. *)
Definition counted (t : QuadTree) : Prop :=
  exists bs : list nat,
    free_chain (all_quad_node t) (free_quad_node_index t) bs /\
    num_quad_node_in_use t + 4 * Z.of_nat (length bs) = num_quad_node t.

(** [split_twice] with three entities in node 5, a quadrant of node 1. *)
Definition entity_below : QuadTree :=
  with_nodes (<[5%nat := with_total_entity 3 (new_QuadNode 1)]> (all_quad_node split_twice))
    split_twice.


(** [split_root] after the block of the root is freed again: the root is an
    empty leaf and block 1 heads the free list. *)
Definition freed_root : QuadTree := snd (set_free_quad_node 1 split_root).

(** [freed_root] with two entities in the root. *)
Definition loaded_root : QuadTree :=
  with_nodes (<[0%nat := with_total_entity 2 root_QuadNode]> (all_quad_node freed_root))
    freed_root.

(** [split_root] after [clean_up]: the root has collapsed. *)
Definition collapsed_root : QuadTree := snd (clean_up 2 split_root).

(** [split_root] after [set_free_quad_node(-3)], an index the alignment test
    lets through although it is the base of no block. *)
Definition misfreed_root : QuadTree := snd (set_free_quad_node (-3) split_root).

(** * Properties *)

(** ** Running the monad *)

Lemma bind_ok {A B : Type} (m : M A) (k : A -> M B) t a t' :
  m t = (Ok a, t') -> bind m k t = k a t'.
Proof. intros E. unfold bind. now rewrite E. Qed.

Lemma bind_raise {A B : Type} (m : M A) (k : A -> M B) t e t' :
  m t = (Raise e, t') -> bind m k t = (Raise e, t').
Proof. intros E. unfold bind. now rewrite E. Qed.

Lemma py_slot_nat (len s : nat) :
  (s < len)%nat -> py_slot len (Z.of_nat s) = Some s.
Proof.
  intros Hs. unfold py_slot.
  replace (0 <=? Z.of_nat s) with true by (symmetry; apply Z.leb_le; lia).
  replace (Z.of_nat s <? Z.of_nat len) with true by (symmetry; apply Z.ltb_lt; lia).
  simpl. now rewrite Nat2Z.id.
Qed.

Lemma py_slot_lt (len : nat) (i : Z) (s : nat) :
  py_slot len i = Some s -> (s < len)%nat.
Proof.
  unfold py_slot. intros E.
  destruct ((0 <=? i) && (i <? Z.of_nat len)) eqn:E1.
  - apply andb_prop in E1 as [H1 H2]. apply Z.leb_le in H1. apply Z.ltb_lt in H2.
    inversion E; subst. lia.
  - destruct ((- Z.of_nat len <=? i) && (i <? 0)) eqn:E2; [|discriminate].
    apply andb_prop in E2 as [H1 H2]. apply Z.leb_le in H1. apply Z.ltb_lt in H2.
    inversion E; subst. lia.
Qed.

Lemma node_at_nat t (s : nat) :
  (s < pool_size t)%nat -> node_at (Z.of_nat s) t = (Ok s, t).
Proof. intros Hs. unfold node_at. now rewrite py_slot_nat. Qed.

Lemma read_ok t s n :
  all_quad_node t !! s = Some n -> read s t = (Ok n, t).
Proof. intros E. unfold read. now rewrite E. Qed.

Lemma write_ok t s n f :
  all_quad_node t !! s = Some n ->
  write s f t = (Ok tt, with_nodes (<[s := f n]> (all_quad_node t)) t).
Proof. intros E. unfold write. now rewrite (bind_ok _ _ _ _ _ (read_ok _ _ _ E)). Qed.

(** ** Which exceptions the allocator raises *)

Lemma raises_only_bind {A B : Type} e (m : M A) (k : A -> M B) :
  raises_only e m -> (forall a, raises_only e (k a)) -> raises_only e (bind m k).
Proof.
  intros Hm Hk t e' t'. unfold bind.
  destruct (m t) as [[a| e0 |] t0] eqn:E.
  - apply Hk.
  - intros H; inversion H; subst. eapply Hm, E.
  - discriminate.
Qed.

Lemma raises_only_node_at i : raises_only IndexError (node_at i).
Proof.
  intros t e' t'. unfold node_at.
  destruct (py_slot _ _); intros H; inversion H; reflexivity.
Qed.

Lemma raises_only_read s : raises_only IndexError (read s).
Proof.
  intros t e' t'. unfold read.
  destruct (_ !! _); intros H; inversion H; reflexivity.
Qed.

Lemma raises_only_modify e f : raises_only e (modify f).
Proof. intros t e' t'. unfold modify. discriminate. Qed.

Lemma raises_only_ret {A : Type} e (a : A) : raises_only e (ret a).
Proof. intros t e' t'. unfold ret. discriminate. Qed.

Lemma raises_only_get e : raises_only e get.
Proof. intros t e' t'. unfold get. discriminate. Qed.

Lemma raises_only_write s f : raises_only IndexError (write s f).
Proof.
  unfold write. apply raises_only_bind; [apply raises_only_read|].
  intros a. apply raises_only_modify.
Qed.

Lemma raises_only_for_each {A : Type} e (l : list A) body :
  (forall a, raises_only e (body a)) -> raises_only e (for_each l body).
Proof.
  intros Hb. induction l as [|a l IH]; simpl.
  - intros t e' t'. unfold ret. discriminate.
  - apply raises_only_bind; [apply Hb | intros _; exact IH].
Qed.

Create HintDb quad.

#[local] Hint Resolve raises_only_node_at raises_only_read raises_only_modify
  raises_only_get raises_only_write raises_only_ret : quad.

(** C7. [set_free_quad_node] raises ValueError exactly when
    [(qindex - 1) mod 4] is not [0], and then the tree (all node records, the
    head of the free list and the in-use counter) is the one it was given. *)
Theorem set_free_quad_node_value_error (t : QuadTree) (qindex : Z) :
  (fst (set_free_quad_node qindex t) = Raise ValueError <-> (qindex - 1) mod 4 <> 0) /\
  (fst (set_free_quad_node qindex t) = Raise ValueError ->
   snd (set_free_quad_node qindex t) = t).
Proof.
  unfold set_free_quad_node.
  destruct ((qindex - 1) mod 4 =? 0) eqn:E; simpl.
  - apply Z.eqb_eq in E.
    match goal with |- context [fst (?m t)] => set (run := m) end.
    assert (Hr : raises_only IndexError run).
    { unfold run.
      repeat (first [ apply raises_only_bind; [|intros ?]
                    | solve [auto with quad] ]). }
    assert (Hne : fst (run t) <> Raise ValueError).
    { destruct (run t) as [r t'] eqn:Er. simpl. intros ->.
      apply Hr in Er. discriminate. }
    split; [split|]; intros H; congruence.
  - apply Z.eqb_neq in E. unfold throw. simpl. tauto.
Qed.

Lemma set_free_quad_node_value_error_witness :
  fst (set_free_quad_node 2 (new_QuadTree 16 16 4 false)) = Raise ValueError /\
  snd (set_free_quad_node 2 (new_QuadTree 16 16 4 false)) = new_QuadTree 16 16 4 false.
Proof.
  pose proof (set_free_quad_node_value_error (new_QuadTree 16 16 4 false) 2) as [H1 H2].
  assert (H : fst (set_free_quad_node 2 (new_QuadTree 16 16 4 false)) = Raise ValueError).
  { apply H1. vm_compute. discriminate. }
  split; [exact H | exact (H2 H)].
Defined.

(** ** Insertion *)

(** C10. [insert] raises whatever the tree and the entity passed to it, and
    leaves the tree as it was; [fill_tree] given a non-empty list of entities
    raises and returns no tree. *)
Theorem insert_always_raises {A : Type} :
  (forall (t : QuadTree) (args : list A), exists e, insert args t = (Raise e, t)) /\
  (forall (bbox : option (list Z)) (e : A) (es : list A) (capacity : option Z)
          (aid : bool),
      exists err, fill_tree bbox (Some (e :: es)) capacity aid = Raise err).
Proof.
  split.
  - intros t [|a args]; simpl; unfold throw; eauto.
  - intros bbox e es capacity aid. unfold fill_tree. simpl.
    destruct bbox as [size|]; [|eauto].
    unfold init.
    destruct size as [|sw [|sh [|? ?]]]; simpl; eauto.
    destruct capacity as [md|]; simpl; eauto.
Qed.

(** ** What the allocator does to the pool *)

Lemma insert_alter (l : list QuadNode) (i : nat) (n : QuadNode) f :
  l !! i = Some n -> <[i := f n]> l = alter f i l.
Proof.
  intros E. apply list_eq. intros j.
  destruct (decide (i = j)) as [->|Hne].
  - rewrite list_lookup_alter_eq, E. simpl.
    apply list_lookup_insert_eq. eapply lookup_lt_Some, E.
  - now rewrite list_lookup_alter_ne, list_lookup_insert_ne.
Qed.

Lemma alter_twice (l : list QuadNode) (i : nat) f g :
  alter g i (alter f i l) = alter (fun n => g (f n)) i l.
Proof.
  apply list_eq. intros j. destruct (decide (i = j)) as [->|Hne].
  - rewrite !list_lookup_alter_eq. now destruct (l !! j).
  - now rewrite !list_lookup_alter_ne.
Qed.

Lemma write_alter t s n f :
  all_quad_node t !! s = Some n ->
  write s f t = (Ok tt, with_nodes (alter f s (all_quad_node t)) t).
Proof. intros E. rewrite (write_ok _ _ _ _ E). now rewrite (insert_alter _ _ _ _ E). Qed.

Lemma lookup_alter4 f c (l : list QuadNode) (j : nat) :
  alter4 f c l !! j =
  if decide (c <= j < c + 4)%nat then f <$> l !! j else l !! j.
Proof.
  unfold alter4.
  destruct (decide (c <= j < c + 4)%nat) as [Hin|Hout].
  - destruct (decide (j = c + 3)%nat) as [->|H3];
      [rewrite list_lookup_alter_eq; repeat (rewrite list_lookup_alter_ne by lia); done|].
    rewrite list_lookup_alter_ne by lia.
    destruct (decide (j = c + 2)%nat) as [->|H2];
      [rewrite list_lookup_alter_eq; repeat (rewrite list_lookup_alter_ne by lia); done|].
    rewrite list_lookup_alter_ne by lia.
    destruct (decide (j = c + 1)%nat) as [->|H1];
      [rewrite list_lookup_alter_eq; repeat (rewrite list_lookup_alter_ne by lia); done|].
    rewrite list_lookup_alter_ne by lia.
    assert (j = c) as -> by lia. now rewrite list_lookup_alter_eq.
  - now repeat (rewrite list_lookup_alter_ne by lia).
Qed.

Lemma length_alter4 f c (l : list QuadNode) : length (alter4 f c l) = length l.
Proof. unfold alter4. now rewrite !length_alter. Qed.

Lemma free_one t (p : nat) pn (c i : nat) cn :
  all_quad_node t !! p = Some pn -> first_child pn = Z.of_nat c ->
  all_quad_node t !! (c + i)%nat = Some cn ->
  (let* p' := read p in
   let* child := node_at (first_child p' + Z.of_nat i) in
   let* t' := get in
   write child (set_free (free_quad_node_index t'))) t
  = (Ok tt, with_nodes (alter (set_free (free_quad_node_index t)) (c + i)%nat
                          (all_quad_node t)) t).
Proof.
  intros Hp Hfc Hc.
  rewrite (bind_ok _ _ _ _ _ (read_ok _ _ _ Hp)). rewrite Hfc.
  replace (Z.of_nat c + Z.of_nat i) with (Z.of_nat (c + i)) by lia.
  rewrite (bind_ok _ _ _ (c + i)%nat t).
  2:{ apply node_at_nat. eapply lookup_lt_Some, Hc. }
  unfold get at 1. unfold bind at 1.
  exact (write_alter _ _ cn _ Hc).
Qed.

Lemma set_free_quad_node_ok t (c p : nat) cn pn :
  (Z.of_nat c - 1) mod 4 = 0 ->
  (c + 3 < pool_size t)%nat ->
  all_quad_node t !! c = Some cn -> parent_index cn = Z.of_nat p ->
  all_quad_node t !! p = Some pn -> first_child pn = Z.of_nat c ->
  (p < c \/ c + 3 < p)%nat ->
  set_free_quad_node (Z.of_nat c) t = (Ok tt, freed p c t).
Proof.
  intros Hmod Hlen Hc Hpar Hp Hfc Hout.
  unfold set_free_quad_node. rewrite Hmod. cbn [Z.eqb negb].
  rewrite (bind_ok _ _ _ c t) by (apply node_at_nat; unfold pool_size in *; lia).
  rewrite (bind_ok _ _ _ _ _ (read_ok _ _ _ Hc)). rewrite Hpar.
  rewrite (bind_ok _ _ _ p t).
  2:{ apply node_at_nat. eapply lookup_lt_Some, Hp. }
  assert (Hk : forall i, (i < 4)%nat -> is_Some (all_quad_node t !! (c + i)%nat)).
  { intros i Hi. apply lookup_lt_is_Some. unfold pool_size in Hlen. lia. }
  destruct (Hk 0%nat) as [n0 H0]; [lia|].
  destruct (Hk 1%nat) as [n1 H1]; [lia|].
  destruct (Hk 2%nat) as [n2 H2]; [lia|].
  destruct (Hk 3%nat) as [n3 H3]; [lia|].
  set (hd := free_quad_node_index t).
  cbn [for_each range4].
  change 0 with (Z.of_nat 0); change 1 with (Z.of_nat 1);
    change 2 with (Z.of_nat 2); change 3 with (Z.of_nat 3).
  rewrite (bind_ok _ _ t tt
             (with_nodes (alter4 (set_free hd) c (all_quad_node t)) t)).
  2:{ rewrite (bind_ok _ _ _ _ _ (free_one t p pn c 0 n0 Hp Hfc H0)).
      rewrite (bind_ok _ _ _ tt
         (with_nodes (alter (set_free hd) (c + 1)%nat
            (alter (set_free hd) (c + 0)%nat (all_quad_node t))) t)).
      2:{ erewrite free_one; [reflexivity| | exact Hfc |]; cbn [all_quad_node with_nodes].
          - rewrite list_lookup_alter_ne by lia. exact Hp.
          - rewrite list_lookup_alter_ne by lia. exact H1. }
      rewrite (bind_ok _ _ _ tt
         (with_nodes (alter (set_free hd) (c + 2)%nat
           (alter (set_free hd) (c + 1)%nat
            (alter (set_free hd) (c + 0)%nat (all_quad_node t)))) t)).
      2:{ erewrite free_one; [reflexivity| | exact Hfc |]; cbn [all_quad_node with_nodes].
          - rewrite !list_lookup_alter_ne by lia. exact Hp.
          - rewrite !list_lookup_alter_ne by lia. exact H2. }
      rewrite (bind_ok _ _ _ tt
         (with_nodes (alter (set_free hd) (c + 3)%nat
          (alter (set_free hd) (c + 2)%nat
           (alter (set_free hd) (c + 1)%nat
            (alter (set_free hd) (c + 0)%nat (all_quad_node t))))) t)).
      2:{ erewrite free_one; [reflexivity| | exact Hfc |]; cbn [all_quad_node with_nodes].
          - rewrite !list_lookup_alter_ne by lia. exact Hp.
          - rewrite !list_lookup_alter_ne by lia. exact H3. }
      unfold ret, alter4. now rewrite Nat.add_0_r. }
  unfold modify at 1. unfold bind at 1.
  unfold modify at 1. unfold bind at 1.
  assert (Hp' : alter4 (set_free hd) c (all_quad_node t) !! p = Some pn).
  { rewrite lookup_alter4. destruct (decide _); [lia|exact Hp]. }
  match goal with
  | |- bind (write p ?f) _ ?st = _ =>
      rewrite (bind_ok _ _ _ _ _ (write_alter st p pn f Hp'))
  end.
  rewrite (write_alter _ p (with_first_child (-1) pn)).
  2:{ cbn [all_quad_node with_nodes with_free_index with_in_use_count].
      rewrite list_lookup_alter_eq, Hp'. reflexivity. }
  unfold freed, with_nodes, with_in_use_count, with_free_index, as_empty_leaf.
  cbn [all_quad_node bbox auto_id max_depth free_quad_node_index
       num_quad_node_in_use cleaned].
  fold hd. rewrite alter_twice. reflexivity.
Qed.

Lemma set_branch_fresh t (q : nat) (qindex : Z) n :
  all_quad_node t !! q = Some n -> free_quad_node_index t = -1 ->
  set_branch q qindex t = (Ok tt, branched_fresh q qindex t).
Proof.
  intros Hq Hhd. unfold set_branch.
  rewrite (bind_ok _ _ _ _ _ (write_alter _ _ _ _ Hq)).
  unfold modify at 1. unfold bind at 1.
  unfold get at 1. unfold bind at 1.
  cbn [free_quad_node_index with_in_use_count with_nodes]. rewrite Hhd.
  cbn [Z.eqb Pos.eqb].
  match goal with
  | |- bind (write q ?f) _ ?st = _ =>
      rewrite (bind_ok _ _ _ _ _ (write_alter st q (with_total_entity (-1) n) f
                 ltac:(cbn [all_quad_node with_in_use_count with_nodes];
                       rewrite list_lookup_alter_eq, Hq; reflexivity)))
  end.
  cbn [for_each range4]. unfold append, modify, bind, ret.
  unfold branched_fresh, with_nodes, with_in_use_count, num_quad_node, as_branch.
  cbn [all_quad_node bbox auto_id max_depth free_quad_node_index
       num_quad_node_in_use cleaned].
  rewrite alter_twice, length_alter, <- !app_assoc. reflexivity.
Qed.

Lemma reuse_one t (f i : nat) (qindex : Z) cn :
  free_quad_node_index t = Z.of_nat f ->
  all_quad_node t !! (f + i)%nat = Some cn ->
  (let* t' := get in
   let* child := node_at (free_quad_node_index t' + Z.of_nat i) in
   write child (update (-1) 0 qindex)) t
  = (Ok tt, with_nodes (alter (update (-1) 0 qindex) (f + i)%nat (all_quad_node t)) t).
Proof.
  intros Hhd Hc. unfold get at 1. unfold bind at 1. rewrite Hhd.
  replace (Z.of_nat f + Z.of_nat i) with (Z.of_nat (f + i)) by lia.
  rewrite (bind_ok _ _ _ (f + i)%nat t).
  2:{ apply node_at_nat. eapply lookup_lt_Some, Hc. }
  exact (write_alter _ _ cn _ Hc).
Qed.

Lemma set_branch_reuse t (q : nat) (qindex : Z) n (f : nat) fn :
  all_quad_node t !! q = Some n -> free_quad_node_index t = Z.of_nat f ->
  (f + 3 < pool_size t)%nat -> (q < f \/ f + 3 < q)%nat ->
  all_quad_node t !! f = Some fn ->
  set_branch q qindex t = (Ok tt, branched_reuse q qindex f (first_child fn) t).
Proof.
  intros Hq Hhd Hlen Hout Hf. unfold set_branch.
  rewrite (bind_ok _ _ _ _ _ (write_alter _ _ _ _ Hq)).
  unfold modify at 1. unfold bind at 1.
  unfold get at 1. unfold bind at 1.
  cbn [free_quad_node_index with_in_use_count with_nodes]. rewrite Hhd.
  replace (Z.of_nat f =? -1) with false by (symmetry; apply Z.eqb_neq; lia).
  match goal with
  | |- bind (write q ?g) _ ?st = _ =>
      rewrite (bind_ok _ _ _ _ _ (write_alter st q (with_total_entity (-1) n) g
                 ltac:(cbn [all_quad_node with_in_use_count with_nodes];
                       rewrite list_lookup_alter_eq, Hq; reflexivity)))
  end.
  cbn [all_quad_node with_in_use_count with_nodes]. rewrite alter_twice.
  fold (as_branch (Z.of_nat f)).
  set (l1 := alter (as_branch (Z.of_nat f)) q (all_quad_node t)).
  assert (Hl1 : forall j, j <> q -> l1 !! j = all_quad_node t !! j).
  { intros j Hj. unfold l1. now rewrite list_lookup_alter_ne. }
  match goal with
  | |- bind (read q) _ ?st = _ =>
      rewrite (bind_ok _ _ st (as_branch (Z.of_nat f) n) st)
  end.
  2:{ apply read_ok. cbn [all_quad_node with_nodes]. unfold l1.
      rewrite list_lookup_alter_eq, Hq. reflexivity. }
  cbn [as_branch with_first_child first_child].
  match goal with
  | |- bind (node_at _) _ ?st = _ => rewrite (bind_ok _ _ st f st)
  end.
  2:{ apply node_at_nat. unfold pool_size. cbn [all_quad_node with_nodes]. unfold l1.
      rewrite length_alter. unfold pool_size in Hlen. lia. }
  match goal with
  | |- bind (read f) _ ?st = _ => rewrite (bind_ok _ _ st fn st)
  end.
  2:{ apply read_ok. cbn [all_quad_node with_nodes]. rewrite Hl1 by lia. exact Hf. }
  assert (Hk : forall i, (i < 4)%nat -> is_Some (all_quad_node t !! (f + i)%nat)).
  { intros i Hi. apply lookup_lt_is_Some. unfold pool_size in Hlen. lia. }
  destruct (Hk 0%nat) as [n0 H0]; [lia|].
  destruct (Hk 1%nat) as [n1 H1]; [lia|].
  destruct (Hk 2%nat) as [n2 H2]; [lia|].
  destruct (Hk 3%nat) as [n3 H3]; [lia|].
  cbn [for_each range4].
  change 0 with (Z.of_nat 0) at 1; change 1 with (Z.of_nat 1);
    change 2 with (Z.of_nat 2); change 3 with (Z.of_nat 3).
  set (up := update (-1) (Z.of_nat 0) qindex).
  match goal with
  | |- bind _ _ ?st = _ =>
      rewrite (bind_ok _ _ st tt (with_nodes (alter4 up f l1) st))
  end.
  2:{ erewrite bind_ok.
      2:{ eapply (reuse_one _ f 0); [exact Hhd|].
          cbn [all_quad_node with_nodes]. rewrite Hl1 by lia. exact H0. }
      erewrite bind_ok.
      2:{ eapply (reuse_one _ f 1); [exact Hhd|].
          cbn [all_quad_node with_nodes].
          rewrite list_lookup_alter_ne, Hl1 by lia. exact H1. }
      erewrite bind_ok.
      2:{ eapply (reuse_one _ f 2); [exact Hhd|].
          cbn [all_quad_node with_nodes].
          rewrite !list_lookup_alter_ne, Hl1 by lia. exact H2. }
      erewrite bind_ok.
      2:{ eapply (reuse_one _ f 3); [exact Hhd|].
          cbn [all_quad_node with_nodes].
          rewrite !list_lookup_alter_ne, Hl1 by lia. exact H3. }
      unfold ret, alter4, with_nodes.
      cbn [all_quad_node bbox auto_id max_depth free_quad_node_index
           num_quad_node_in_use cleaned].
      now rewrite Nat.add_0_r. }
  unfold modify, branched_reuse, with_nodes, with_free_index.
  cbn [all_quad_node bbox auto_id max_depth free_quad_node_index
       num_quad_node_in_use cleaned].
  reflexivity.
Qed.

(** ** Splitting a leaf and freeing the block again *)

Lemma as_empty_leaf_as_branch c n : as_empty_leaf (as_branch c n) = as_empty_leaf n.
Proof. reflexivity. Qed.

(** The round trip on a pool described slot by slot: the length of the pool
    is 1 modulo 4 and the head of the free list is the sentinel or the base of
    a block of the pool, aligned, that does not hold the node. *)
Lemma branch_then_free_local (t : QuadTree) (q : nat) (n : QuadNode) :
  all_quad_node t !! q = Some n ->
  (Z.of_nat (pool_size t) - 1) mod 4 = 0 ->
  (free_quad_node_index t = -1 \/
   exists f : nat,
     free_quad_node_index t = Z.of_nat f /\ (Z.of_nat f - 1) mod 4 = 0 /\
     (f + 3 < pool_size t)%nat /\ (q < f \/ f + 3 < q)%nat) ->
  exists (t1 t2 : QuadTree) (c : Z),
    set_branch q (Z.of_nat q) t = (Ok tt, t1) /\
    first_child <$> all_quad_node t1 !! q = Some c /\
    c = (if free_quad_node_index t =? -1 then num_quad_node t
         else free_quad_node_index t) /\
    set_free_quad_node c t1 = (Ok tt, t2) /\
    num_quad_node_in_use t2 = num_quad_node_in_use t /\
    all_quad_node t2 !! q = Some (as_empty_leaf n) /\
    free_quad_node_index t2 = c.
Proof.
  intros Hq Hlen [Hhd | (f & Hhd & Hmod & Hf3 & Hout)].
  - pose proof (lookup_lt_Some _ _ _ Hq) as Hql.
    set (c := length (all_quad_node t)).
    assert (H1q : all_quad_node (branched_fresh q (Z.of_nat q) t) !! q
                  = Some (as_branch (Z.of_nat c) n)).
    { cbn [branched_fresh all_quad_node]. rewrite lookup_app_l by (now rewrite length_alter).
      unfold num_quad_node. now rewrite list_lookup_alter_eq, Hq. }
    assert (H1c : all_quad_node (branched_fresh q (Z.of_nat q) t) !! c
                  = Some (new_QuadNode (Z.of_nat q))).
    { cbn [branched_fresh all_quad_node]. rewrite lookup_app_r by (rewrite length_alter; unfold c; lia).
      rewrite length_alter. unfold c. now rewrite Nat.sub_diag. }
    exists (branched_fresh q (Z.of_nat q) t),
           (freed q c (branched_fresh q (Z.of_nat q) t)), (Z.of_nat c).
    split; [exact (set_branch_fresh _ _ _ _ Hq Hhd)|].
    split; [now rewrite H1q|].
    split; [now rewrite Hhd|].
    split.
    { eapply set_free_quad_node_ok; [exact Hlen| |exact H1c|reflexivity|exact H1q|reflexivity|].
      - unfold pool_size. cbn [branched_fresh all_quad_node].
        rewrite length_app, length_alter. cbn [length]. unfold c. lia.
      - unfold c. lia. }
    split; [cbn; lia|].
    split; [|reflexivity].
    cbn [freed all_quad_node]. rewrite list_lookup_alter_eq, lookup_alter4.
    destruct (decide _) as [Hin|_]; [unfold c in Hin; lia|].
    now rewrite H1q.
  - assert (is_Some (all_quad_node t !! f)) as [fn Hfn].
    { apply lookup_lt_is_Some. unfold pool_size in Hf3. lia. }
    set (t1 := branched_reuse q (Z.of_nat q) f (first_child fn) t).
    assert (H1q : all_quad_node t1 !! q = Some (as_branch (Z.of_nat f) n)).
    { cbn [t1 branched_reuse all_quad_node]. rewrite lookup_alter4.
      destruct (decide _) as [Hin|_]; [lia|].
      now rewrite list_lookup_alter_eq, Hq. }
    assert (H1c : all_quad_node t1 !! f = Some (update (-1) 0 (Z.of_nat q) fn)).
    { cbn [t1 branched_reuse all_quad_node]. rewrite lookup_alter4.
      destruct (decide _) as [_|Hn]; [|lia].
      rewrite list_lookup_alter_ne by lia. now rewrite Hfn. }
    exists t1, (freed q f t1), (Z.of_nat f).
    split; [exact (set_branch_reuse _ _ _ _ _ _ Hq Hhd Hf3 Hout Hfn)|].
    split; [now rewrite H1q|].
    split.
    { rewrite Hhd. now replace (Z.of_nat f =? -1) with false
        by (symmetry; apply Z.eqb_neq; lia). }
    split.
    { eapply set_free_quad_node_ok; [exact Hmod| |exact H1c|reflexivity|exact H1q|reflexivity|exact Hout].
      unfold pool_size. cbn [t1 branched_reuse all_quad_node].
      rewrite length_alter4, length_alter. exact Hf3. }
    split; [cbn; lia|].
    split; [|reflexivity].
    cbn [freed all_quad_node]. rewrite list_lookup_alter_eq, lookup_alter4.
    destruct (decide _) as [Hin|_]; [lia|].
    now rewrite H1q.
Qed.

(** ** Regions *)


(** C2 at node 6 of [split_twice], the quadrant 1 of node 1, itself the
    quadrant 0 of the root.  [get_bbox] collects the quadrants from the node
    upwards, [1; 0], and splits the box of the tree in that order: it answers
    quadrant 0 of quadrant 1, the box (32, 0, 16, 16).  The traversals, which
    split on the way down, give node 6 quadrant 1 of quadrant 0, the box
    (16, 0, 16, 16). *)
Theorem get_bbox_splits_bottom_up :
  get_bbox (G := plane_geometry) 2 split_twice 6 = Ok (6, mkBBox 32 0 16 16) /\
  find_quad_node (G := plane_geometry) 8 split_twice (mkBBox 17 1 1 1)
    = Ok (6, new_QuadNode 1, mkBBox 16 0 16 16) /\
  (exists leaves,
     find_leaves (G := plane_geometry) 16 split_twice (Some 0%nat) None = Ok leaves /\
     In (6, new_QuadNode 1, mkBBox 16 0 16 16) leaves) /\
  all_quad_node split_twice !! 6%nat = Some (new_QuadNode 1).
Proof.
  split; [reflexivity|]. split; [reflexivity|]. split; [|reflexivity].
  eexists. split; [reflexivity|]. simpl. tauto.
Qed.

(** ** Leaf enumeration *)

(** C6 on [split_root] with the reference box (10, 20, 5, 20), which
    straddles the quadrants 0 and 2 of the root: the containing node is the
    root, and [find_leaves] answers all four leaves, among them nodes 2 and 4
    whose regions do not overlap the reference box. *)
Theorem find_leaves_ignores_reference_box :
  find_quad_node (G := plane_geometry) 8 split_root (mkBBox 10 20 5 20)
    = Ok (0, as_branch 1 root_QuadNode, mkBBox 0 0 64 64) /\
  find_leaves (G := plane_geometry) 8 split_root None (Some (mkBBox 10 20 5 20))
    = Ok [ (4, new_QuadNode 0, mkBBox 32 32 32 32);
           (3, new_QuadNode 0, mkBBox 0 32 32 32);
           (2, new_QuadNode 0, mkBBox 32 0 32 32);
           (1, new_QuadNode 0, mkBBox 0 0 32 32) ] /\
  overlaps (mkBBox 10 20 5 20) (mkBBox 32 32 32 32) = false /\
  overlaps (mkBBox 10 20 5 20) (mkBBox 32 0 32 32) = false.
Proof. repeat split. Qed.

(** ** Containment search *)

(** C1 as stated fails for a box outside the tree: the root is the only
    candidate and is returned, although its region does not contain the
    box. *)
Lemma find_quad_node_outside_root :
  find_quad_node (G := plane_geometry) 8 tree_64 (mkBBox 200 200 1 1)
    = Ok (0, root_QuadNode, mkBBox 0 0 64 64) /\
  is_inscribed (Geometry := plane_geometry) (mkBBox 200 200 1 1) (mkBBox 0 0 64 64)
    = false.
Proof. split; reflexivity. Qed.

(** C8 as stated fails: on a new tree, with a reference box outside the
    region of the root, both searches return the root and raise nothing. *)
Lemma searches_report_no_error :
  find_quad_node (G := plane_geometry) 8 tree_64 (mkBBox 200 200 1 1)
    = Ok (0, root_QuadNode, mkBBox 0 0 64 64) /\
  find_leaves (G := plane_geometry) 8 tree_64 None (Some (mkBBox 200 200 1 1))
    = Ok [(0, root_QuadNode, mkBBox 0 0 64 64)] /\
  all_quad_node tree_64 = [root_QuadNode] /\
  overlaps (mkBBox 200 200 1 1) (bbox tree_64) = false.
Proof. repeat split. Qed.

(** ** Cleanup of the root *)

(** C5 as stated fails at the root: after the collapse of the root of
    [split_root] its [first_child] is 1. *)
Lemma clean_up_root_first_child :
  exists t', clean_up 2 split_root = (Ok tt, t') /\
             first_child <$> all_quad_node t' !! 0%nat = Some 1.
Proof. eexists. split; reflexivity. Qed.

(** ** The shape of well-formed pools *)

Lemma desc_trans l x y z : desc l x y -> desc l y z -> desc l x z.
Proof.
  intros Hxy Hyz. induction Hyz as [|p pn c i Hp IH Hl Hu Hb Hc Hi]; [exact Hxy|].
  eapply desc_child; eauto.
Qed.

Lemma desc_rank rk l y z : ranked rk l -> desc l y z -> (rk z <= rk y)%nat.
Proof.
  intros Hrk Hd. induction Hd as [|p pn c i Hp IH Hl Hu Hb Hc Hi]; [lia|].
  pose proof (Hrk _ _ _ i Hl Hu Hb Hc Hi). lia.
Qed.

Lemma desc_rank_strict rk l y z :
  ranked rk l -> desc l y z -> z <> y -> (rk z < rk y)%nat.
Proof.
  intros Hrk Hd Hne. destruct Hd as [|p pn c i Hp Hl Hu Hb Hc Hi]; [congruence|].
  pose proof (Hrk _ _ _ i Hl Hu Hb Hc Hi).
  pose proof (desc_rank _ _ _ _ Hrk Hp). lia.
Qed.

Lemma desc_shrinks l l' y z : shrinks l l' -> desc l' y z -> desc l y z.
Proof.
  intros Hs Hd. induction Hd as [|p pn c i Hp IH Hl Hu Hb Hc Hi]; [constructor|].
  eapply desc_child; eauto.
Qed.

Lemma shrinks_refl l : shrinks l l.
Proof. intros z n H _ _. exact H. Qed.

Lemma shrinks_trans l1 l2 l3 : shrinks l1 l2 -> shrinks l2 l3 -> shrinks l1 l3.
Proof. intros H12 H23 z n H Hu Hb. eauto. Qed.

Lemma ranked_shrinks rk l l' : shrinks l l' -> ranked rk l -> ranked rk l'.
Proof. intros Hs Hrk s n c i Hl Hu Hb Hc Hi. eapply Hrk; eauto. Qed.

Lemma child_of rk t p pn c i :
  wf_with rk t ->
  all_quad_node t !! p = Some pn -> in_use pn = true -> is_branch pn = true ->
  first_child pn = Z.of_nat c -> (i < 4)%nat ->
  (1 <= c)%nat /\ (Z.of_nat c - 1) mod 4 = 0 /\ (c + 3 < pool_size t)%nat /\
  exists cn, all_quad_node t !! (c + i)%nat = Some cn /\ in_use cn = true /\
             parent_index cn = Z.of_nat p.
Proof.
  intros Hwf Hl Hu Hb Hc Hi.
  destruct (wf_branch _ _ Hwf _ _ Hl Hu Hb) as (c0 & Hc0 & H1 & Hm & Hlen & Hch).
  assert (c0 = c) as -> by lia.
  repeat split; auto.
Qed.

Lemma desc_comparable rk t x y z :
  wf_with rk t ->
  desc (all_quad_node t) x z -> desc (all_quad_node t) y z ->
  desc (all_quad_node t) x y \/ desc (all_quad_node t) y x.
Proof.
  intros Hwf Hx. revert y.
  induction Hx as [|p pn c i Hp IH Hl Hu Hb Hc Hi]; intros y Hy; [now right|].
  inversion Hy as [Heq|p' pn' c' i' Hp' Hl' Hu' Hb' Hc' Hi' Heq].
  - left. eapply desc_child; eauto.
  - destruct (child_of _ _ _ _ _ _ Hwf Hl Hu Hb Hc Hi) as (_ & _ & _ & cn & Hcn & _ & Hpar).
    destruct (child_of _ _ _ _ _ _ Hwf Hl' Hu' Hb' Hc' Hi') as (_ & _ & _ & cn' & Hcn' & _ & Hpar').
    rewrite Heq in Hcn'. rewrite Hcn in Hcn'. inversion Hcn'; subst cn'.
    assert (p' = p) as -> by lia.
    apply IH. exact Hp'.
Qed.

Lemma siblings_disjoint rk t p pn c i j z :
  wf_with rk t ->
  all_quad_node t !! p = Some pn -> in_use pn = true -> is_branch pn = true ->
  first_child pn = Z.of_nat c -> (i < 4)%nat -> (j < 4)%nat -> i <> j ->
  desc (all_quad_node t) (c + i)%nat z -> desc (all_quad_node t) (c + j)%nat z ->
  False.
Proof.
  intros Hwf Hl Hu Hb Hc Hi Hj Hne Hdi Hdj.
  assert (Hcyc : forall a b, (a < 4)%nat -> (b < 4)%nat -> a <> b ->
             desc (all_quad_node t) (c + a)%nat (c + b)%nat -> False).
  { intros a b Ha Hb' Hab Hd.
    inversion Hd as [Heq|p' pn' c' i' Hp' Hl' Hu' Hb'' Hc' Hi' Heq]; [lia|].
    destruct (child_of _ _ _ _ _ _ Hwf Hl Hu Hb Hc Hb') as (_ & _ & _ & cn & Hcn & _ & Hpar).
    destruct (child_of _ _ _ _ _ _ Hwf Hl' Hu' Hb'' Hc' Hi') as (_ & _ & _ & cn' & Hcn' & _ & Hpar').
    rewrite Heq in Hcn'. rewrite Hcn in Hcn'. inversion Hcn'; subst cn'.
    assert (p' = p) as -> by lia.
    pose proof (desc_rank _ _ _ _ (wf_rank _ _ Hwf) Hp').
    pose proof (wf_rank _ _ Hwf _ _ _ a Hl Hu Hb Hc Ha). lia. }
  destruct (desc_comparable _ _ _ _ _ Hwf Hdi Hdj) as [H|H].
  - exact (Hcyc i j Hi Hj Hne H).
  - exact (Hcyc j i Hj Hi (fun e => Hne (eq_sym e)) H).
Qed.

Lemma settled_frame l l' x r :
  settled l x r -> length l' = length l ->
  (forall z, desc l x z -> l' !! z = l !! z) ->
  settled l' x r.
Proof.
  intros Hs Hlen. induction Hs as
    [x n Hl Hu | x n Hl Hu Hlf Hte | x n Hl Hu Hte
    | x n c r0 r1 r2 r3 Hl Hu Hb Hc Hc3 H0 IH0 H1 IH1 H2 IH2 H3 IH3 Hsum];
    intros Hfr.
  - eapply settled_unused; [rewrite Hfr by constructor|]; eauto.
  - eapply settled_full_leaf; [rewrite Hfr by constructor| | |]; eauto.
  - eapply settled_empty_leaf; [rewrite Hfr by constructor| |]; eauto.
  - assert (Hch : forall i z, (i < 4)%nat -> desc l (c + i)%nat z -> l' !! z = l !! z).
    { intros i z Hi Hd. apply Hfr. eapply desc_trans; [|exact Hd].
      eapply desc_child; eauto. constructor. }
    eapply (settled_branch l' x n c r0 r1 r2 r3); auto.
    + rewrite Hfr by constructor. exact Hl.
    + lia.
    + apply IH0. intros z Hd. apply (Hch 0%nat); [lia|]. now rewrite Nat.add_0_r.
    + apply IH1. intros z Hd. apply (Hch 1%nat); [lia|]. exact Hd.
    + apply IH2. intros z Hd. apply (Hch 2%nat); [lia|]. exact Hd.
    + apply IH3. intros z Hd. apply (Hch 3%nat); [lia|]. exact Hd.
Qed.

(** ** The free list *)

Lemma free_chain_frame l l' hd bs :
  free_chain l hd bs -> (length l <= length l')%nat ->
  (forall b i, b ∈ bs -> (i < 4)%nat -> l' !! (b + i)%nat = l !! (b + i)%nat) ->
  free_chain l' hd bs.
Proof.
  intros Hc Hlen. induction Hc as [|b bn bs H1 Hm Hr Hun Hb Hc IH Hnin]; intros Hfr.
  - constructor.
  - assert (Hb' : l' !! b = Some bn).
    { rewrite <- Hb, <- (Nat.add_0_r b). apply Hfr; [left|lia]. }
    eapply free_chain_cons; eauto.
    + lia.
    + intros i Hi. rewrite Hfr; [auto|left|exact Hi].
    + apply IH. intros b' i Hb'' Hi. apply Hfr; [now right|exact Hi].
Qed.

Lemma free_chain_block l hd bs b :
  free_chain l hd bs -> b ∈ bs ->
  (1 <= b)%nat /\ (Z.of_nat b - 1) mod 4 = 0 /\ (b + 3 < length l)%nat /\
  forall i, (i < 4)%nat -> exists n, l !! (b + i)%nat = Some n /\ in_use n = false.
Proof.
  intros Hc. induction Hc as [|b0 bn bs H1 Hm Hr Hun Hb Hc IH Hnin]; intros Hin.
  - inversion Hin.
  - apply elem_of_cons in Hin as [->|Hin]; [auto|now apply IH].
Qed.

Lemma free_chain_head l hd bs :
  free_chain l hd bs ->
  (hd = -1 /\ bs = []) \/
  (exists b bn bs', hd = Z.of_nat b /\ bs = b :: bs' /\ l !! b = Some bn /\
                    free_chain l (first_child bn) bs' /\ b ∉ bs').
Proof.
  intros Hc. destruct Hc as [|b bn bs H1 Hm Hr Hun Hb Hc Hnin]; [now left|].
  right. exists b, bn, bs. auto.
Qed.

(** Two aligned blocks are the same block or share no slot. *)
Lemma aligned_blocks (b b' i i' : nat) :
  (Z.of_nat b - 1) mod 4 = 0 -> (Z.of_nat b' - 1) mod 4 = 0 ->
  (i < 4)%nat -> (i' < 4)%nat -> (b + i = b' + i')%nat -> b = b'.
Proof.
  intros Hb Hb' Hi Hi' Heq.
  apply Z.mod_divide in Hb; [|lia]. apply Z.mod_divide in Hb'; [|lia].
  destruct Hb as [k Hk]. destruct Hb' as [k' Hk']. lia.
Qed.

Lemma in_use_not_free l hd bs z n b i :
  free_chain l hd bs -> l !! z = Some n -> in_use n = true ->
  b ∈ bs -> (i < 4)%nat -> z <> (b + i)%nat.
Proof.
  intros Hc Hz Hu Hb Hi ->.
  destruct (free_chain_block _ _ _ _ Hc Hb) as (_ & _ & _ & Hun).
  destruct (Hun i Hi) as (n' & Hn' & Hu'). congruence.
Qed.

(** ** Operations that keep a pool well formed *)

Lemma children_ok_transfer l l' s n :
  children_ok l s n -> (length l <= length l')%nat ->
  (forall j cn, l !! j = Some cn -> in_use cn = true -> parent_index cn = Z.of_nat s ->
     exists cn', l' !! j = Some cn' /\ in_use cn' = true /\
                 parent_index cn' = Z.of_nat s) ->
  children_ok l' s n.
Proof.
  intros (c & Hc & H1 & Hm & Hr & Hch) Hlen Htr.
  exists c. repeat split; auto; [lia|].
  intros i Hi. destruct (Hch i Hi) as (cn & Hcn & Hu & Hp). eauto.
Qed.

Lemma wf_alter_kept rk t s n f :
  wf_with rk t ->
  all_quad_node t !! s = Some n -> in_use n = true ->
  in_use (f n) = true -> parent_index (f n) = parent_index n ->
  0 <= total_entity (f n) ->
  wf_with rk (with_nodes (alter f s (all_quad_node t)) t).
Proof.
  intros Hwf Hs Hu Hfu Hfp Hfe.
  assert (Hnb : is_branch (f n) = false).
  { unfold is_branch. apply Z.eqb_neq. lia. }
  assert (Hlk : forall j, alter f s (all_quad_node t) !! j =
                          if decide (s = j) then Some (f n) else all_quad_node t !! j).
  { intros j. rewrite list_lookup_alter. destruct (decide (s = j)) as [<-|]; [|done].
    now rewrite Hs. }
  assert (Hsh : shrinks (all_quad_node t) (alter f s (all_quad_node t))).
  { intros z m Hz Hzu Hzb. rewrite Hlk in Hz. destruct (decide (s = z)); [|exact Hz].
    inversion Hz; subst. congruence. }
  constructor; unfold pool_size; cbn [all_quad_node with_nodes free_quad_node_index].
  - destruct (wf_root _ _ Hwf) as (r & Hr & Hru). rewrite Hlk.
    destruct (decide (s = 0%nat)); eauto.
  - rewrite length_alter. exact (wf_len _ _ Hwf).
  - intros z m Hz. rewrite Hlk in Hz. destruct (decide (s = z)).
    + inversion Hz; subst. lia.
    + exact (wf_entity _ _ Hwf _ _ Hz).
  - intros z m Hz Hzu Hzb. pose proof (Hsh _ _ Hz Hzu Hzb) as Hz0.
    eapply children_ok_transfer; [exact (wf_branch _ _ Hwf _ _ Hz0 Hzu Hzb)| |].
    + now rewrite length_alter.
    + intros j cn Hj Hju Hjp. rewrite Hlk. destruct (decide (s = j)) as [<-|]; [|eauto].
      exists (f n). rewrite Hs in Hj. inversion Hj; subst. repeat split; auto. congruence.
  - destruct (wf_free _ _ Hwf) as (bs & Hbs). exists bs.
    eapply free_chain_frame; [exact Hbs|now rewrite length_alter|].
    intros b i Hb Hi. rewrite Hlk. destruct (decide (s = (b + i)%nat)) as [E|]; [|done].
    exfalso. exact (in_use_not_free _ _ _ _ _ _ _ Hbs Hs Hu Hb Hi E).
  - exact (ranked_shrinks _ _ _ Hsh (wf_rank _ _ Hwf)).
Qed.

Lemma lookup_freed t s c n (j : nat) :
  all_quad_node t !! s = Some n -> (s < c \/ c + 3 < s)%nat ->
  all_quad_node (freed s c t) !! j =
  if decide (s = j) then Some (as_empty_leaf n)
  else if decide (c <= j < c + 4)%nat
       then set_free (free_quad_node_index t) <$> all_quad_node t !! j
       else all_quad_node t !! j.
Proof.
  intros Hs Hout. cbn [freed all_quad_node]. rewrite list_lookup_alter.
  destruct (decide (s = j)) as [<-|]; rewrite lookup_alter4; [|done].
  destruct (decide _); [lia|]. now rewrite Hs.
Qed.

Lemma wf_freed rk t s n c :
  wf_with rk t ->
  all_quad_node t !! s = Some n -> in_use n = true -> is_branch n = true ->
  first_child n = Z.of_nat c ->
  set_free_quad_node (first_child n) t = (Ok tt, freed s c t) /\
  wf_with rk (freed s c t) /\
  shrinks (all_quad_node t) (all_quad_node (freed s c t)) /\
  (forall j, j <> s -> ~ (c <= j < c + 4)%nat ->
     all_quad_node (freed s c t) !! j = all_quad_node t !! j) /\
  all_quad_node (freed s c t) !! s = Some (as_empty_leaf n).
Proof.
  intros Hwf Hs Hu Hb Hc.
  assert (Hch : forall i, (i < 4)%nat ->
     exists cn, all_quad_node t !! (c + i)%nat = Some cn /\ in_use cn = true /\
                parent_index cn = Z.of_nat s).
  { intros i Hi. now destruct (child_of _ _ _ _ _ _ Hwf Hs Hu Hb Hc Hi) as (_ & _ & _ & H). }
  destruct (child_of _ _ _ _ _ 0 Hwf Hs Hu Hb Hc ltac:(lia)) as (H1 & Hm & Hr & _).
  assert (Hout : (s < c \/ c + 3 < s)%nat).
  { destruct (decide (c <= s < c + 4)%nat) as [Hin|]; [|lia]. exfalso.
    pose proof (wf_rank _ _ Hwf _ _ _ (s - c)%nat Hs Hu Hb Hc ltac:(lia)) as Hlt.
    replace (c + (s - c))%nat with s in Hlt by lia. lia. }
  pose proof (lookup_freed t s c n) as Hlk.
  assert (Hsh : shrinks (all_quad_node t) (all_quad_node (freed s c t))).
  { intros z m Hz Hzu Hzb. rewrite Hlk in Hz by assumption.
    destruct (decide (s = z)).
    { inversion Hz; subst. discriminate. }
    destruct (decide _); [|exact Hz].
    destruct (all_quad_node t !! z); inversion Hz; subst. discriminate. }
  split; [|split; [|split; [exact Hsh|split]]].
  - rewrite Hc. destruct (Hch 0%nat) as (cn & Hcn & _ & Hp); [lia|].
    rewrite Nat.add_0_r in Hcn.
    exact (set_free_quad_node_ok _ _ _ _ _ Hm Hr Hcn Hp Hs Hc Hout).
  - constructor.
    + destruct (wf_root _ _ Hwf) as (r & Hr0 & Hru). rewrite Hlk by assumption.
      destruct (decide (s = 0%nat)) as [->|].
      { rewrite Hs in Hr0. inversion Hr0; subst. eauto. }
      destruct (decide _); [lia|eauto].
    + unfold pool_size. cbn [freed all_quad_node].
      rewrite length_alter, length_alter4. exact (wf_len _ _ Hwf).
    + intros z m Hz. rewrite Hlk in Hz by assumption.
      destruct (decide (s = z)).
      { inversion Hz; subst. cbn. lia. }
      destruct (decide _); [|exact (wf_entity _ _ Hwf _ _ Hz)].
      destruct (all_quad_node t !! z) as [m0|] eqn:E; inversion Hz; subst.
      cbn. exact (wf_entity _ _ Hwf _ _ E).
    + intros z m Hz Hzu Hzb. pose proof (Hsh _ _ Hz Hzu Hzb) as Hz0.
      assert (z <> s).
      { intros ->. rewrite Hlk in Hz by assumption.
        destruct (decide (s = s)); [|done]. inversion Hz; subst. discriminate. }
      eapply children_ok_transfer; [exact (wf_branch _ _ Hwf _ _ Hz0 Hzu Hzb)| |].
      * cbn [freed all_quad_node]. now rewrite length_alter, length_alter4.
      * intros j cn Hj Hju Hjp. rewrite Hlk by assumption.
        destruct (decide (s = j)) as [<-|].
        { rewrite Hs in Hj. inversion Hj; subst. eauto. }
        destruct (decide _) as [Hin|]; [|eauto]. exfalso.
        destruct (Hch (j - c)%nat) as (cn' & Hcn' & _ & Hp'); [lia|].
        replace (c + (j - c))%nat with j in Hcn' by lia.
        rewrite Hj in Hcn'. inversion Hcn'; subst. lia.
    + destruct (wf_free _ _ Hwf) as (bs & Hbs). exists (c :: bs).
      cbn [freed free_quad_node_index].
      destruct (Hch 0%nat) as (cn & Hcn & Hcu & _); [lia|].
      rewrite Nat.add_0_r in Hcn.
      assert (Hcl : all_quad_node (freed s c t) !! c
                    = Some (set_free (free_quad_node_index t) cn)).
      { rewrite Hlk by assumption. destruct (decide (s = c)); [lia|].
        destruct (decide _); [|lia]. now rewrite Hcn. }
      eapply free_chain_cons; [exact H1|exact Hm| | |exact Hcl| |].
      * cbn [freed all_quad_node]. rewrite length_alter, length_alter4.
        exact Hr.
      * intros i Hi. destruct (Hch i Hi) as (ci & Hci & _).
        exists (set_free (free_quad_node_index t) ci). split; [|reflexivity].
        rewrite Hlk by assumption. destruct (decide _); [lia|].
        destruct (decide _); [|lia]. now rewrite Hci.
      * cbn [set_free first_child].
        eapply free_chain_frame; [exact Hbs| |].
        { cbn [freed all_quad_node]. now rewrite length_alter, length_alter4. }
        intros b i Hbin Hi. rewrite Hlk by assumption.
        destruct (decide (s = (b + i)%nat)) as [E|].
        { exfalso. exact (in_use_not_free _ _ _ _ _ _ _ Hbs Hs Hu Hbin Hi E). }
        destruct (decide _) as [Hin|]; [|done]. exfalso.
        destruct (Hch (b + i - c)%nat) as (ci & Hci & Hciu & _); [lia|].
        replace (c + (b + i - c))%nat with (b + i)%nat in Hci by lia.
        exact (in_use_not_free _ _ _ _ _ _ _ Hbs Hci Hciu Hbin Hi eq_refl).
      * intros Hin.
        exact (in_use_not_free _ _ _ _ _ c 0 Hbs Hcn Hcu Hin ltac:(lia)
                 ltac:(lia)).
    + exact (ranked_shrinks _ _ _ Hsh (wf_rank _ _ Hwf)).
  - intros j Hjs Hjc. rewrite Hlk by assumption.
    destruct (decide (s = j)); [congruence|]. destruct (decide _); [lia|done].
  - rewrite Hlk by assumption. destruct (decide (s = s)); [done|congruence].
Qed.

Lemma lookup_branched_fresh t q qindex (j : nat) :
  all_quad_node (branched_fresh q qindex t) !! j =
  if decide (j < pool_size t)%nat
  then (if decide (q = j) then as_branch (num_quad_node t) <$> all_quad_node t !! j
        else all_quad_node t !! j)
  else if decide (j < pool_size t + 4)%nat then Some (new_QuadNode qindex)
       else None.
Proof.
  cbn [branched_fresh all_quad_node]. unfold pool_size.
  destruct (decide (j < length (all_quad_node t))%nat) as [Hlt|Hge].
  - rewrite lookup_app_l by (now rewrite length_alter).
    rewrite list_lookup_alter. destruct (decide (q = j)) as [->|]; done.
  - rewrite lookup_app_r by (rewrite length_alter; lia). rewrite length_alter.
    destruct (decide _) as [Hlt|Hge'].
    + destruct (j - length (all_quad_node t))%nat as [|[|[|[|k]]]] eqn:E;
        try reflexivity. lia.
    + apply lookup_ge_None. cbn [length]. lia.
Qed.

Lemma lookup_branched_reuse t q qindex f next (j : nat) :
  (q < f \/ f + 3 < q)%nat ->
  all_quad_node (branched_reuse q qindex f next t) !! j =
  if decide (f <= j < f + 4)%nat
  then (fun _ => new_QuadNode qindex) <$> all_quad_node t !! j
  else if decide (q = j) then as_branch (Z.of_nat f) <$> all_quad_node t !! j
       else all_quad_node t !! j.
Proof.
  intros Hout. cbn [branched_reuse all_quad_node]. rewrite lookup_alter4.
  rewrite list_lookup_alter.
  destruct (decide (f <= j < f + 4)%nat).
  - destruct (decide (q = j)); [lia|]. now destruct (all_quad_node t !! j).
  - destruct (decide (q = j)) as [->|]; done.
Qed.

Lemma wf_new sw sh md aid : wf_with (fun _ => 0%nat) (new_QuadTree sw sh md aid).
Proof.
  constructor; cbn.
  - eauto.
  - reflexivity.
  - intros [|s] n H; inversion H; subst. cbn. lia.
  - intros [|s] n H Hu Hb; inversion H; subst. discriminate.
  - exists []. constructor.
  - intros [|s] n c i H Hu Hb; inversion H; subst. discriminate.
Qed.

Lemma wf_branched_fresh rk t q n :
  wf_with rk t ->
  all_quad_node t !! q = Some n -> in_use n = true ->
  free_quad_node_index t = -1 ->
  wf_with (fun y => if decide (pool_size t <= y)%nat then 0%nat else S (rk y))
          (branched_fresh q (Z.of_nat q) t).
Proof.
  intros Hwf Hq Hu Hhd.
  pose proof (lookup_lt_Some _ _ _ Hq) as Hql. fold (pool_size t) in Hql.
  pose proof (lookup_branched_fresh t q (Z.of_nat q)) as Hlk.
  assert (Hlen : length (all_quad_node (branched_fresh q (Z.of_nat q) t))
                 = (pool_size t + 4)%nat).
  { cbn [branched_fresh all_quad_node]. rewrite length_app, length_alter. reflexivity. }
  assert (Hold : forall z m, all_quad_node (branched_fresh q (Z.of_nat q) t) !! z = Some m ->
             in_use m = true -> is_branch m = true -> z <> q ->
             (z < pool_size t)%nat /\ all_quad_node t !! z = Some m).
  { intros z m Hz Hzu Hzb Hzq. rewrite Hlk in Hz.
    destruct (decide (z < pool_size t)%nat).
    - destruct (decide (q = z)); [congruence|]. auto.
    - destruct (decide _); inversion Hz; subst. discriminate. }
  constructor.
  - destruct (wf_root _ _ Hwf) as (r & Hr & Hru). rewrite Hlk.
    destruct (decide _); [|lia].
    destruct (decide (q = 0%nat)) as [->|]; [|eauto].
    rewrite Hr. cbn. eauto.
  - unfold pool_size at 1. rewrite Hlen. pose proof (wf_len _ _ Hwf) as Hm.
    replace (Z.of_nat (pool_size t + 4) - 1) with (Z.of_nat (pool_size t) - 1 + 1 * 4) by lia.
    now rewrite Z_mod_plus_full.
  - intros z m Hz. rewrite Hlk in Hz.
    destruct (decide (z < pool_size t)%nat).
    + destruct (decide (q = z)) as [<-|]; [|exact (wf_entity _ _ Hwf _ _ Hz)].
      rewrite Hq in Hz. inversion Hz; subst. cbn. lia.
    + destruct (decide _); inversion Hz; subst. cbn. lia.
  - intros z m Hz Hzu Hzb. destruct (decide (z = q)) as [->|Hzq].
    + rewrite Hlk in Hz. destruct (decide _); [|lia]. destruct (decide (q = q)); [|done].
      rewrite Hq in Hz. inversion Hz; subst. exists (pool_size t).
      split; [reflexivity|]. split; [lia|]. split; [exact (wf_len _ _ Hwf)|].
      split; [lia|]. intros i Hi. exists (new_QuadNode (Z.of_nat q)).
      rewrite Hlk. destruct (decide _); [lia|]. destruct (decide _); [|lia]. auto.
    + destruct (Hold _ _ Hz Hzu Hzb Hzq) as [Hzl Hz0].
      eapply children_ok_transfer; [exact (wf_branch _ _ Hwf _ _ Hz0 Hzu Hzb)| |].
      * rewrite Hlen. unfold pool_size. lia.
      * intros j cn Hj Hju Hjp. rewrite Hlk.
        pose proof (lookup_lt_Some _ _ _ Hj). unfold pool_size.
        destruct (decide _); [|lia].
        destruct (decide (q = j)) as [<-|]; [|eauto].
        rewrite Hq in Hj. inversion Hj; subst. rewrite Hq. cbn. eauto.
  - exists []. cbn [branched_fresh free_quad_node_index]. rewrite Hhd. constructor.
  - intros z m c i Hz Hzu Hzb Hc Hi. destruct (decide (z = q)) as [->|Hzq].
    + rewrite Hlk in Hz. destruct (decide _); [|lia]. destruct (decide (q = q)); [|done].
      rewrite Hq in Hz. inversion Hz; subst. cbn in Hc. unfold num_quad_node in Hc.
      fold (pool_size t) in Hc. assert (c = pool_size t) as -> by lia.
      destruct (decide _); [|lia]. destruct (decide _); [lia|]. lia.
    + destruct (Hold _ _ Hz Hzu Hzb Hzq) as [Hzl Hz0].
      destruct (child_of _ _ _ _ _ _ Hwf Hz0 Hzu Hzb Hc Hi) as (_ & _ & Hr & _).
      pose proof (wf_rank _ _ Hwf _ _ _ _ Hz0 Hzu Hzb Hc Hi).
      destruct (decide _); [lia|]. destruct (decide _); [lia|]. lia.
Qed.

Lemma wf_branched_reuse rk t q n f fn bs :
  wf_with rk t ->
  all_quad_node t !! q = Some n -> in_use n = true ->
  free_quad_node_index t = Z.of_nat f ->
  all_quad_node t !! f = Some fn ->
  free_chain (all_quad_node t) (Z.of_nat f) (f :: bs) ->
  (q < f \/ f + 3 < q)%nat /\
  wf_with (fun y => if decide (f <= y < f + 4)%nat then 0%nat else S (rk y))
          (branched_reuse q (Z.of_nat q) f (first_child fn) t).
Proof.
  intros Hwf Hq Hu Hhd Hf Hchain.
  destruct (free_chain_block _ _ _ f Hchain ltac:(left)) as (Hf1 & Hfm & Hfr & Hfun).
  assert (Hout : (q < f \/ f + 3 < q)%nat).
  { destruct (decide (f <= q < f + 4)%nat) as [Hin|]; [|lia]. exfalso.
    destruct (Hfun (q - f)%nat) as (m & Hm & Hmu); [lia|].
    replace (f + (q - f))%nat with q in Hm by lia. congruence. }
  split; [exact Hout|].
  set (t' := branched_reuse q (Z.of_nat q) f (first_child fn) t).
  pose proof (lookup_branched_reuse t q (Z.of_nat q) f (first_child fn)) as Hlk.
  fold t' in Hlk.
  assert (Hlen : length (all_quad_node t') = length (all_quad_node t)).
  { cbn [t' branched_reuse all_quad_node]. now rewrite length_alter4, length_alter. }
  assert (Hold : forall z m, all_quad_node t' !! z = Some m ->
             in_use m = true -> is_branch m = true -> z <> q ->
             ~ (f <= z < f + 4)%nat /\ all_quad_node t !! z = Some m).
  { intros z m Hz Hzu Hzb Hzq. rewrite Hlk in Hz by assumption.
    destruct (decide (f <= z < f + 4)%nat).
    - destruct (all_quad_node t !! z); inversion Hz; subst. discriminate.
    - destruct (decide (q = z)); [congruence|]. auto. }
  inversion Hchain as [|b bn bs0 _ _ _ _ Hb Htail Hnin Hbeq]; subst.
  clear Hbeq. rewrite Hf in Hb. inversion Hb; subst bn.
  constructor.
  - destruct (wf_root _ _ Hwf) as (r & Hr & Hru). rewrite Hlk by assumption.
    destruct (decide _); [lia|].
    destruct (decide (q = 0%nat)) as [->|]; [|eauto].
    rewrite Hr. cbn. eauto.
  - unfold pool_size. rewrite Hlen. exact (wf_len _ _ Hwf).
  - intros z m Hz. rewrite Hlk in Hz by assumption.
    destruct (decide (f <= z < f + 4)%nat).
    + destruct (all_quad_node t !! z); inversion Hz; subst. cbn. lia.
    + destruct (decide (q = z)) as [<-|]; [|exact (wf_entity _ _ Hwf _ _ Hz)].
      rewrite Hq in Hz. inversion Hz; subst. cbn. lia.
  - intros z m Hz Hzu Hzb. destruct (decide (z = q)) as [->|Hzq].
    + rewrite Hlk in Hz by assumption. destruct (decide _); [lia|].
      destruct (decide (q = q)); [|done].
      rewrite Hq in Hz. inversion Hz; subst. exists f.
      split; [reflexivity|]. split; [lia|]. split; [exact Hfm|].
      split; [rewrite Hlen; exact Hfr|]. intros i Hi.
      exists (new_QuadNode (Z.of_nat q)).
      rewrite Hlk by assumption. destruct (decide _); [|lia].
      destruct (Hfun i Hi) as (m & Hm & _). rewrite Hm. auto.
    + destruct (Hold _ _ Hz Hzu Hzb Hzq) as [Hzo Hz0].
      eapply children_ok_transfer; [exact (wf_branch _ _ Hwf _ _ Hz0 Hzu Hzb)| |].
      * now rewrite Hlen.
      * intros j cn Hj Hju Hjp. rewrite Hlk by assumption.
        destruct (decide (f <= j < f + 4)%nat) as [Hin|].
        { exfalso. destruct (Hfun (j - f)%nat) as (m' & Hm' & Hmu'); [lia|].
          replace (f + (j - f))%nat with j in Hm' by lia. congruence. }
        destruct (decide (q = j)) as [<-|]; [|eauto].
        rewrite Hq in Hj. inversion Hj; subst. rewrite Hq. cbn. eauto.
  - exists bs. cbn [t' branched_reuse free_quad_node_index].
    eapply free_chain_frame; [exact Htail|now rewrite Hlen|].
    intros b i Hbin Hi. rewrite Hlk by assumption.
    destruct (free_chain_block _ _ _ b Htail Hbin) as (_ & Hbm & _ & _).
    destruct (decide (f <= b + i < f + 4)%nat) as [Hin|].
    { exfalso. apply Hnin.
      assert (f = b) as ->; [|exact Hbin].
      symmetry. apply (aligned_blocks b f i (b + i - f)); auto; lia. }
    destruct (decide (q = (b + i)%nat)) as [E|]; [|done].
    exfalso. exact (in_use_not_free _ _ _ _ _ _ _ Htail Hq Hu Hbin Hi E).
  - intros z m c i Hz Hzu Hzb Hc Hi. destruct (decide (z = q)) as [->|Hzq].
    + rewrite Hlk in Hz by assumption. destruct (decide _); [lia|].
      destruct (decide (q = q)); [|done].
      rewrite Hq in Hz. inversion Hz; subst m. cbn in Hc.
      apply Nat2Z.inj in Hc. subst c.
      cbv beta. repeat (destruct (decide _); try lia).
    + destruct (Hold _ _ Hz Hzu Hzb Hzq) as [Hzo Hz0].
      destruct (child_of _ _ _ _ _ _ Hwf Hz0 Hzu Hzb Hc Hi) as (_ & _ & _ & cn & Hcn & Hcu & _).
      pose proof (wf_rank _ _ Hwf _ _ _ _ Hz0 Hzu Hzb Hc Hi).
      destruct (decide (f <= c + i < f + 4)%nat) as [Hin|].
      { exfalso. destruct (Hfun (c + i - f)%nat) as (m' & Hm' & Hmu'); [lia|].
        replace (f + (c + i - f))%nat with (c + i)%nat in Hm' by lia. congruence. }
      cbv beta. repeat (destruct (decide _); try lia).
Qed.

(** Splitting a node in use never fails on a well-formed pool, and the pool
    stays well formed. *)
Lemma wf_set_branch t q n :
  wf t -> all_quad_node t !! q = Some n -> in_use n = true ->
  exists t', set_branch q (Z.of_nat q) t = (Ok tt, t') /\ wf t'.
Proof.
  intros [rk Hwf] Hq Hu.
  destruct (wf_free _ _ Hwf) as (bs & Hbs).
  destruct (free_chain_head _ _ _ Hbs) as [[Hhd ->]|(f & fn & bs' & Hhd & -> & Hf & Htail & Hnin)].
  - exists (branched_fresh q (Z.of_nat q) t). split.
    + exact (set_branch_fresh _ _ _ _ Hq Hhd).
    + eexists. exact (wf_branched_fresh _ _ _ _ Hwf Hq Hu Hhd).
  - rewrite Hhd in Hbs.
    destruct (wf_branched_reuse _ _ _ _ _ _ _ Hwf Hq Hu Hhd Hf Hbs) as [Hout Hwf'].
    destruct (free_chain_block _ _ _ f Hbs ltac:(left)) as (_ & _ & Hfr & _).
    exists (branched_reuse q (Z.of_nat q) f (first_child fn) t). split.
    + exact (set_branch_reuse _ _ _ _ _ _ Hq Hhd Hfr Hout Hf).
    + eexists. exact Hwf'.
Qed.

(** ** Cleanup on a well-formed pool *)

Lemma sum_gen4 (body : Z -> M Z) t0 t1 t2 t3 t4 r0 r1 r2 r3 :
  body 0 t0 = (Ok r0, t1) -> body 1 t1 = (Ok r1, t2) ->
  body 2 t2 = (Ok r2, t3) -> body 3 t3 = (Ok r3, t4) ->
  sum_gen 0 range4 body t0 = (Ok (0 + r0 + r1 + r2 + r3), t4).
Proof.
  intros E0 E1 E2 E3. cbn [sum_gen range4].
  rewrite (bind_ok _ _ _ _ _ E0), (bind_ok _ _ _ _ _ E1),
    (bind_ok _ _ _ _ _ E2), (bind_ok _ _ _ _ _ E3).
  reflexivity.
Qed.

Lemma clean_unused_qnode_leaf fuel x t n r :
  all_quad_node t !! x = Some n ->
  (negb (in_use n) || (is_leaf n && (0 <? total_entity n)) = true /\ r = 0) \/
  (negb (in_use n) || (is_leaf n && (0 <? total_entity n)) = false /\
   is_branch n = false /\ r = 1) ->
  clean_unused_qnode (S fuel) x t = (Ok r, t).
Proof.
  intros Hx H. cbn [clean_unused_qnode].
  rewrite (bind_ok _ _ _ _ _ (read_ok _ _ _ Hx)).
  destruct H as [[-> ->]|(-> & -> & ->)]; reflexivity.
Qed.

Lemma clean_unused_qnode_branch fuel x t n s t4 :
  all_quad_node t !! x = Some n ->
  in_use n = true -> is_branch n = true ->
  sum_gen 0 range4
    (fun i => let* c := node_at (first_child n + i) in clean_unused_qnode fuel c) t
    = (Ok s, t4) ->
  clean_unused_qnode (S fuel) x t =
  (let* _ := (if s =? 4 then
                do set_free_quad_node (first_child n) then
                if Nat.eqb x 0 then write x (with_first_child 1) else ret tt
              else ret tt) in
   ret 1) t4.
Proof.
  intros Hx Hu Hb Hsum. cbn [clean_unused_qnode].
  rewrite (bind_ok _ _ _ _ _ (read_ok _ _ _ Hx)).
  assert (Hlf : is_leaf n = false).
  { unfold is_branch in Hb. apply Z.eqb_eq in Hb. unfold is_leaf.
    apply Z.leb_gt. lia. }
  rewrite Hu, Hlf, Hb. cbn [negb orb andb].
  unfold bind at 1. unfold bind at 1. rewrite Hsum. reflexivity.
Qed.

Lemma not_desc_above rk l y z :
  ranked rk l -> (rk y < rk z)%nat -> ~ desc l y z.
Proof. intros Hrk Hlt Hd. pose proof (desc_rank _ _ _ _ Hrk Hd). lia. Qed.

Lemma clean_unused_qnode_spec rk (k : nat) :
  forall (x : nat) (t : QuadTree),
    wf_with rk t -> (rk x <= k)%nat -> (x < pool_size t)%nat ->
    exists (r : Z) (t' : QuadTree),
      (forall fuel, (k < fuel)%nat -> clean_unused_qnode fuel x t = (Ok r, t')) /\
      cleaned_to rk x t r t'.
Proof.
  induction k as [k IH] using lt_wf_ind. intros x t Hwf Hk Hx.
  destruct (lookup_lt_is_Some_2 _ _ Hx) as [n Hn].
  assert (Hid : forall r, settled (all_quad_node t) x r -> cleaned_to rk x t r t).
  { intros r Hs. unfold cleaned_to. auto using shrinks_refl. }
  destruct (negb (in_use n) || (is_leaf n && (0 <? total_entity n))) eqn:Hstop.
  { (* a freed node or a leaf that holds entities *)
    exists 0, t. split.
    - intros [|fuel] Hf; [lia|]. eapply clean_unused_qnode_leaf; eauto.
    - apply Hid. apply orb_prop in Hstop as [Hu|Hl].
      + eapply settled_unused; eauto. now destruct (in_use n).
      + apply andb_prop in Hl as [Hl He]. apply Z.ltb_lt in He.
        destruct (in_use n) eqn:Hu.
        * eapply settled_full_leaf; eauto.
        * eapply settled_unused; eauto. }
  apply orb_false_elim in Hstop as [Hu Hl]. apply negb_false_iff in Hu.
  destruct (is_branch n) eqn:Hb.
  2:{ (* an empty leaf *)
    exists 1, t. split.
    - intros [|fuel] Hf; [lia|]. eapply clean_unused_qnode_leaf; eauto.
      right. rewrite Hu, Hl. auto.
    - apply Hid. eapply settled_empty_leaf; eauto.
      pose proof (wf_entity _ _ Hwf _ _ Hn). unfold is_branch in Hb.
      apply Z.eqb_neq in Hb. unfold is_leaf in Hl.
      destruct (0 <=? total_entity n) eqn:E; cbn in Hl.
      + apply Z.leb_le in E. apply Z.ltb_ge in Hl. lia.
      + apply Z.leb_gt in E. lia. }
  (* a branch *)
  destruct (wf_branch _ _ Hwf _ _ Hn Hu Hb) as (c & Hc & Hc1 & Hcm & Hcr & _).
  assert (Hrkc : forall i, (i < 4)%nat -> (rk (c + i)%nat < rk x)%nat).
  { intros i Hi. exact (wf_rank _ _ Hwf _ _ _ _ Hn Hu Hb Hc Hi). }
  destruct k as [|k']; [pose proof (Hrkc 0%nat); lia|].
  assert (Hchild : forall j tj, (j < 4)%nat ->
      wf_with rk tj -> all_quad_node tj !! x = Some n ->
      pool_size tj = pool_size t ->
      shrinks (all_quad_node t) (all_quad_node tj) ->
      exists r t',
        (forall fuel, (k' < fuel)%nat ->
           (let* c' := node_at (first_child n + Z.of_nat j) in
            clean_unused_qnode fuel c') tj = (Ok r, t')) /\
        wf_with rk t' /\ all_quad_node t' !! x = Some n /\
        pool_size t' = pool_size t /\
        shrinks (all_quad_node t) (all_quad_node t') /\
        (forall z, ~ desc (all_quad_node t) x z ->
           all_quad_node t' !! z = all_quad_node tj !! z) /\
        settled (all_quad_node t') (c + j)%nat r /\
        (forall i r', (i < 4)%nat -> i <> j ->
           settled (all_quad_node tj) (c + i)%nat r' ->
           settled (all_quad_node t') (c + i)%nat r')).
  { intros j tj Hj Hwfj Hxj Hsz Hshj.
    assert (Hcj : (c + j < pool_size tj)%nat) by (unfold pool_size in *; lia).
    destruct (IH k' ltac:(lia) (c + j)%nat tj Hwfj
                ltac:(pose proof (Hrkc j Hj); lia) Hcj)
      as (r & t' & Hrun & Hwf' & Hsz' & Hsh' & Hfr' & Hst').
    exists r, t'. split; [|split; [exact Hwf'|split; [|split; [|split; [|split; [|split]]]]]].
    - intros fuel Hf. rewrite Hc.
      replace (Z.of_nat c + Z.of_nat j) with (Z.of_nat (c + j)) by lia.
      rewrite (bind_ok _ _ _ _ _ (node_at_nat _ _ Hcj)). now apply Hrun.
    - rewrite Hfr'; [exact Hxj|].
      apply (not_desc_above rk); [exact (wf_rank _ _ Hwfj)|]. now apply Hrkc.
    - lia.
    - eapply shrinks_trans; eauto.
    - intros z Hz. apply Hfr'. intros Hd. apply Hz.
      apply (desc_shrinks _ _ _ _ Hshj) in Hd.
      eapply desc_trans; [|exact Hd].
      eapply desc_child; eauto. constructor.
    - exact Hst'.
    - intros i r' Hi Hij Hs. eapply settled_frame; [exact Hs| |].
      + unfold pool_size in Hsz'. exact Hsz'.
      + intros z Hd. apply Hfr'. intros Hd'.
        exact (siblings_disjoint _ _ _ _ _ _ _ _ Hwfj Hxj Hu Hb Hc Hi Hj Hij Hd Hd'). }
  destruct (Hchild 0%nat t ltac:(lia) Hwf Hn eq_refl (shrinks_refl _))
    as (r0 & t1 & E0 & Hwf1 & Hx1 & Hsz1 & Hsh1 & Hfr1 & Hs0 & Hk0).
  destruct (Hchild 1%nat t1 ltac:(lia) Hwf1 Hx1 Hsz1 Hsh1)
    as (r1 & t2 & E1 & Hwf2 & Hx2 & Hsz2 & Hsh2 & Hfr2 & Hs1 & Hk1).
  destruct (Hchild 2%nat t2 ltac:(lia) Hwf2 Hx2 Hsz2 Hsh2)
    as (r2 & t3 & E2 & Hwf3 & Hx3 & Hsz3 & Hsh3 & Hfr3 & Hs2 & Hk2).
  destruct (Hchild 3%nat t3 ltac:(lia) Hwf3 Hx3 Hsz3 Hsh3)
    as (r3 & t4 & E3 & Hwf4 & Hx4 & Hsz4 & Hsh4 & Hfr4 & Hs3 & Hk3).
  assert (Hfr : forall z, ~ desc (all_quad_node t) x z ->
                  all_quad_node t4 !! z = all_quad_node t !! z).
  { intros z Hz. now rewrite Hfr4, Hfr3, Hfr2, Hfr1. }
  assert (Hs0' : settled (all_quad_node t4) c r0).
  { rewrite <- (Nat.add_0_r c). apply Hk3; [lia..|]. apply Hk2; [lia..|].
    apply Hk1; [lia..|]. exact Hs0. }
  assert (Hs1' : settled (all_quad_node t4) (c + 1)%nat r1).
  { apply Hk3; [lia..|]. apply Hk2; [lia..|]. exact Hs1. }
  assert (Hs2' : settled (all_quad_node t4) (c + 2)%nat r2).
  { apply Hk3; [lia..|]. exact Hs2. }
  assert (Hsum : forall fuel, (k' < fuel)%nat ->
     sum_gen 0 range4
       (fun i => let* c' := node_at (first_child n + i) in clean_unused_qnode fuel c') t
     = (Ok (0 + r0 + r1 + r2 + r3), t4)).
  { intros fuel Hf.
    exact (sum_gen4 _ _ _ _ _ _ _ _ _ _ (E0 fuel Hf) (E1 fuel Hf) (E2 fuel Hf) (E3 fuel Hf)). }
  destruct (0 + r0 + r1 + r2 + r3 =? 4) eqn:H4.
  2:{ (* some child keeps the branch *)
    exists 1, t4. split.
    - intros [|fuel] Hf; [lia|].
      rewrite (clean_unused_qnode_branch _ _ _ _ _ _ Hn Hu Hb (Hsum fuel ltac:(lia))).
      rewrite H4. reflexivity.
    - split; [exact Hwf4|]. split; [exact Hsz4|]. split; [exact Hsh4|].
      split; [exact Hfr|].
      apply Z.eqb_neq in H4.
      eapply (settled_branch _ x n c r0 r1 r2 r3); eauto.
      unfold pool_size in *. lia. }
  (* the four children are empty leaves: the branch collapses *)
  destruct (wf_freed _ _ _ _ _ Hwf4 Hx4 Hu Hb Hc)
    as (Efree & Hwf5 & Hsh5 & Hfr5 & Hx5).
  assert (Hblock : forall z, ~ desc (all_quad_node t) x z ->
                     z <> x /\ ~ (c <= z < c + 4)%nat).
  { intros z Hz. split.
    - intros ->. apply Hz. constructor.
    - intros Hin. apply Hz. replace z with (c + (z - c))%nat by lia.
      eapply desc_child; eauto; [constructor|lia]. }
  destruct (Nat.eqb x 0) eqn:Hroot.
  - set (t6 := with_nodes (alter (with_first_child 1) x
                             (all_quad_node (freed x c t4))) (freed x c t4)).
    assert (Hwf6 : wf_with rk t6).
    { eapply wf_alter_kept; eauto. cbn. lia. }
    exists 1, t6. split.
    + intros [|fuel] Hf; [lia|].
      rewrite (clean_unused_qnode_branch _ _ _ _ _ _ Hn Hu Hb (Hsum fuel ltac:(lia))).
      rewrite H4, Hroot.
      rewrite (bind_ok _ _ _ tt t6); [reflexivity|].
      rewrite (bind_ok _ _ _ _ _ Efree).
      exact (write_alter _ _ _ _ Hx5).
    + split; [exact Hwf6|]. split.
      { unfold pool_size. cbn [t6 with_nodes freed all_quad_node].
        rewrite !length_alter, length_alter4. exact Hsz4. }
      assert (Hl6 : forall z, z <> x ->
                all_quad_node t6 !! z = all_quad_node (freed x c t4) !! z).
      { intros z Hz. cbn [t6 with_nodes all_quad_node].
        now rewrite list_lookup_alter_ne. }
      assert (Hx6 : all_quad_node t6 !! x = Some (with_first_child 1 (as_empty_leaf n))).
      { cbn [t6 with_nodes all_quad_node]. now rewrite list_lookup_alter_eq, Hx5. }
      split.
      { eapply shrinks_trans; [exact Hsh4|]. eapply shrinks_trans; [exact Hsh5|].
        intros z m Hz Hzu Hzb. destruct (decide (z = x)) as [->|Hzx].
        - rewrite Hx6 in Hz. inversion Hz; subst. discriminate.
        - now rewrite <- Hl6. }
      split.
      { intros z Hz. destruct (Hblock z Hz) as [Hzx Hzc].
        rewrite Hl6, Hfr5 by assumption. now apply Hfr. }
      eapply settled_empty_leaf; [exact Hx6|exact Hu|reflexivity].
  - exists 1, (freed x c t4). split.
    + intros [|fuel] Hf; [lia|].
      rewrite (clean_unused_qnode_branch _ _ _ _ _ _ Hn Hu Hb (Hsum fuel ltac:(lia))).
      rewrite H4, Hroot.
      rewrite (bind_ok _ _ _ tt (freed x c t4)); [reflexivity|].
      now rewrite (bind_ok _ _ _ _ _ Efree).
    + split; [exact Hwf5|]. split.
      { unfold pool_size. cbn [freed all_quad_node].
        rewrite !length_alter, length_alter4. exact Hsz4. }
      split; [eapply shrinks_trans; eauto|].
      split.
      { intros z Hz. destruct (Hblock z Hz) as [Hzx Hzc].
        rewrite Hfr5 by assumption. now apply Hfr. }
      eapply settled_empty_leaf; [exact Hx5|exact Hu|reflexivity].
Qed.

(** More fuel does not change the outcome of a run that ended. *)
Lemma sum_gen_mono {A : Type} (body body' : A -> M Z) (l : list A) :
  (forall a t r t', body a t = (Ok r, t') -> body' a t = (Ok r, t')) ->
  forall acc t s t', sum_gen acc l body t = (Ok s, t') ->
                     sum_gen acc l body' t = (Ok s, t').
Proof.
  intros Hb. induction l as [|a l IH]; intros acc t s t' H; cbn [sum_gen] in *.
  - exact H.
  - unfold bind in *. destruct (body a t) as [[r| |] t1] eqn:E; try discriminate.
    rewrite (Hb _ _ _ _ E). now apply IH.
Qed.

Lemma clean_unused_qnode_mono fuel :
  forall x t r t', clean_unused_qnode fuel x t = (Ok r, t') ->
  forall fuel', (fuel <= fuel')%nat -> clean_unused_qnode fuel' x t = (Ok r, t').
Proof.
  induction fuel as [|fuel IH]; intros x t r t' H fuel' Hle; [discriminate|].
  destruct fuel' as [|fuel']; [lia|].
  cbn [clean_unused_qnode] in *. unfold bind at 1. unfold bind at 1 in H.
  destruct (read x t) as [[n| |] t0] eqn:Er; try discriminate.
  destruct (negb (in_use n) || (is_leaf n && (0 <? total_entity n))); [exact H|].
  destruct (is_branch n); [|exact H].
  unfold bind at 1. unfold bind at 1 in H.
  unfold bind at 1. unfold bind at 1 in H.
  match type of H with
  | context [sum_gen 0 range4 ?b t0] =>
      destruct (sum_gen 0 range4 b t0) as [[s| |] t4] eqn:Es; try discriminate
  end.
  erewrite sum_gen_mono; [exact H| |exact Es].
  intros i t1 r1 t1' Hi. cbn beta in *. unfold bind in *.
  destruct (node_at (first_child n + i) t1) as [[c| |] t2]; try discriminate.
  eapply IH; [exact Hi|lia].
Qed.

Lemma settled_fixed rk (t : QuadTree) x r :
  settled (all_quad_node t) x r -> ranked rk (all_quad_node t) ->
  forall fuel, (rk x < fuel)%nat -> clean_unused_qnode fuel x t = (Ok r, t).
Proof.
  intros Hs Hrk. remember (all_quad_node t) as l eqn:El.
  induction Hs as
    [x n Hl Hu | x n Hl Hu Hlf Hte | x n Hl Hu Hte
    | x n c r0 r1 r2 r3 Hl Hu Hb Hc Hc3 H0 IH0 H1 IH1 H2 IH2 H3 IH3 Hsum];
    intros [|fuel] Hf; try lia; subst l.
  - eapply clean_unused_qnode_leaf; eauto. left. now rewrite Hu.
  - eapply clean_unused_qnode_leaf; eauto. left. rewrite Hu, Hlf.
    split; [|reflexivity]. cbn. now apply Z.ltb_lt.
  - eapply clean_unused_qnode_leaf; eauto. right. rewrite Hu.
    unfold is_leaf, is_branch. rewrite Hte. auto.
  - assert (Hch : forall i, (i < 4)%nat -> forall ri,
       (forall fuel, (rk (c + i)%nat < fuel)%nat ->
          clean_unused_qnode fuel (c + i)%nat t = (Ok ri, t)) ->
       (let* c' := node_at (first_child n + Z.of_nat i) in
        clean_unused_qnode fuel c') t = (Ok ri, t)).
    { intros i Hi ri Hrun. rewrite Hc.
      replace (Z.of_nat c + Z.of_nat i) with (Z.of_nat (c + i)) by lia.
      rewrite (bind_ok _ _ _ (c + i)%nat t).
      - apply Hrun. pose proof (Hrk _ _ _ i Hl Hu Hb Hc Hi). lia.
      - apply node_at_nat. unfold pool_size. lia. }
    rewrite (clean_unused_qnode_branch _ _ _ _ (0 + r0 + r1 + r2 + r3) t Hl Hu Hb).
    + replace (0 + r0 + r1 + r2 + r3 =? 4) with false; [reflexivity|].
      symmetry. apply Z.eqb_neq. lia.
    + apply (sum_gen4 _ t t t t t).
      * apply (Hch 0%nat); [lia|]. rewrite Nat.add_0_r. now apply IH0.
      * apply (Hch 1%nat); [lia|]. now apply IH1.
      * apply (Hch 2%nat); [lia|]. now apply IH2.
      * apply (Hch 3%nat); [lia|]. now apply IH3.
Qed.

Lemma clean_up_unfold fuel t r :
  all_quad_node t !! 0%nat = Some r ->
  clean_up fuel t = (do clean_unused_qnode fuel 0 then ret tt) t.
Proof.
  intros Hr. unfold clean_up. change 0 with (Z.of_nat 0).
  rewrite (bind_ok _ _ _ 0%nat t); [reflexivity|].
  apply node_at_nat. eapply lookup_lt_Some, Hr.
Qed.

(** On a well-formed pool [clean_up] ends without an exception, keeps the
    pool well formed, and leaves a pool on which it has nothing to do. *)
Lemma clean_up_spec rk t :
  wf_with rk t ->
  exists t',
    (forall fuel, (rk 0%nat < fuel)%nat -> clean_up fuel t = (Ok tt, t')) /\
    wf_with rk t' /\
    (forall fuel, (rk 0%nat < fuel)%nat -> clean_up fuel t' = (Ok tt, t')).
Proof.
  intros Hwf. destruct (wf_root _ _ Hwf) as (r0 & Hr0 & _).
  destruct (clean_unused_qnode_spec rk (rk 0%nat) 0%nat t Hwf (le_n _)
              ltac:(eapply lookup_lt_Some, Hr0))
    as (r & t' & Hrun & Hwf' & _ & _ & _ & Hst).
  destruct (wf_root _ _ Hwf') as (r0' & Hr0' & _).
  exists t'. split; [|split; [exact Hwf'|]].
  - intros fuel Hf. rewrite (clean_up_unfold _ _ _ Hr0).
    now rewrite (bind_ok _ _ _ _ _ (Hrun fuel Hf)).
  - intros fuel Hf. rewrite (clean_up_unfold _ _ _ Hr0').
    now rewrite (bind_ok _ _ _ _ _ (settled_fixed rk _ _ _ Hst (wf_rank _ _ Hwf') fuel Hf)).
Qed.

Lemma clean_up_wf fuel t t' :
  wf t -> clean_up fuel t = (Ok tt, t') -> wf t'.
Proof.
  intros [rk Hwf] Hrun. destruct (clean_up_spec _ _ Hwf) as (t'' & Hrun' & Hwf' & _).
  destruct (wf_root _ _ Hwf) as (r0 & Hr0 & _).
  rewrite (clean_up_unfold _ _ _ Hr0) in Hrun. unfold bind in Hrun.
  destruct (clean_unused_qnode fuel 0 t) as [[r| |] t1] eqn:E; try discriminate.
  inversion Hrun; subst t1.
  pose proof (clean_unused_qnode_mono _ _ _ _ _ E (fuel + S (rk 0%nat)) ltac:(lia)) as E'.
  specialize (Hrun' (fuel + S (rk 0%nat))%nat ltac:(lia)).
  rewrite (clean_up_unfold _ _ _ Hr0) in Hrun'. unfold bind in Hrun'.
  rewrite E' in Hrun'. inversion Hrun'; subst. now exists rk.
Qed.

Lemma step_wf t t' : wf t -> step t t' -> wf t'.
Proof.
  intros Hwf Hstep.
  destruct Hstep as [q n t' Hq Hu Hl Hrun | s n t' Hs Hu Hb Hrun
                    | fuel t' Hrun | q n k Hq Hu Hl Hk].
  - destruct (wf_set_branch _ _ _ Hwf Hq Hu) as (t'' & Hrun' & Hwf').
    rewrite Hrun in Hrun'. now inversion Hrun'; subst.
  - destruct Hwf as [rk Hwf].
    destruct (wf_branch _ _ Hwf _ _ Hs Hu Hb) as (c & Hc & _).
    destruct (wf_freed _ _ _ _ _ Hwf Hs Hu Hb Hc) as (Hrun' & Hwf' & _).
    rewrite Hrun in Hrun'. inversion Hrun'; subst. now exists rk.
  - exact (clean_up_wf _ _ _ Hwf Hrun).
  - destruct Hwf as [rk Hwf]. exists rk.
    rewrite (insert_alter _ _ _ (with_total_entity k) Hq).
    eapply wf_alter_kept; eauto.
Qed.

Lemma reachable_wf t : reachable t -> wf t.
Proof.
  induction 1 as [sw sh md aid | t t' Hr IH Hstep].
  - eexists. apply wf_new.
  - exact (step_wf _ _ IH Hstep).
Qed.

(** On a reachable tree the operations of [step] never fail: each has an
    outcome [Ok], given enough fuel for [clean_up]. *)
Lemma step_progress t :
  reachable t ->
  (forall q n, all_quad_node t !! q = Some n -> in_use n = true ->
     exists t', set_branch q (Z.of_nat q) t = (Ok tt, t')) /\
  (forall s n, all_quad_node t !! s = Some n -> in_use n = true ->
     is_branch n = true ->
     exists t', set_free_quad_node (first_child n) t = (Ok tt, t')) /\
  (exists fuel0 t', forall fuel, (fuel0 <= fuel)%nat -> clean_up fuel t = (Ok tt, t')).
Proof.
  intros Hr. pose proof (reachable_wf _ Hr) as Hwf. split; [|split].
  - intros q n Hq Hu. destruct (wf_set_branch _ _ _ Hwf Hq Hu) as (t' & H & _). eauto.
  - intros s n Hs Hu Hb. destruct Hwf as [rk Hwf].
    destruct (wf_branch _ _ Hwf _ _ Hs Hu Hb) as (c & Hc & _).
    destruct (wf_freed _ _ _ _ _ Hwf Hs Hu Hb Hc) as (Hrun' & _). eauto.
  - destruct Hwf as [rk Hwf]. destruct (clean_up_spec _ _ Hwf) as (t' & Hrun & _).
    exists (S (rk 0%nat)), t'. intros fuel Hf. apply Hrun. lia.
Qed.

(** ** The block of a branch *)

Lemma reachable_split_twice : reachable split_twice.
Proof.
  apply (reachable_step split_root).
  - apply (reachable_step tree_64); [apply reachable_new|].
    apply (step_set_branch _ 0 root_QuadNode); vm_compute; reflexivity.
  - apply (step_set_branch _ 1 (new_QuadNode 0)); vm_compute; reflexivity.
Qed.

(** C4. In every tree reached from a new one by operations applied within
    their contract, a branch in use has its four children in the consecutive
    slots [first_child] to [first_child + 3], all of them in use and with the
    slot of the branch as [parent_index]. *)
Theorem branch_children_invariant (t : QuadTree) (s : nat) (n : QuadNode) :
  reachable t ->
  all_quad_node t !! s = Some n -> in_use n = true -> is_branch n = true ->
  exists c : nat,
    first_child n = Z.of_nat c /\
    forall i : nat, (i < 4)%nat ->
      exists cn, all_quad_node t !! (c + i)%nat = Some cn /\
                 in_use cn = true /\ parent_index cn = Z.of_nat s.
Proof.
  intros Hr Hs Hu Hb. destruct (reachable_wf _ Hr) as [rk Hwf].
  destruct (wf_branch _ _ Hwf _ _ Hs Hu Hb) as (c & Hc & _ & _ & _ & Hch).
  exists c. auto.
Qed.

Lemma branch_children_invariant_witness :
  exists c : nat,
    first_child (as_branch 5 (new_QuadNode 0)) = Z.of_nat c /\
    forall i : nat, (i < 4)%nat ->
      exists cn, all_quad_node split_twice !! (c + i)%nat = Some cn /\
                 in_use cn = true /\ parent_index cn = Z.of_nat 1.
Proof.
  exact (branch_children_invariant split_twice 1 (as_branch 5 (new_QuadNode 0))
           reachable_split_twice eq_refl eq_refl eq_refl).
Defined.

(** ** Cleaning up twice *)

(** C9. On a well-formed tree (every tree reached from a new one is, see
    [reachable_wf]) [clean_up] ends, and running it a second time right after
    gives the tree the first run gave: node records, head of the free list and
    in-use counter are those of the first result. *)
Theorem clean_up_idempotent (t : QuadTree) :
  wf t ->
  exists (fuel0 : nat) (t1 : QuadTree),
    forall fuel, (fuel0 <= fuel)%nat ->
      clean_up fuel t = (Ok tt, t1) /\
      (do clean_up fuel then clean_up fuel) t = (Ok tt, t1).
Proof.
  intros [rk Hwf]. destruct (clean_up_spec _ _ Hwf) as (t1 & Hrun & _ & Hagain).
  exists (S (rk 0%nat)), t1. intros fuel Hf.
  pose proof (Hrun fuel ltac:(lia)) as H1. split; [exact H1|].
  rewrite (bind_ok _ _ _ _ _ H1). apply Hagain. lia.
Qed.

Lemma clean_up_idempotent_witness :
  exists (fuel0 : nat) (t1 : QuadTree),
    forall fuel, (fuel0 <= fuel)%nat ->
      clean_up fuel split_twice = (Ok tt, t1) /\
      (do clean_up fuel then clean_up fuel) split_twice = (Ok tt, t1).
Proof.
  exact (clean_up_idempotent split_twice (reachable_wf _ reachable_split_twice)).
Defined.

(** ** The collapse of a branch *)

(** C5, as the code has it.  When [clean_up] reaches a branch in use whose
    four children are empty leaves in use, the branch becomes an empty leaf
    and its [first_child] is reset to [-1], unless the branch is the root:
    the [first_child] of the root is set to [1]. *)
Theorem collapse_first_child (t : QuadTree) (x : nat) (n : QuadNode) (c : nat) :
  wf t ->
  all_quad_node t !! x = Some n -> in_use n = true -> is_branch n = true ->
  first_child n = Z.of_nat c ->
  (forall i : nat, (i < 4)%nat ->
     exists cn, all_quad_node t !! (c + i)%nat = Some cn /\ in_use cn = true /\
                total_entity cn = 0) ->
  exists t' : QuadTree,
    (forall fuel, (2 <= fuel)%nat -> clean_unused_qnode fuel x t = (Ok 1, t')) /\
    (x = 0%nat -> forall fuel, (2 <= fuel)%nat -> clean_up fuel t = (Ok tt, t')) /\
    first_child <$> all_quad_node t' !! x = Some (if decide (x = 0%nat) then 1 else -1) /\
    total_entity <$> all_quad_node t' !! x = Some 0.
Proof.
  intros [rk Hwf] Hx Hu Hb Hc Hch.
  destruct (wf_freed _ _ _ _ _ Hwf Hx Hu Hb Hc) as (Efree & _ & _ & _ & Hx5).
  assert (Hkid : forall fuel i, (i < 4)%nat ->
     (let* c' := node_at (first_child n + Z.of_nat i) in
      clean_unused_qnode (S fuel) c') t = (Ok 1, t)).
  { intros fuel i Hi. destruct (Hch i Hi) as (cn & Hcn & Hcu & Hce). rewrite Hc.
    replace (Z.of_nat c + Z.of_nat i) with (Z.of_nat (c + i)) by lia.
    rewrite (bind_ok _ _ _ (c + i)%nat t).
    - eapply clean_unused_qnode_leaf; [exact Hcn|]. right.
      unfold is_leaf, is_branch. rewrite Hcu, Hce. auto.
    - apply node_at_nat. eapply lookup_lt_Some, Hcn. }
  assert (Hsum : forall fuel,
     sum_gen 0 range4
       (fun i => let* c' := node_at (first_child n + i) in
                 clean_unused_qnode (S fuel) c') t = (Ok 4, t)).
  { intros fuel.
    exact (sum_gen4 _ t t t t t 1 1 1 1 (Hkid fuel 0%nat ltac:(lia))
             (Hkid fuel 1%nat ltac:(lia)) (Hkid fuel 2%nat ltac:(lia))
             (Hkid fuel 3%nat ltac:(lia))). }
  set (t' := if Nat.eqb x 0
             then with_nodes (alter (with_first_child 1) x
                                (all_quad_node (freed x c t))) (freed x c t)
             else freed x c t).
  assert (Hrun : forall fuel, (2 <= fuel)%nat ->
                   clean_unused_qnode fuel x t = (Ok 1, t')).
  { intros [|[|fuel]] Hf; try lia.
    rewrite (clean_unused_qnode_branch _ _ _ _ _ _ Hx Hu Hb (Hsum fuel)).
    cbn [Z.eqb Pos.eqb].
    rewrite (bind_ok _ _ _ tt t'); [reflexivity|].
    rewrite (bind_ok _ _ _ _ _ Efree). unfold t'.
    destruct (Nat.eqb x 0); [|reflexivity].
    exact (write_alter _ _ _ _ Hx5). }
  exists t'. split; [exact Hrun|]. split.
  { intros -> fuel Hf. rewrite (clean_up_unfold _ _ _ Hx).
    now rewrite (bind_ok _ _ _ _ _ (Hrun fuel Hf)). }
  unfold t'. destruct (decide (x = 0%nat)) as [->|Hne].
  - cbn [Nat.eqb with_nodes all_quad_node].
    rewrite list_lookup_alter_eq, Hx5. split; reflexivity.
  - apply Nat.eqb_neq in Hne. rewrite Hne, Hx5. split; reflexivity.
Qed.

Lemma collapse_first_child_witness :
  exists t' : QuadTree,
    (forall fuel, (2 <= fuel)%nat ->
       clean_unused_qnode fuel 1 split_twice = (Ok 1, t')) /\
    (1%nat = 0%nat -> forall fuel, (2 <= fuel)%nat ->
       clean_up fuel split_twice = (Ok tt, t')) /\
    first_child <$> all_quad_node t' !! 1%nat = Some (-1) /\
    total_entity <$> all_quad_node t' !! 1%nat = Some 0.
Proof.
  refine (collapse_first_child split_twice 1 (as_branch 5 (new_QuadNode 0)) 5
            (reachable_wf _ reachable_split_twice) eq_refl eq_refl eq_refl eq_refl _).
  intros i Hi. exists (new_QuadNode 1).
  destruct i as [|[|[|[|i]]]]; [repeat split..|lia].
Defined.

(** ** Containment search on a well-formed pool *)

Lemma py_min_from_spec {A : Type} (key : A -> Z) (l : list A) :
  forall (pre : list A) (best : A) (mid : list A),
    (forall c, In c pre -> key best < key c) ->
    (forall c, In c mid -> key best <= key c) ->
    exists before after,
      pre ++ best :: mid ++ l = before ++ py_min_from key best l :: after /\
      (forall c, In c before -> key (py_min_from key best l) < key c) /\
      (forall c, In c after -> key (py_min_from key best l) <= key c).
Proof.
  induction l as [|a l IH]; intros pre best mid Hpre Hmid; cbn [py_min_from].
  - exists pre, mid. rewrite app_nil_r. auto.
  - destruct (key a <? key best) eqn:E.
    + apply Z.ltb_lt in E.
      destruct (IH (pre ++ best :: mid) a []) as (before & after & Heq & Hb & Ha).
      * intros c Hc. apply in_app_or in Hc as [Hc|[<-|Hc]]; auto.
        -- specialize (Hpre c Hc). lia.
        -- specialize (Hmid c Hc). lia.
      * intros c [].
      * exists before, after. split; [|auto].
        rewrite <- Heq. cbn [app]. rewrite <- !app_assoc. reflexivity.
    + apply Z.ltb_ge in E.
      destruct (IH pre best (mid ++ [a])) as (before & after & Heq & Hb & Ha).
      * exact Hpre.
      * intros c Hc. apply in_app_or in Hc as [Hc|[<-|[]]]; auto.
      * exists before, after. split; [|auto].
        rewrite <- Heq. rewrite <- !app_assoc. reflexivity.
Qed.

Lemma py_min_spec {A : Type} (key : A -> Z) (a : A) (l : list A) :
  exists r before after,
    py_min key (a :: l) = Ok r /\ a :: l = before ++ r :: after /\
    (forall c, In c before -> key r < key c) /\
    (forall c, In c after -> key r <= key c).
Proof.
  destruct (py_min_from_spec key l [] a []) as (before & after & Heq & Hb & Ha);
    [intros c []..|].
  exists (py_min_from key a l), before, after. auto.
Qed.

Lemma enumerate_from_spec {A : Type} (l : list A) :
  forall (i j : Z) (a : A),
    In (j, a) (enumerate_from i l) -> i <= j < i + Z.of_nat (length l).
Proof.
  induction l as [|b l IH]; intros i j a Hin; cbn in Hin; [contradiction|].
  destruct Hin as [Heq|Hin].
  - inversion Heq; subst. cbn [length]. lia.
  - apply IH in Hin. cbn [length]. lia.
Qed.

Lemma push_quadrants_spec {G : Geometry} keep fc qbbox rest :
  push_quadrants keep fc qbbox rest =
  rev (map (fun iq => (fc + fst iq, snd iq))
         (List.filter (fun iq => keep (snd iq)) (enumerate (split_box qbbox))))
    ++ rest.
Proof.
  unfold push_quadrants. generalize (enumerate (split_box qbbox)) as l.
  intros l. revert rest. induction l as [|iq l IH]; intros rest; [reflexivity|].
  cbn [fold_left List.filter]. rewrite IH. destruct (keep (snd iq)); [|reflexivity].
  cbn [map rev]. now rewrite <- app_assoc.
Qed.

Lemma lookup_node_nat t (x : nat) n :
  all_quad_node t !! x = Some n -> lookup_node t (Z.of_nat x) = Ok n.
Proof.
  intros Hx. unfold lookup_node.
  rewrite py_slot_nat by (eapply lookup_lt_Some, Hx). now rewrite Hx.
Qed.

Section Search.
Context {G : Geometry}.
Hypothesis split_box_4 : forall box, length (split_box box) = 4%nat.

Lemma pushed_quadrants keep (c : nat) qbbox e :
  In e (rev (map (fun iq => (Z.of_nat c + fst iq, snd iq))
          (List.filter (fun iq => keep (snd iq)) (enumerate (split_box qbbox))))) ->
  exists i : nat, (i < 4)%nat /\ fst e = Z.of_nat (c + i) /\ keep (snd e) = true.
Proof.
  intros Hin. apply in_rev in Hin. apply in_map_iff in Hin as ([j q] & <- & Hin).
  apply filter_In in Hin as [Hin Hk]. apply enumerate_from_spec in Hin.
  rewrite split_box_4 in Hin. cbn [fst snd] in *.
  exists (Z.to_nat j). repeat split; [lia|lia|exact Hk].
Qed.

Lemma find_candidates_subtree rk t (b : BBox) :
  wf_with rk t ->
  forall (k x : nat) (qbbox : BBox) (n : QuadNode),
    (rk x <= k)%nat -> all_quad_node t !! x = Some n ->
    exists (m : nat) (cs : list (Z * QuadNode * BBox)),
      (forall fuel rest cands,
         find_candidates (m + fuel) t b ((Z.of_nat x, qbbox) :: rest) cands
         = find_candidates fuel t b rest (cands ++ cs)) /\
      (if in_use n
       then exists cs', cs = (Z.of_nat x, n, qbbox) :: cs' /\
                        Forall (fun c => is_inscribed b (snd c) = true) cs'
       else cs = []).
Proof.
  intros Hwf k. induction k as [k IH] using lt_wf_ind. intros x qbbox n Hk Hx.
  pose proof (lookup_node_nat _ _ _ Hx) as Hlk.
  destruct (in_use n) eqn:Hu.
  2:{ exists 1%nat, []. split; [|reflexivity]. intros fuel rest cands.
      cbn [Nat.add find_candidates]. rewrite Hlk. cbn [rbind]. rewrite Hu.
      cbn [negb]. now rewrite app_nil_r. }
  destruct (is_leaf n) eqn:Hl.
  { exists 1%nat, [(Z.of_nat x, n, qbbox)]. split; [|eauto].
    intros fuel rest cands.
    cbn [Nat.add find_candidates]. rewrite Hlk. cbn [rbind]. rewrite Hu, Hl.
    reflexivity. }
  assert (Hb : is_branch n = true).
  { pose proof (wf_entity _ _ Hwf _ _ Hx). unfold is_leaf in Hl. unfold is_branch.
    apply Z.leb_gt in Hl. apply Z.eqb_eq. lia. }
  destruct (wf_branch _ _ Hwf _ _ Hx Hu Hb) as (c & Hc & _ & _ & _ & Hch).
  destruct k as [|k']; [pose proof (wf_rank _ _ Hwf _ _ _ 0%nat Hx Hu Hb Hc); lia|].
  set (keep := fun quadrant => is_intersecting b quadrant && is_inscribed b quadrant).
  assert (Hinner : forall es : list (Z * BBox),
     (forall e, In e es ->
        exists i : nat, (i < 4)%nat /\ fst e = Z.of_nat (c + i) /\ keep (snd e) = true) ->
     exists m cs,
       (forall fuel rest cands,
          find_candidates (m + fuel) t b (es ++ rest) cands
          = find_candidates fuel t b rest (cands ++ cs)) /\
       Forall (fun c => is_inscribed b (snd c) = true) cs).
  { induction es as [|[qi qb] es IHes]; intros Hes.
    - exists 0%nat, []. split; [|constructor]. intros fuel rest cands.
      cbn [Nat.add app]. now rewrite app_nil_r.
    - destruct (Hes (qi, qb) ltac:(now left)) as (i & Hi & Hqi & Hkeep).
      cbn [fst snd] in Hqi, Hkeep. subst qi.
      destruct (Hch i Hi) as (cn & Hcn & _).
      destruct (IH k' ltac:(lia) (c + i)%nat qb cn
                  ltac:(pose proof (wf_rank _ _ Hwf _ _ _ i Hx Hu Hb Hc Hi); lia) Hcn)
        as (m1 & cs1 & Hrun1 & Hcs1).
      destruct IHes as (m2 & cs2 & Hrun2 & Hcs2).
      { intros e He. apply Hes. now right. }
      exists (m1 + m2)%nat, (cs1 ++ cs2). split.
      + intros fuel rest cands. cbn [app].
        rewrite <- Nat.add_assoc, Hrun1, Hrun2. now rewrite app_assoc.
      + apply Forall_app. split; [|exact Hcs2].
        destruct (in_use cn); [|subst cs1; constructor].
        destruct Hcs1 as (cs' & -> & Hcs'). constructor; [|exact Hcs'].
        cbn [snd]. unfold keep in Hkeep. now apply andb_prop in Hkeep as [_ ?]. }
  destruct (Hinner _ (pushed_quadrants keep c qbbox)) as (m & cs & Hrun & Hcs).
  exists (S m), ((Z.of_nat x, n, qbbox) :: cs). split; [|eauto].
  intros fuel rest cands.
  cbn [Nat.add find_candidates]. rewrite Hlk. cbn [rbind]. rewrite Hu, Hl.
  cbn [negb]. fold keep. rewrite push_quadrants_spec, Hc, Hrun.
  now rewrite <- app_assoc.
Qed.
End Search.

Lemma find_candidates_done {G : Geometry} fuel t b cands :
  find_candidates fuel t b [] cands = Ok cands.
Proof. now destruct fuel. Qed.

(** C1, as the code has it.  On a well-formed tree, with a geometry that
    splits a box in four, [find_quad_node] ends and returns one of the
    candidates of its traversal; every candidate met before it has a strictly
    larger area, every candidate met after it an area at least as large.  Its
    region contains the query box as soon as the box of the tree does: a
    candidate other than the root is only visited when the query box is
    inscribed in its region, the root is a candidate in any case. *)
Theorem find_quad_node_minimal {G : Geometry} (t : QuadTree) (b : BBox) :
  (forall box, length (split_box box) = 4%nat) ->
  wf t ->
  exists (fuel0 : nat) (before : list (Z * QuadNode * BBox))
         (r : Z * QuadNode * BBox) (after : list (Z * QuadNode * BBox)),
    (forall fuel, (fuel0 <= fuel)%nat ->
       find_candidates fuel t b [(0, bbox t)] [] = Ok (before ++ r :: after) /\
       find_quad_node fuel t b = Ok r) /\
    (forall c, In c before -> candidate_area r < candidate_area c) /\
    (forall c, In c after -> candidate_area r <= candidate_area c) /\
    (exists root, all_quad_node t !! 0%nat = Some root /\
       (r = (0, root, bbox t) \/ is_inscribed b (snd r) = true)) /\
    (is_inscribed b (bbox t) = true -> is_inscribed b (snd r) = true).
Proof.
  intros H4 [rk Hwf]. destruct (wf_root _ _ Hwf) as (root & Hroot & Hru).
  destruct (find_candidates_subtree H4 rk t b Hwf (rk 0%nat) 0%nat (bbox t) root
              (le_n _) Hroot) as (m & cs & Hrun & Hcs).
  rewrite Hru in Hcs. destruct Hcs as (cs' & -> & Hcs').
  destruct (py_min_spec candidate_area (Z.of_nat 0, root, bbox t) cs')
    as (r & before & after & Hmin & Heq & Hb & Ha).
  assert (Hin : r = (0, root, bbox t) \/ is_inscribed b (snd r) = true).
  { assert (Hr : In r ((Z.of_nat 0, root, bbox t) :: cs')).
    { rewrite Heq. apply in_or_app. right. now left. }
    destruct Hr as [<-|Hr]; [now left|]. right.
    rewrite Forall_forall in Hcs'. apply Hcs'. now apply list_elem_of_In. }
  exists m, before, r, after. split; [|split; [exact Hb|split; [exact Ha|split]]].
  - intros fuel Hf. replace fuel with (m + (fuel - m))%nat by lia.
    assert (E : find_candidates (m + (fuel - m)) t b [(0, bbox t)] []
                = Ok (before ++ r :: after)).
    { pose proof (Hrun (fuel - m)%nat [] []) as E. change (Z.of_nat 0) with 0 in E.
      rewrite E, find_candidates_done. cbn [app]. exact (f_equal Ok Heq). }
    split; [exact E|]. unfold find_quad_node. rewrite E. cbn [rbind].
    rewrite <- Heq. exact Hmin.
  - eauto.
  - intros Hroot_in. destruct Hin as [->|Hin]; [exact Hroot_in|exact Hin].
Qed.

Lemma halve_4 box : length (split_box (Geometry := plane_geometry) box) = 4%nat.
Proof. reflexivity. Qed.

Lemma find_quad_node_minimal_witness :
  exists (fuel0 : nat) (before : list (Z * QuadNode * BBox))
         (r : Z * QuadNode * BBox) (after : list (Z * QuadNode * BBox)),
    (forall fuel, (fuel0 <= fuel)%nat ->
       find_candidates (G := plane_geometry) fuel split_twice (mkBBox 17 1 1 1)
         [(0, bbox split_twice)] [] = Ok (before ++ r :: after) /\
       find_quad_node (G := plane_geometry) fuel split_twice (mkBBox 17 1 1 1) = Ok r) /\
    (forall c, In c before -> candidate_area r < candidate_area c) /\
    (forall c, In c after -> candidate_area r <= candidate_area c) /\
    (exists root, all_quad_node split_twice !! 0%nat = Some root /\
       (r = (0, root, bbox split_twice) \/
        is_inscribed (Geometry := plane_geometry) (mkBBox 17 1 1 1) (snd r) = true)) /\
    (is_inscribed (Geometry := plane_geometry) (mkBBox 17 1 1 1) (bbox split_twice) = true ->
     is_inscribed (Geometry := plane_geometry) (mkBBox 17 1 1 1) (snd r) = true).
Proof.
  exact (find_quad_node_minimal (G := plane_geometry) split_twice (mkBBox 17 1 1 1)
           halve_4 (reachable_wf _ reachable_split_twice)).
Defined.

(** ** Searches that find nothing below the root *)

Lemma push_quadrants_none {G : Geometry} keep fc qbbox rest :
  (forall q, In q (split_box qbbox) -> keep q = false) ->
  push_quadrants keep fc qbbox rest = rest.
Proof.
  intros Hnone. rewrite push_quadrants_spec.
  replace (List.filter (fun iq => keep (snd iq)) (enumerate (split_box qbbox)))
    with (@nil (Z * BBox)); [reflexivity|].
  symmetry. unfold enumerate. generalize 0 as i.
  induction (split_box qbbox) as [|q l IH]; intros i; [reflexivity|].
  cbn [enumerate_from List.filter snd]. rewrite Hnone by now left.
  apply IH. intros q' Hq'. apply Hnone. now right.
Qed.

Lemma collect_leaves_done {G : Geometry} fuel t leaves :
  collect_leaves fuel t [] leaves = Ok leaves.
Proof. now destruct fuel. Qed.

(** C8, as the code has it.  When the root is in use and either is a leaf (as
    in a new tree, whose only node it is) or has no quadrant in which the
    reference box is inscribed (as for a box outside the region of the root),
    [find_quad_node] returns the root with the box of the whole tree; when the
    root is a leaf [find_leaves] returns it as the only leaf.  Neither raises
    an exception. *)
Theorem searches_fall_back_on_root {G : Geometry} (t : QuadTree) (b : BBox)
    (root : QuadNode) (fuel : nat) :
  all_quad_node t !! 0%nat = Some root -> in_use root = true ->
  (is_leaf root = true \/
   forall q, In q (split_box (bbox t)) -> is_inscribed b q = false) ->
  find_quad_node (S fuel) t b = Ok (0, root, bbox t) /\
  (is_leaf root = true ->
   find_leaves (S fuel) t None (Some b) = Ok [(0, root, bbox t)]).
Proof.
  intros Hroot Hu Hcase.
  pose proof (lookup_node_nat _ _ _ Hroot) as Hlk. change (Z.of_nat 0) with 0 in Hlk.
  assert (Hfind : find_quad_node (S fuel) t b = Ok (0, root, bbox t)).
  { unfold find_quad_node. cbn [find_candidates]. rewrite Hlk. cbn [rbind].
    rewrite Hu. cbn [negb app].
    destruct (is_leaf root) eqn:Hl.
    - now rewrite find_candidates_done.
    - destruct Hcase as [Hc|Hc]; [discriminate|].
      rewrite push_quadrants_none, find_candidates_done; [reflexivity|].
      intros q Hq. rewrite (Hc q Hq). apply andb_false_r. }
  split; [exact Hfind|].
  intros Hl. unfold find_leaves. rewrite Hfind. cbn [rbind fst snd collect_leaves].
  rewrite Hlk. cbn [rbind]. rewrite Hu, Hl. cbn [negb app].
  apply collect_leaves_done.
Qed.

Lemma searches_fall_back_on_root_witness :
  find_quad_node (G := plane_geometry) 1 tree_64 (mkBBox 200 200 1 1)
    = Ok (0, root_QuadNode, bbox tree_64) /\
  (is_leaf root_QuadNode = true ->
   find_leaves (G := plane_geometry) 1 tree_64 None (Some (mkBBox 200 200 1 1))
     = Ok [(0, root_QuadNode, bbox tree_64)]).
Proof.
  apply (searches_fall_back_on_root (G := plane_geometry) tree_64
           (mkBBox 200 200 1 1) root_QuadNode 0); [reflexivity|reflexivity|].
  left. reflexivity.
Defined.

(** * Further properties *)

(** ** Invariants that every run of the cleanup keeps *)

Lemma clean_unused_qnode_run rk fuel x t r t' :
  wf_with rk t -> (x < pool_size t)%nat ->
  clean_unused_qnode fuel x t = (Ok r, t') -> cleaned_to rk x t r t'.
Proof.
  intros Hwf Hx Hrun.
  destruct (clean_unused_qnode_spec rk (rk x) x t Hwf (le_n _) Hx)
    as (r0 & t0 & Hrun0 & Hc).
  pose proof (clean_unused_qnode_mono _ _ _ _ _ Hrun (fuel + S (rk x))%nat ltac:(lia)) as E.
  rewrite (Hrun0 (fuel + S (rk x))%nat ltac:(lia)) in E. now inversion E; subst.
Qed.

Lemma sum_gen4_inv (body : Z -> M Z) t0 t4 s :
  sum_gen 0 range4 body t0 = (Ok s, t4) ->
  exists r0 t1 r1 t2 r2 t3 r3,
    body 0 t0 = (Ok r0, t1) /\ body 1 t1 = (Ok r1, t2) /\
    body 2 t2 = (Ok r2, t3) /\ body 3 t3 = (Ok r3, t4) /\
    s = 0 + r0 + r1 + r2 + r3.
Proof.
  cbn [sum_gen range4]. unfold bind, ret. intros H.
  destruct (body 0 t0) as [[r0| |] t1] eqn:E0; try discriminate.
  destruct (body 1 t1) as [[r1| |] t2] eqn:E1; try discriminate.
  destruct (body 2 t2) as [[r2| |] t3] eqn:E2; try discriminate.
  destruct (body 3 t3) as [[r3| |] t4'] eqn:E3; try discriminate.
  inversion H; subst. exists r0, t1, r1, t2, r2, t3, r3. auto.
Qed.

Lemma settled_01 l x r : settled l x r -> r = 0 \/ r = 1.
Proof. destruct 1; auto. Qed.

(** A property of trees is kept by [clean_unused_qnode] as soon as it is kept
    when the block of a branch is freed whose four children have nothing left
    to clean and answer 1, and when the root, an empty leaf by then, gets its
    [first_child] set to 1. *)
Lemma clean_unused_qnode_keeps (J : QuadTree -> Prop) rk :
  (forall t s n c, wf_with rk t -> J t ->
     all_quad_node t !! s = Some n -> in_use n = true -> is_branch n = true ->
     first_child n = Z.of_nat c ->
     (forall i, (i < 4)%nat -> settled (all_quad_node t) (c + i)%nat 1) ->
     J (freed s c t)) ->
  (forall t n, wf_with rk t -> J t ->
     all_quad_node t !! 0%nat = Some n -> in_use n = true -> total_entity n = 0 ->
     J (with_nodes (alter (with_first_child 1) 0%nat (all_quad_node t)) t)) ->
  forall fuel x t r t',
    wf_with rk t -> J t -> (x < pool_size t)%nat ->
    clean_unused_qnode fuel x t = (Ok r, t') -> J t'.
Proof.
  intros Hfreed Hquirk fuel.
  induction fuel as [|fuel IH]; intros x t r t' Hwf HJ Hx Hrun; [discriminate|].
  destruct (lookup_lt_is_Some_2 _ _ Hx) as [n Hn].
  cbn [clean_unused_qnode] in Hrun.
  rewrite (bind_ok _ _ _ _ _ (read_ok _ _ _ Hn)) in Hrun.
  destruct (negb (in_use n) || (is_leaf n && (0 <? total_entity n))) eqn:Hstop.
  { inversion Hrun; subst. exact HJ. }
  destruct (is_branch n) eqn:Hb.
  2:{ inversion Hrun; subst. exact HJ. }
  apply orb_false_elim in Hstop as [Hu _]. apply negb_false_iff in Hu.
  destruct (wf_branch _ _ Hwf _ _ Hn Hu Hb) as (c & Hc & _ & _ & Hcr & _).
  unfold bind at 1 in Hrun. unfold bind at 1 in Hrun.
  match type of Hrun with
  | context [sum_gen 0 range4 ?b t] =>
      destruct (sum_gen 0 range4 b t) as [[s| |] t4] eqn:Es; try discriminate
  end.
  apply sum_gen4_inv in Es
    as (r0 & t1 & r1 & t2 & r2 & t3 & r3 & E0 & E1 & E2 & E3 & ->).
  assert (Hchild : forall (j : nat) tj rj tj', (j < 4)%nat ->
      wf_with rk tj -> J tj -> all_quad_node tj !! x = Some n ->
      pool_size tj = pool_size t ->
      (let* c' := node_at (first_child n + Z.of_nat j) in
       clean_unused_qnode fuel c') tj = (Ok rj, tj') ->
      wf_with rk tj' /\ J tj' /\ all_quad_node tj' !! x = Some n /\
      pool_size tj' = pool_size t /\
      settled (all_quad_node tj') (c + j)%nat rj /\
      (forall i r', (i < 4)%nat -> i <> j ->
         settled (all_quad_node tj) (c + i)%nat r' ->
         settled (all_quad_node tj') (c + i)%nat r')).
  { intros j tj rj tj' Hj Hwfj HJj Hxj Hsz Ej.
    assert (Hcj : (c + j < pool_size tj)%nat) by (unfold pool_size in *; lia).
    rewrite Hc in Ej.
    replace (Z.of_nat c + Z.of_nat j) with (Z.of_nat (c + j)) in Ej by lia.
    rewrite (bind_ok _ _ _ _ _ (node_at_nat _ _ Hcj)) in Ej.
    destruct (clean_unused_qnode_run _ _ _ _ _ _ Hwfj Hcj Ej)
      as (Hwf' & Hsz' & _ & Hfr' & Hst').
    split; [exact Hwf'|]. split; [exact (IH _ _ _ _ Hwfj HJj Hcj Ej)|].
    split; [|split; [lia|split; [exact Hst'|]]].
    - rewrite Hfr'; [exact Hxj|].
      apply (not_desc_above rk); [exact (wf_rank _ _ Hwfj)|].
      exact (wf_rank _ _ Hwfj _ _ _ _ Hxj Hu Hb Hc Hj).
    - intros i r' Hi Hij Hs. eapply settled_frame; [exact Hs|exact Hsz'|].
      intros z Hd. apply Hfr'. intros Hd'.
      exact (siblings_disjoint _ _ _ _ _ _ _ _ Hwfj Hxj Hu Hb Hc Hi Hj Hij Hd Hd'). }
  destruct (Hchild 0%nat _ _ _ ltac:(lia) Hwf HJ Hn eq_refl E0)
    as (Hwf1 & HJ1 & Hx1 & Hs1 & Hst0 & Hk0).
  destruct (Hchild 1%nat _ _ _ ltac:(lia) Hwf1 HJ1 Hx1 Hs1 E1)
    as (Hwf2 & HJ2 & Hx2 & Hs2 & Hst1 & Hk1).
  destruct (Hchild 2%nat _ _ _ ltac:(lia) Hwf2 HJ2 Hx2 Hs2 E2)
    as (Hwf3 & HJ3 & Hx3 & Hs3 & Hst2 & Hk2).
  destruct (Hchild 3%nat _ _ _ ltac:(lia) Hwf3 HJ3 Hx3 Hs3 E3)
    as (Hwf4 & HJ4 & Hx4 & Hs4 & Hst3 & Hk3).
  destruct (0 + r0 + r1 + r2 + r3 =? 4) eqn:H4.
  2:{ inversion Hrun; subst. exact HJ4. }
  apply Z.eqb_eq in H4.
  assert (Hst0' : settled (all_quad_node t4) (c + 0)%nat r0).
  { apply Hk3; [lia..|]. apply Hk2; [lia..|]. apply Hk1; [lia..|]. exact Hst0. }
  assert (Hst1' : settled (all_quad_node t4) (c + 1)%nat r1).
  { apply Hk3; [lia..|]. apply Hk2; [lia..|]. exact Hst1. }
  assert (Hst2' : settled (all_quad_node t4) (c + 2)%nat r2).
  { apply Hk3; [lia..|]. exact Hst2. }
  assert (Hones : forall i, (i < 4)%nat -> settled (all_quad_node t4) (c + i)%nat 1).
  { pose proof (settled_01 _ _ _ Hst0'). pose proof (settled_01 _ _ _ Hst1').
    pose proof (settled_01 _ _ _ Hst2'). pose proof (settled_01 _ _ _ Hst3).
    assert (r0 = 1 /\ r1 = 1 /\ r2 = 1 /\ r3 = 1) as (-> & -> & -> & ->) by lia.
    intros [|[|[|[|i]]]] Hi; auto. lia. }
  destruct (wf_freed _ _ _ _ _ Hwf4 Hx4 Hu Hb Hc) as (Efree & Hwf5 & _ & _ & Hx5).
  pose proof (Hfreed _ _ _ _ Hwf4 HJ4 Hx4 Hu Hb Hc Hones) as HJ5.
  unfold bind at 1 in Hrun. rewrite Efree in Hrun.
  destruct (Nat.eqb x 0) eqn:Hroot.
  - apply Nat.eqb_eq in Hroot. subst x.
    rewrite (write_alter _ _ _ _ Hx5) in Hrun. inversion Hrun; subst.
    eapply Hquirk; eauto.
  - inversion Hrun; subst. exact HJ5.
Qed.

(** ** The in-use counter *)

Lemma free_chain_alter_in_use l hd bs s n f :
  free_chain l hd bs -> l !! s = Some n -> in_use n = true ->
  free_chain (alter f s l) hd bs.
Proof.
  intros Hc Hs Hu. eapply free_chain_frame; [exact Hc|now rewrite length_alter|].
  intros b i Hb Hi. apply list_lookup_alter_ne.
  exact (in_use_not_free _ _ _ _ _ _ _ Hc Hs Hu Hb Hi).
Qed.

Lemma free_chain_freed rk t s n c bs :
  wf_with rk t ->
  all_quad_node t !! s = Some n -> in_use n = true -> is_branch n = true ->
  first_child n = Z.of_nat c ->
  free_chain (all_quad_node t) (free_quad_node_index t) bs ->
  free_chain (all_quad_node (freed s c t)) (Z.of_nat c) (c :: bs).
Proof.
  intros Hwf Hs Hu Hb Hc Hbs.
  assert (Hch : forall i, (i < 4)%nat ->
     exists cn, all_quad_node t !! (c + i)%nat = Some cn /\ in_use cn = true).
  { intros i Hi.
    destruct (child_of _ _ _ _ _ _ Hwf Hs Hu Hb Hc Hi) as (_ & _ & _ & cn & ? & ? & _).
    eauto. }
  destruct (child_of _ _ _ _ _ 0 Hwf Hs Hu Hb Hc ltac:(lia)) as (H1 & Hm & Hr & _).
  assert (Hout : (s < c \/ c + 3 < s)%nat).
  { destruct (decide (c <= s < c + 4)%nat) as [Hin|]; [|lia]. exfalso.
    pose proof (wf_rank _ _ Hwf _ _ _ (s - c)%nat Hs Hu Hb Hc ltac:(lia)) as Hlt.
    replace (c + (s - c))%nat with s in Hlt by lia. lia. }
  pose proof (lookup_freed t s c n) as Hlk.
  assert (Hlen : length (all_quad_node (freed s c t)) = length (all_quad_node t)).
  { cbn [freed all_quad_node]. now rewrite length_alter, length_alter4. }
  destruct (Hch 0%nat) as (cn & Hcn & Hcu); [lia|]. rewrite Nat.add_0_r in Hcn.
  eapply (free_chain_cons _ c (set_free (free_quad_node_index t) cn)); auto.
  - rewrite Hlen. exact Hr.
  - intros i Hi. destruct (Hch i Hi) as (ci & Hci & _).
    exists (set_free (free_quad_node_index t) ci). split; [|reflexivity].
    rewrite Hlk by assumption. destruct (decide _); [lia|].
    destruct (decide _); [|lia]. now rewrite Hci.
  - rewrite Hlk by assumption. destruct (decide (s = c)); [lia|].
    destruct (decide _); [|lia]. now rewrite Hcn.
  - cbn [set_free first_child].
    eapply free_chain_frame; [exact Hbs|now rewrite Hlen|].
    intros b i Hbin Hi. rewrite Hlk by assumption.
    destruct (decide (s = (b + i)%nat)) as [E|].
    { exfalso. exact (in_use_not_free _ _ _ _ _ _ _ Hbs Hs Hu Hbin Hi E). }
    destruct (decide _) as [Hin|]; [|done]. exfalso.
    destruct (Hch (b + i - c)%nat) as (ci & Hci & Hciu); [lia|].
    replace (c + (b + i - c))%nat with (b + i)%nat in Hci by lia.
    exact (in_use_not_free _ _ _ _ _ _ _ Hbs Hci Hciu Hbin Hi eq_refl).
  - intros Hin.
    exact (in_use_not_free _ _ _ _ _ c 0 Hbs Hcn Hcu Hin ltac:(lia) ltac:(lia)).
Qed.

Lemma free_chain_branched_reuse t q n f fn bs :
  all_quad_node t !! q = Some n -> in_use n = true ->
  all_quad_node t !! f = Some fn ->
  free_chain (all_quad_node t) (Z.of_nat f) (f :: bs) ->
  free_chain (all_quad_node (branched_reuse q (Z.of_nat q) f (first_child fn) t))
    (first_child fn) bs.
Proof.
  intros Hq Hu Hf Hchain.
  destruct (free_chain_block _ _ _ f Hchain ltac:(left)) as (Hf1 & Hfm & Hfr & Hfun).
  assert (Hout : (q < f \/ f + 3 < q)%nat).
  { destruct (decide (f <= q < f + 4)%nat) as [Hin|]; [|lia]. exfalso.
    destruct (Hfun (q - f)%nat) as (m & Hm & Hmu); [lia|].
    replace (f + (q - f))%nat with q in Hm by lia. congruence. }
  inversion Hchain as [|b bn bs0 _ _ _ _ Hb Htail Hnin Hbeq]; subst.
  rewrite Hf in Hb. inversion Hb; subst bn.
  eapply free_chain_frame; [exact Htail| |].
  { cbn [branched_reuse all_quad_node]. now rewrite length_alter4, length_alter. }
  intros b i Hbin Hi. rewrite lookup_branched_reuse by assumption.
  destruct (free_chain_block _ _ _ b Htail Hbin) as (_ & Hbm & _ & _).
  destruct (decide (f <= b + i < f + 4)%nat) as [Hin|].
  { exfalso. apply Hnin.
    assert (f = b) as ->; [|exact Hbin].
    symmetry. apply (aligned_blocks b f i (b + i - f)); auto; lia. }
  destruct (decide (q = (b + i)%nat)) as [E|]; [|done].
  exfalso. exact (in_use_not_free _ _ _ _ _ _ _ Htail Hq Hu Hbin Hi E).
Qed.

Lemma counted_new sw sh md aid : counted (new_QuadTree sw sh md aid).
Proof. exists []. split; [constructor|reflexivity]. Qed.

Lemma counted_freed rk t s n c :
  wf_with rk t -> counted t ->
  all_quad_node t !! s = Some n -> in_use n = true -> is_branch n = true ->
  first_child n = Z.of_nat c -> counted (freed s c t).
Proof.
  intros Hwf (bs & Hbs & Hcnt) Hs Hu Hb Hc. exists (c :: bs). split.
  - exact (free_chain_freed _ _ _ _ _ _ Hwf Hs Hu Hb Hc Hbs).
  - unfold num_quad_node in *. cbn [freed all_quad_node num_quad_node_in_use length].
    rewrite length_alter, length_alter4. lia.
Qed.

Lemma counted_alter_in_use t s n f :
  counted t -> all_quad_node t !! s = Some n -> in_use n = true ->
  counted (with_nodes (alter f s (all_quad_node t)) t).
Proof.
  intros (bs & Hbs & Hcnt) Hs Hu. exists bs. split.
  - exact (free_chain_alter_in_use _ _ _ _ _ f Hbs Hs Hu).
  - unfold num_quad_node in *.
    cbn [with_nodes all_quad_node num_quad_node_in_use]. now rewrite length_alter.
Qed.

Lemma counted_set_branch t q n t' :
  counted t -> all_quad_node t !! q = Some n -> in_use n = true ->
  set_branch q (Z.of_nat q) t = (Ok tt, t') -> counted t'.
Proof.
  intros (bs & Hbs & Hcnt) Hq Hu Hrun.
  destruct (free_chain_head _ _ _ Hbs)
    as [[Hhd ->]|(f & fn & bs' & Hhd & -> & Hf & Htail & Hnin)].
  - rewrite (set_branch_fresh _ _ _ _ Hq Hhd) in Hrun. inversion Hrun; subst.
    exists []. split.
    + cbn [branched_fresh free_quad_node_index]. rewrite Hhd. constructor.
    + unfold num_quad_node in *.
      cbn [branched_fresh all_quad_node num_quad_node_in_use length] in *.
      rewrite length_app, length_alter. cbn [length]. lia.
  - rewrite Hhd in Hbs.
    destruct (free_chain_block _ _ _ f Hbs ltac:(left)) as (_ & _ & Hfr & Hfun).
    assert (Hout : (q < f \/ f + 3 < q)%nat).
    { destruct (decide (f <= q < f + 4)%nat) as [Hin|]; [|lia]. exfalso.
      destruct (Hfun (q - f)%nat) as (m & Hm & Hmu); [lia|].
      replace (f + (q - f))%nat with q in Hm by lia. congruence. }
    rewrite (set_branch_reuse _ _ _ _ _ _ Hq Hhd Hfr Hout Hf) in Hrun.
    inversion Hrun; subst. exists bs'. split.
    + exact (free_chain_branched_reuse _ _ _ _ _ _ Hq Hu Hf Hbs).
    + unfold num_quad_node in *.
      cbn [branched_reuse all_quad_node num_quad_node_in_use length] in *.
      rewrite length_alter4, length_alter. lia.
Qed.

Lemma counted_clean_up rk fuel t t' :
  wf_with rk t -> counted t -> clean_up fuel t = (Ok tt, t') -> counted t'.
Proof.
  intros Hwf Hcnt Hrun. destruct (wf_root _ _ Hwf) as (r0 & Hr0 & _).
  rewrite (clean_up_unfold _ _ _ Hr0) in Hrun. unfold bind in Hrun.
  destruct (clean_unused_qnode fuel 0 t) as [[r| |] t1] eqn:E; try discriminate.
  inversion Hrun; subst t1.
  eapply (clean_unused_qnode_keeps counted rk); [| |exact Hwf|exact Hcnt| |exact E].
  - intros. eapply counted_freed; eauto.
  - intros. eapply counted_alter_in_use; eauto.
  - eapply lookup_lt_Some, Hr0.
Qed.

Lemma step_counted t t' : wf t -> counted t -> step t t' -> counted t'.
Proof.
  intros [rk Hwf] Hcnt Hstep.
  destruct Hstep as [q n t' Hq Hu Hl Hrun | s n t' Hs Hu Hb Hrun
                    | fuel t' Hrun | q n k Hq Hu Hl Hk].
  - exact (counted_set_branch _ _ _ _ Hcnt Hq Hu Hrun).
  - destruct (wf_branch _ _ Hwf _ _ Hs Hu Hb) as (c & Hc & _).
    destruct (wf_freed _ _ _ _ _ Hwf Hs Hu Hb Hc) as (Hrun' & _).
    rewrite Hrun in Hrun'. inversion Hrun'; subst.
    exact (counted_freed _ _ _ _ _ Hwf Hcnt Hs Hu Hb Hc).
  - exact (counted_clean_up _ _ _ _ Hwf Hcnt Hrun).
  - rewrite (insert_alter _ _ _ (with_total_entity k) Hq).
    exact (counted_alter_in_use _ _ _ _ Hcnt Hq Hu).
Qed.

Lemma reachable_counted t : reachable t -> counted t.
Proof.
  induction 1 as [sw sh md aid | t t' Hr IH Hstep].
  - apply counted_new.
  - exact (step_counted _ _ (reachable_wf _ Hr) IH Hstep).
Qed.

Lemma free_chain_NoDup l hd bs : free_chain l hd bs -> NoDup bs.
Proof.
  induction 1 as [|b bn bs H1 Hm Hr Hun Hb Hc IH Hnin]; constructor; auto.
Qed.

(** The free blocks are distinct groups of four slots after the root. *)
Lemma free_chain_length l hd bs :
  (Z.of_nat (length l) - 1) mod 4 = 0 -> free_chain l hd bs ->
  4 * Z.of_nat (length bs) <= Z.of_nat (length l) - 1.
Proof.
  intros Hlen Hc. apply Z.mod_divide in Hlen; [|lia]. destruct Hlen as [m Hm].
  assert (Hsub : bs ⊆+ (fun k => 4 * k + 1)%nat <$> seq 0 (Z.to_nat m)).
  { apply NoDup_submseteq; [exact (free_chain_NoDup _ _ _ Hc)|].
    intros b Hb. destruct (free_chain_block _ _ _ _ Hc Hb) as (H1 & Hal & Hr & _).
    apply Z.mod_divide in Hal; [|lia]. destruct Hal as [k Hk].
    apply list_elem_of_fmap. exists (Z.to_nat k). split; [lia|].
    apply elem_of_seq. lia. }
  apply submseteq_length in Hsub. rewrite length_fmap, length_seq in Hsub. lia.
Qed.

(** The counter [num_quad_node_in_use] of a tree reached from a new one is
    the size of the pool less four slots for each block on the free list; it
    is of the form [1 + 4k] and lies between 1 and the size of the pool. *)
Theorem in_use_counter_invariant (t : QuadTree) :
  reachable t ->
  (exists bs : list nat,
     free_chain (all_quad_node t) (free_quad_node_index t) bs /\
     num_quad_node_in_use t = num_quad_node t - 4 * Z.of_nat (length bs)) /\
  (num_quad_node_in_use t - 1) mod 4 = 0 /\
  1 <= num_quad_node_in_use t <= num_quad_node t.
Proof.
  intros Hr. destruct (reachable_counted _ Hr) as (bs & Hbs & Hcnt).
  destruct (reachable_wf _ Hr) as [rk Hwf]. pose proof (wf_len _ _ Hwf) as Hlen.
  unfold pool_size in Hlen.
  pose proof (free_chain_length _ _ _ Hlen Hbs) as Hbound.
  unfold num_quad_node in *. split; [|split].
  - exists bs. split; [exact Hbs|lia].
  - replace (num_quad_node_in_use t - 1)
      with (Z.of_nat (length (all_quad_node t)) - 1 + (- Z.of_nat (length bs)) * 4) by lia.
    now rewrite Z_mod_plus_full.
  - lia.
Qed.

Lemma in_use_counter_invariant_witness :
  (exists bs : list nat,
     free_chain (all_quad_node split_twice) (free_quad_node_index split_twice) bs /\
     num_quad_node_in_use split_twice
     = num_quad_node split_twice - 4 * Z.of_nat (length bs)) /\
  (num_quad_node_in_use split_twice - 1) mod 4 = 0 /\
  1 <= num_quad_node_in_use split_twice <= num_quad_node split_twice.
Proof. exact (in_use_counter_invariant split_twice reachable_split_twice). Defined.

(** ** The size of the pool *)

(** On a tree reached from a new one, [set_branch] on a node in use appends
    four nodes when the free list is empty and none otherwise; freeing the
    block of a branch and [clean_up] leave [num_quad_node] as it is. *)
Theorem pool_size_changes (t : QuadTree) :
  reachable t ->
  (forall q n t', all_quad_node t !! q = Some n -> in_use n = true ->
     set_branch q (Z.of_nat q) t = (Ok tt, t') ->
     num_quad_node t' = if free_quad_node_index t =? -1 then num_quad_node t + 4
                        else num_quad_node t) /\
  (forall s n t', all_quad_node t !! s = Some n -> in_use n = true ->
     is_branch n = true ->
     set_free_quad_node (first_child n) t = (Ok tt, t') ->
     num_quad_node t' = num_quad_node t) /\
  (forall fuel t', clean_up fuel t = (Ok tt, t') -> num_quad_node t' = num_quad_node t).
Proof.
  intros Hr. destruct (reachable_wf _ Hr) as [rk Hwf]. split; [|split].
  - intros q n t' Hq Hu Hrun. destruct (wf_free _ _ Hwf) as (bs & Hbs).
    destruct (free_chain_head _ _ _ Hbs)
      as [[Hhd ->]|(f & fn & bs' & Hhd & -> & Hf & Htail & Hnin)].
    + rewrite (set_branch_fresh _ _ _ _ Hq Hhd) in Hrun. inversion Hrun; subst.
      rewrite Hhd. unfold num_quad_node. cbn [Z.eqb Pos.eqb branched_fresh all_quad_node].
      rewrite length_app, length_alter. cbn [length]. lia.
    + rewrite Hhd in Hbs.
      destruct (free_chain_block _ _ _ f Hbs ltac:(left)) as (_ & _ & Hfr & Hfun).
      assert (Hout : (q < f \/ f + 3 < q)%nat).
      { destruct (decide (f <= q < f + 4)%nat) as [Hin|]; [|lia]. exfalso.
        destruct (Hfun (q - f)%nat) as (m & Hm & Hmu); [lia|].
        replace (f + (q - f))%nat with q in Hm by lia. congruence. }
      rewrite (set_branch_reuse _ _ _ _ _ _ Hq Hhd Hfr Hout Hf) in Hrun.
      inversion Hrun; subst. rewrite Hhd.
      replace (Z.of_nat f =? -1) with false by (symmetry; apply Z.eqb_neq; lia).
      unfold num_quad_node. cbn [branched_reuse all_quad_node].
      now rewrite length_alter4, length_alter.
  - intros s n t' Hs Hu Hb Hrun.
    destruct (wf_branch _ _ Hwf _ _ Hs Hu Hb) as (c & Hc & _).
    destruct (wf_freed _ _ _ _ _ Hwf Hs Hu Hb Hc) as (Hrun' & _).
    rewrite Hrun in Hrun'. inversion Hrun'; subst.
    unfold num_quad_node. cbn [freed all_quad_node].
    now rewrite length_alter, length_alter4.
  - intros fuel t' Hrun. destruct (wf_root _ _ Hwf) as (r0 & Hr0 & _).
    rewrite (clean_up_unfold _ _ _ Hr0) in Hrun. unfold bind in Hrun.
    destruct (clean_unused_qnode fuel 0 t) as [[r| |] t1] eqn:E; try discriminate.
    inversion Hrun; subst t1.
    destruct (clean_unused_qnode_run rk _ _ _ _ _ Hwf
                ltac:(eapply lookup_lt_Some, Hr0) E) as (_ & Hsz & _).
    unfold num_quad_node, pool_size in *. lia.
Qed.

Lemma pool_size_changes_witness :
  (forall q n t', all_quad_node split_twice !! q = Some n -> in_use n = true ->
     set_branch q (Z.of_nat q) split_twice = (Ok tt, t') ->
     num_quad_node t' = if free_quad_node_index split_twice =? -1
                        then num_quad_node split_twice + 4
                        else num_quad_node split_twice) /\
  (forall s n t', all_quad_node split_twice !! s = Some n -> in_use n = true ->
     is_branch n = true ->
     set_free_quad_node (first_child n) split_twice = (Ok tt, t') ->
     num_quad_node t' = num_quad_node split_twice) /\
  (forall fuel t', clean_up fuel split_twice = (Ok tt, t') ->
     num_quad_node t' = num_quad_node split_twice).
Proof. exact (pool_size_changes split_twice reachable_split_twice). Defined.

(** ** Reuse of a freed block *)

(** On a tree reached from a new one, after the block of a branch is freed
    the next [set_branch] (on a node in use outside that block, the former
    branch included) is given that very block: the [first_child] of the new
    branch is the base of the freed block, and the head of the free list, the
    in-use counter and the size of the pool are back to what they were before
    the block was freed. *)
Theorem freed_block_is_reused (t : QuadTree) (s q : nat) (n m : QuadNode) (c : nat) :
  reachable t ->
  all_quad_node t !! s = Some n -> in_use n = true -> is_branch n = true ->
  first_child n = Z.of_nat c ->
  all_quad_node t !! q = Some m -> in_use m = true ->
  (q < c \/ c + 3 < q)%nat ->
  exists t1 t2 : QuadTree,
    set_free_quad_node (first_child n) t = (Ok tt, t1) /\
    set_branch q (Z.of_nat q) t1 = (Ok tt, t2) /\
    first_child <$> all_quad_node t2 !! q = Some (Z.of_nat c) /\
    free_quad_node_index t2 = free_quad_node_index t /\
    num_quad_node_in_use t2 = num_quad_node_in_use t /\
    num_quad_node t2 = num_quad_node t.
Proof.
  intros Hr Hs Hu Hb Hc Hq Hqu Hout. destruct (reachable_wf _ Hr) as [rk Hwf].
  destruct (wf_freed _ _ _ _ _ Hwf Hs Hu Hb Hc) as (Efree & Hwf1 & _ & Hfr & Hs1).
  destruct (child_of _ _ _ _ _ 0 Hwf Hs Hu Hb Hc ltac:(lia))
    as (_ & _ & Hcr & cn & Hcn & _).
  rewrite Nat.add_0_r in Hcn.
  assert (Hsc : (s < c \/ c + 3 < s)%nat).
  { destruct (decide (c <= s < c + 4)%nat) as [Hin|]; [|lia]. exfalso.
    pose proof (wf_rank _ _ Hwf _ _ _ (s - c)%nat Hs Hu Hb Hc ltac:(lia)) as Hlt.
    replace (c + (s - c))%nat with s in Hlt by lia. lia. }
  assert (Hc1 : all_quad_node (freed s c t) !! c
                = Some (set_free (free_quad_node_index t) cn)).
  { rewrite (lookup_freed _ _ _ _ _ Hs Hsc). destruct (decide (s = c)); [lia|].
    destruct (decide _); [|lia]. now rewrite Hcn. }
  assert (Hq1 : exists m1, all_quad_node (freed s c t) !! q = Some m1).
  { rewrite (lookup_freed _ _ _ _ _ Hs Hsc). destruct (decide (s = q)); [eauto|].
    destruct (decide _); [lia|eauto]. }
  destruct Hq1 as [m1 Hq1].
  assert (Hlen1 : (c + 3 < pool_size (freed s c t))%nat).
  { unfold pool_size. cbn [freed all_quad_node]. now rewrite length_alter, length_alter4. }
  pose proof (set_branch_reuse (freed s c t) q (Z.of_nat q) m1 c _ Hq1 eq_refl Hlen1
                Hout Hc1) as Ebranch.
  eexists _, _. split; [exact Efree|]. split; [exact Ebranch|].
  split.
  { rewrite lookup_branched_reuse by assumption. destruct (decide _); [lia|].
    destruct (decide (q = q)); [|done]. now rewrite Hq1. }
  split; [reflexivity|]. split; [cbn; lia|].
  unfold num_quad_node. cbn [branched_reuse freed all_quad_node].
  now rewrite length_alter4, !length_alter, length_alter4.
Qed.

Lemma freed_block_is_reused_witness :
  exists t1 t2 : QuadTree,
    set_free_quad_node (first_child (as_branch 5 (new_QuadNode 0))) split_twice
      = (Ok tt, t1) /\
    set_branch 2 (Z.of_nat 2) t1 = (Ok tt, t2) /\
    first_child <$> all_quad_node t2 !! 2%nat = Some (Z.of_nat 5) /\
    free_quad_node_index t2 = free_quad_node_index split_twice /\
    num_quad_node_in_use t2 = num_quad_node_in_use split_twice /\
    num_quad_node t2 = num_quad_node split_twice.
Proof.
  refine (freed_block_is_reused split_twice 1 2 (as_branch 5 (new_QuadNode 0))
            (new_QuadNode 0) 5 reachable_split_twice eq_refl eq_refl eq_refl eq_refl
            eq_refl eq_refl _).
  left. lia.
Defined.

(** ** What the cleanup does to entities *)

Lemma branch_outside_block rk t s n c :
  wf_with rk t ->
  all_quad_node t !! s = Some n -> in_use n = true -> is_branch n = true ->
  first_child n = Z.of_nat c -> (s < c \/ c + 3 < s)%nat.
Proof.
  intros Hwf Hs Hu Hb Hc.
  destruct (decide (c <= s < c + 4)%nat) as [Hin|]; [|lia]. exfalso.
  pose proof (wf_rank _ _ Hwf _ _ _ (s - c)%nat Hs Hu Hb Hc ltac:(lia)) as Hlt.
  replace (c + (s - c))%nat with s in Hlt by lia. lia.
Qed.

Lemma clean_up_keeps (J : QuadTree -> Prop) rk fuel t t' :
  (forall t s n c, wf_with rk t -> J t ->
     all_quad_node t !! s = Some n -> in_use n = true -> is_branch n = true ->
     first_child n = Z.of_nat c ->
     (forall i, (i < 4)%nat -> settled (all_quad_node t) (c + i)%nat 1) ->
     J (freed s c t)) ->
  (forall t n, wf_with rk t -> J t ->
     all_quad_node t !! 0%nat = Some n -> in_use n = true -> total_entity n = 0 ->
     J (with_nodes (alter (with_first_child 1) 0%nat (all_quad_node t)) t)) ->
  wf_with rk t -> J t -> clean_up fuel t = (Ok tt, t') -> J t'.
Proof.
  intros Hfreed Hquirk Hwf HJ Hrun. destruct (wf_root _ _ Hwf) as (r0 & Hr0 & _).
  rewrite (clean_up_unfold _ _ _ Hr0) in Hrun. unfold bind in Hrun.
  destruct (clean_unused_qnode fuel 0 t) as [[r| |] t1] eqn:E; try discriminate.
  inversion Hrun; subst t1.
  eapply (clean_unused_qnode_keeps J rk); [exact Hfreed|exact Hquirk|exact Hwf|exact HJ| |exact E].
  eapply lookup_lt_Some, Hr0.
Qed.

(** [clean_up] leaves alone every leaf that holds entities: the record of
    such a leaf is the same after the cleanup, it is neither freed nor
    changed. *)
Theorem clean_up_keeps_entity_leaves (t t' : QuadTree) (fuel : nat) (z : nat)
    (nz : QuadNode) :
  reachable t -> clean_up fuel t = (Ok tt, t') ->
  all_quad_node t !! z = Some nz -> in_use nz = true -> is_leaf nz = true ->
  0 < total_entity nz ->
  all_quad_node t' !! z = Some nz.
Proof.
  intros Hr Hrun Hz Hzu Hzl Hze. destruct (reachable_wf _ Hr) as [rk Hwf].
  apply (clean_up_keeps (fun t1 => all_quad_node t1 !! z = Some nz) rk fuel t t');
    auto.
  - intros t1 s n c Hwf1 HJ Hs Hu Hb Hc Hones.
    pose proof (branch_outside_block _ _ _ _ _ Hwf1 Hs Hu Hb Hc) as Hout.
    rewrite (lookup_freed _ _ _ _ _ Hs Hout).
    destruct (decide (s = z)) as [->|].
    { rewrite Hs in HJ. inversion HJ; subst.
      unfold is_branch in Hb. apply Z.eqb_eq in Hb. lia. }
    destruct (decide _) as [Hin|]; [|exact HJ]. exfalso.
    pose proof (Hones (z - c)%nat ltac:(lia)) as Hst.
    replace (c + (z - c))%nat with z in Hst by lia.
    inversion Hst as [| |x m Hm Hmu Hme|x m c' r0 r1 r2 r3 Hm Hmu Hmb]; subst;
      rewrite HJ in Hm; inversion Hm; subst.
    + lia.
    + unfold is_branch in Hmb. apply Z.eqb_eq in Hmb. lia.
  - intros t1 n Hwf1 HJ Hn Hu He. cbn [with_nodes all_quad_node].
    destruct (decide (z = 0%nat)) as [->|].
    + rewrite Hn in HJ. inversion HJ; subst. lia.
    + now rewrite list_lookup_alter_ne.
Qed.

Lemma reachable_entity_below : reachable entity_below.
Proof.
  apply (reachable_step split_twice); [exact reachable_split_twice|].
  apply (step_entities split_twice 5 (new_QuadNode 1) 3); vm_compute; congruence.
Qed.

Lemma clean_up_keeps_entity_leaves_witness :
  all_quad_node
    (snd (clean_up 3 entity_below)) !! 5%nat = Some (with_total_entity 3 (new_QuadNode 1)).
Proof.
  apply (clean_up_keeps_entity_leaves entity_below _ 3 5
           (with_total_entity 3 (new_QuadNode 1)) reachable_entity_below);
    vm_compute; reflexivity.
Defined.

(** An entity count is only ever reset to 0 by the cleanup. *)
Lemma clean_up_entity_counts rk fuel t t' :
  wf_with rk t -> clean_up fuel t = (Ok tt, t') ->
  forall z nz', all_quad_node t' !! z = Some nz' -> total_entity nz' <> 0 ->
    exists nz, all_quad_node t !! z = Some nz /\ total_entity nz = total_entity nz'.
Proof.
  intros Hwf Hrun.
  apply (clean_up_keeps
           (fun t1 => forall z nz', all_quad_node t1 !! z = Some nz' ->
              total_entity nz' <> 0 ->
              exists nz, all_quad_node t !! z = Some nz /\
                         total_entity nz = total_entity nz') rk fuel t t'); auto.
  - intros t1 s n c Hwf1 HJ Hs Hu Hb Hc _ z nz' Hz Hne.
    pose proof (branch_outside_block _ _ _ _ _ Hwf1 Hs Hu Hb Hc) as Hout.
    rewrite (lookup_freed _ _ _ _ _ Hs Hout) in Hz.
    destruct (decide (s = z)).
    { inversion Hz; subst. cbn in Hne. lia. }
    destruct (decide _); [|eauto].
    destruct (all_quad_node t1 !! z) as [m|] eqn:Em; inversion Hz; subst.
    exact (HJ z m Em Hne).
  - intros t1 n Hwf1 HJ Hn Hu He z nz' Hz Hne.
    cbn [with_nodes all_quad_node] in Hz. rewrite list_lookup_alter in Hz.
    destruct (decide (0%nat = z)) as [<-|]; [|eauto].
    rewrite Hn in Hz. inversion Hz; subst. cbn in Hne. lia.
  - eauto.
Qed.

(** The root collapses as soon as none of its four children is a leaf holding
    entities, whatever lies below the children that are branches: after
    [clean_up] the root is an empty leaf. *)
Theorem clean_up_collapses_root (t : QuadTree) (n : QuadNode) (c : nat) :
  reachable t ->
  all_quad_node t !! 0%nat = Some n -> is_branch n = true ->
  first_child n = Z.of_nat c ->
  (forall i cn, (i < 4)%nat -> all_quad_node t !! (c + i)%nat = Some cn ->
     is_branch cn = true \/ total_entity cn = 0) ->
  exists (fuel0 : nat) (t' : QuadTree) (n' : QuadNode),
    (forall fuel, (fuel0 <= fuel)%nat -> clean_up fuel t = (Ok tt, t')) /\
    all_quad_node t' !! 0%nat = Some n' /\ in_use n' = true /\ total_entity n' = 0.
Proof.
  intros Hr Hn Hb Hc Hkids. destruct (reachable_wf _ Hr) as [rk Hwf].
  destruct (wf_root _ _ Hwf) as (n0 & Hn0 & Hu). rewrite Hn in Hn0.
  inversion Hn0; subst n0.
  destruct (clean_unused_qnode_spec rk (rk 0%nat) 0%nat t Hwf (le_n _)
              ltac:(eapply lookup_lt_Some, Hn))
    as (r & t' & Hrun & Hwf' & _ & Hsh & _ & Hst).
  assert (Hup : forall fuel, (S (rk 0%nat) <= fuel)%nat -> clean_up fuel t = (Ok tt, t')).
  { intros fuel Hf. rewrite (clean_up_unfold _ _ _ Hn).
    now rewrite (bind_ok _ _ _ _ _ (Hrun fuel ltac:(lia))). }
  pose proof (clean_up_entity_counts _ _ _ _ Hwf (Hup _ (le_n _))) as Hcounts.
  destruct (wf_root _ _ Hwf') as (n' & Hn' & Hu').
  exists (S (rk 0%nat)), t', n'. split; [exact Hup|]. split; [exact Hn'|].
  split; [exact Hu'|].
  assert (Hbr : total_entity n = -1).
  { unfold is_branch in Hb. now apply Z.eqb_eq in Hb. }
  inversion Hst as [x m Hm Hmu|x m Hm Hmu Hml Hme|x m Hm Hmu Hme
                   |x m c' r0 r1 r2 r3 Hm Hmu Hmb Hmc Hlen H0 H1 H2 H3 Hsum]; subst;
    rewrite Hn' in Hm; inversion Hm; subst m.
  - congruence.
  - exfalso. destruct (Hcounts _ _ Hn' ltac:(lia)) as (nz & Hnz & He).
    rewrite Hn in Hnz. inversion Hnz; subst. lia.
  - exact Hme.
  - exfalso. pose proof (Hsh _ _ Hn' Hmu Hmb) as Hsame. rewrite Hn in Hsame.
    inversion Hsame; subst n'. assert (c' = c) as -> by lia.
    assert (Hkid : forall i ri, (i < 4)%nat ->
              settled (all_quad_node t') (c + i)%nat ri -> ri = 1).
    { intros i ri Hi Hs.
      destruct (child_of _ _ _ _ _ _ Hwf' Hn' Hmu Hmb Hmc Hi)
        as (_ & _ & _ & cn' & Hcn' & Hcu' & _).
      inversion Hs as [y m Hm' Hmu'|y m Hm' Hmu' Hml' Hme'| |]; subst; auto;
        rewrite Hcn' in Hm'; inversion Hm'; subst m; [congruence|].
      exfalso. destruct (Hcounts _ _ Hcn' ltac:(lia)) as (nz & Hnz & He).
      destruct (Hkids i nz Hi Hnz) as [Hb'|He'].
      + unfold is_branch in Hb'. apply Z.eqb_eq in Hb'. lia.
      + lia. }
    rewrite <- (Nat.add_0_r c) in H0.
    pose proof (Hkid 0%nat _ ltac:(lia) H0). pose proof (Hkid 1%nat _ ltac:(lia) H1).
    pose proof (Hkid 2%nat _ ltac:(lia) H2). pose proof (Hkid 3%nat _ ltac:(lia) H3).
    lia.
Qed.

Lemma clean_up_collapses_root_witness :
  exists (fuel0 : nat) (t' : QuadTree) (n' : QuadNode),
    (forall fuel, (fuel0 <= fuel)%nat -> clean_up fuel entity_below = (Ok tt, t')) /\
    all_quad_node t' !! 0%nat = Some n' /\ in_use n' = true /\ total_entity n' = 0.
Proof.
  refine (clean_up_collapses_root entity_below (as_branch 1 root_QuadNode) 1
            reachable_entity_below eq_refl eq_refl eq_refl _).
  intros [|[|[|[|i]]]] cn Hi Hcn; try lia; vm_compute in Hcn; inversion Hcn; subst;
    vm_compute; auto.
Defined.

(** ** Height *)

Lemma traversal_counter_no_child fuel t i n :
  lookup_node t i = Ok n -> first_child n = -1 ->
  traversal_counter (S fuel) t i = Ok 1.
Proof.
  intros Hn Hfc. cbn [traversal_counter]. rewrite Hn. cbn [rbind]. rewrite Hfc.
  reflexivity.
Qed.

Lemma traversal_counter_children fuel t i n h0 h1 h2 h3 :
  lookup_node t i = Ok n -> first_child n <> -1 ->
  traversal_counter fuel t (first_child n + 0) = Ok h0 ->
  traversal_counter fuel t (first_child n + 1) = Ok h1 ->
  traversal_counter fuel t (first_child n + 2) = Ok h2 ->
  traversal_counter fuel t (first_child n + 3) = Ok h3 ->
  traversal_counter (S fuel) t i = Ok (1 + Z.max (Z.max (Z.max h0 h1) h2) h3).
Proof.
  intros Hn Hfc E0 E1 E2 E3. cbn [traversal_counter]. rewrite Hn. cbn [rbind].
  replace (first_child n =? -1) with false by (symmetry; now apply Z.eqb_neq).
  cbn [negb List.filter range4 comprehension]. rewrite E0, E1, E2, E3. reflexivity.
Qed.




(** After the root of a tree reached from a new one is split, [height]
    is 2, whatever the pool held before. *)
Theorem height_after_root_split (t t' : QuadTree) (fuel : nat) :
  reachable t -> set_branch 0 0 t = (Ok tt, t') ->
  height (S (S fuel)) t' = Ok 2.
Proof.
  intros Hr Hrun. destruct (reachable_wf _ Hr) as [rk Hwf].
  destruct (wf_root _ _ Hwf) as (n & Hn & Hu).
  assert (Hshape : exists c : nat,
     first_child <$> all_quad_node t' !! 0%nat = Some (Z.of_nat c) /\
     forall i : nat, (i < 4)%nat ->
       all_quad_node t' !! (c + i)%nat = Some (new_QuadNode 0)).
  { destruct (wf_free _ _ Hwf) as (bs & Hbs).
    destruct (free_chain_head _ _ _ Hbs)
      as [[Hhd ->]|(f & fn & bs' & Hhd & -> & Hf & Htail & Hnin)].
    - rewrite (set_branch_fresh _ _ _ _ Hn Hhd) in Hrun. inversion Hrun; subst.
      exists (pool_size t). split.
      + rewrite lookup_branched_fresh.
        destruct (decide _) as [|Hge];
          [|exfalso; apply Hge; eapply lookup_lt_Some, Hn].
        destruct (decide (0%nat = 0%nat)); [|done]. now rewrite Hn.
      + intros i Hi. rewrite lookup_branched_fresh.
        destruct (decide _); [lia|]. destruct (decide _); [reflexivity|lia].
    - rewrite Hhd in Hbs.
      destruct (free_chain_block _ _ _ f Hbs ltac:(left)) as (Hf1 & _ & Hfr & Hfun).
      rewrite (set_branch_reuse _ _ _ _ _ _ Hn Hhd Hfr ltac:(lia) Hf) in Hrun.
      inversion Hrun; subst. exists f. split.
      + rewrite lookup_branched_reuse by lia. destruct (decide _); [lia|].
        destruct (decide (0%nat = 0%nat)); [|done]. now rewrite Hn.
      + intros i Hi. rewrite lookup_branched_reuse by lia.
        destruct (decide _); [|lia]. destruct (Hfun i Hi) as (m & -> & _).
        reflexivity. }
  destruct Hshape as (c & Hroot & Hkids).
  destruct (all_quad_node t' !! 0%nat) as [n'|] eqn:Hn'; [|discriminate].
  inversion Hroot as [Hfc].
  pose proof (lookup_node_nat _ _ _ Hn') as Hlk. change (Z.of_nat 0) with 0 in Hlk.
  assert (Hkid : forall i : nat, (i < 4)%nat ->
            traversal_counter (S fuel) t' (first_child n' + Z.of_nat i) = Ok 1).
  { intros i Hi. rewrite Hfc.
    replace (Z.of_nat c + Z.of_nat i) with (Z.of_nat (c + i)) by lia.
    eapply traversal_counter_no_child; [exact (lookup_node_nat _ _ _ (Hkids i Hi))|].
    reflexivity. }
  unfold height.
  rewrite (traversal_counter_children (S fuel) t' 0 n' 1 1 1 1 Hlk ltac:(lia)
             (Hkid 0%nat ltac:(lia)) (Hkid 1%nat ltac:(lia)) (Hkid 2%nat ltac:(lia))
             (Hkid 3%nat ltac:(lia))).
  reflexivity.
Qed.

Lemma height_after_root_split_witness :
  height 2 (snd (set_branch 0 0 split_twice)) = Ok 2.
Proof.
  apply (height_after_root_split split_twice _ 0 reachable_split_twice).
  vm_compute. reflexivity.
Defined.

(** The tree [clean_up] leaves when the root, a branch over four empty leaves
    in slots 1 to 4, collapses. *)
Lemma clean_up_root_collapse rk t n fuel :
  wf_with rk t ->
  all_quad_node t !! 0%nat = Some n -> in_use n = true -> is_branch n = true ->
  first_child n = 1 ->
  (forall i : nat, (i < 4)%nat ->
     exists cn, all_quad_node t !! (1 + i)%nat = Some cn /\ in_use cn = true /\
                total_entity cn = 0) ->
  clean_up (S (S fuel)) t =
  (Ok tt, with_nodes (alter (with_first_child 1) 0%nat
                        (all_quad_node (freed 0 1 t))) (freed 0 1 t)).
Proof.
  intros Hwf Hx Hu Hb Hc Hch.
  destruct (wf_freed _ _ _ _ 1%nat Hwf Hx Hu Hb Hc) as (Efree & _ & _ & _ & Hx5).
  assert (Hkid : forall i, (i < 4)%nat ->
     (let* c' := node_at (first_child n + Z.of_nat i) in
      clean_unused_qnode (S fuel) c') t = (Ok 1, t)).
  { intros i Hi. destruct (Hch i Hi) as (cn & Hcn & Hcu & Hce). rewrite Hc.
    replace (1 + Z.of_nat i) with (Z.of_nat (1 + i)) by lia.
    rewrite (bind_ok _ _ _ (1 + i)%nat t).
    - eapply clean_unused_qnode_leaf; [exact Hcn|]. right.
      unfold is_leaf, is_branch. rewrite Hcu, Hce. auto.
    - apply node_at_nat. eapply lookup_lt_Some, Hcn. }
  assert (Hsum :
     sum_gen 0 range4
       (fun i => let* c' := node_at (first_child n + i) in
                 clean_unused_qnode (S fuel) c') t = (Ok 4, t)).
  { exact (sum_gen4 _ t t t t t 1 1 1 1 (Hkid 0%nat ltac:(lia))
             (Hkid 1%nat ltac:(lia)) (Hkid 2%nat ltac:(lia))
             (Hkid 3%nat ltac:(lia))). }
  rewrite (clean_up_unfold _ _ _ Hx).
  rewrite (bind_ok _ _ _ 1 (with_nodes (alter (with_first_child 1) 0%nat
             (all_quad_node (freed 0 1 t))) (freed 0 1 t))); [reflexivity|].
  rewrite (clean_unused_qnode_branch _ _ _ _ _ _ Hx Hu Hb Hsum).
  cbn [Z.add Z.eqb Pos.eqb Pos.add Pos.succ Nat.eqb].
  erewrite bind_ok; [reflexivity|].
  rewrite (bind_ok _ _ _ _ _ Efree).
  exact (write_alter _ _ _ _ Hx5).
Qed.

(** When [clean_up] collapses a root whose four children were empty leaves in
    slots 1 to 4, with an empty free list, the root is a leaf afterwards but
    [height] is 2: the root keeps [first_child = 1] and [height] counts the
    four freed slots as its children. *)
Theorem height_after_root_collapse (t : QuadTree) (n : QuadNode) (fuel : nat) :
  reachable t ->
  all_quad_node t !! 0%nat = Some n -> is_branch n = true -> first_child n = 1 ->
  (forall i : nat, (i < 4)%nat ->
     exists cn, all_quad_node t !! (1 + i)%nat = Some cn /\ total_entity cn = 0) ->
  free_quad_node_index t = -1 ->
  exists (t' : QuadTree) (n' : QuadNode),
    clean_up (S (S fuel)) t = (Ok tt, t') /\
    all_quad_node t' !! 0%nat = Some n' /\ is_leaf n' = true /\
    height (S (S fuel)) t' = Ok 2.
Proof.
  intros Hr Hn Hb Hc Hkids Hhd. destruct (reachable_wf _ Hr) as [rk Hwf].
  destruct (wf_root _ _ Hwf) as (n0 & Hn0 & Hu). rewrite Hn in Hn0.
  inversion Hn0; subst n0.
  assert (Hch : forall i : nat, (i < 4)%nat ->
     exists cn, all_quad_node t !! (1 + i)%nat = Some cn /\ in_use cn = true /\
                total_entity cn = 0).
  { intros i Hi. destruct (Hkids i Hi) as (cn & Hcn & Hce).
    destruct (child_of _ _ _ _ 1%nat _ Hwf Hn Hu Hb Hc Hi)
      as (_ & _ & _ & cn' & Hcn' & Hcu' & _).
    rewrite Hcn in Hcn'. inversion Hcn'; subst. eauto. }
  set (t' := with_nodes (alter (with_first_child 1) 0%nat
                           (all_quad_node (freed 0 1 t))) (freed 0 1 t)).
  assert (Hlk : forall j, all_quad_node t' !! j =
     if decide (0%nat = j) then Some (with_first_child 1 (as_empty_leaf n))
     else if decide (1 <= j < 1 + 4)%nat
          then set_free (-1) <$> all_quad_node t !! j
          else all_quad_node t !! j).
  { intros j. cbn [t' with_nodes all_quad_node]. rewrite list_lookup_alter.
    rewrite !(lookup_freed _ _ _ _ _ Hn) by lia. rewrite Hhd.
    destruct (decide (0%nat = j)) as [<-|]; [|reflexivity].
    destruct (decide (0%nat = 0%nat)); [reflexivity|done]. }
  exists t', (with_first_child 1 (as_empty_leaf n)).
  split; [exact (clean_up_root_collapse _ _ _ _ Hwf Hn Hu Hb Hc Hch)|].
  split; [now rewrite Hlk|]. split; [reflexivity|].
  assert (Hroot : lookup_node t' 0 = Ok (with_first_child 1 (as_empty_leaf n))).
  { apply (lookup_node_nat t' 0). now rewrite Hlk. }
  assert (Hkid : forall i : nat, (i < 4)%nat ->
            traversal_counter (S fuel) t' (1 + Z.of_nat i) = Ok 1).
  { intros i Hi. destruct (Hch i Hi) as (cn & Hcn & _).
    replace (1 + Z.of_nat i) with (Z.of_nat (1 + i)) by lia.
    eapply traversal_counter_no_child.
    - apply lookup_node_nat. rewrite Hlk. destruct (decide _); [lia|].
      destruct (decide _); [|lia]. rewrite Hcn. reflexivity.
    - reflexivity. }
  unfold height.
  rewrite (traversal_counter_children (S fuel) t' 0 _ 1 1 1 1 Hroot ltac:(cbn; lia)
             (Hkid 0%nat ltac:(lia)) (Hkid 1%nat ltac:(lia)) (Hkid 2%nat ltac:(lia))
             (Hkid 3%nat ltac:(lia))).
  reflexivity.
Qed.

Lemma reachable_split_root : reachable split_root.
Proof.
  apply (reachable_step tree_64); [apply reachable_new|].
  apply (step_set_branch _ 0 root_QuadNode); vm_compute; reflexivity.
Qed.

Lemma height_after_root_collapse_witness :
  exists (t' : QuadTree) (n' : QuadNode),
    clean_up 2 split_root = (Ok tt, t') /\
    all_quad_node t' !! 0%nat = Some n' /\ is_leaf n' = true /\
    height 2 t' = Ok 2.
Proof.
  refine (height_after_root_collapse split_root (as_branch 1 root_QuadNode) 0
            reachable_split_root eq_refl eq_refl eq_refl _ eq_refl).
  intros i Hi. exists (new_QuadNode 0).
  destruct i as [|[|[|[|i]]]]; [repeat split..|lia].
Defined.

(** ** Indices outside the pool *)

(** [set_free_quad_node] on an index that passes the alignment test but lies
    outside the pool raises IndexError and leaves the tree as it was. *)
Theorem set_free_quad_node_index_error (t : QuadTree) (qindex : Z) :
  (qindex - 1) mod 4 = 0 ->
  num_quad_node t <= qindex \/ qindex < - num_quad_node t ->
  set_free_quad_node qindex t = (Raise IndexError, t).
Proof.
  intros Hmod Hout. unfold set_free_quad_node. rewrite Hmod. cbn [Z.eqb negb].
  apply bind_raise. unfold node_at, py_slot, num_quad_node in *.
  destruct ((0 <=? qindex) && (qindex <? Z.of_nat (length (all_quad_node t)))) eqn:E1.
  { apply andb_prop in E1 as [H1 H2]. apply Z.leb_le in H1. apply Z.ltb_lt in H2. lia. }
  destruct ((- Z.of_nat (length (all_quad_node t)) <=? qindex) && (qindex <? 0)) eqn:E2.
  { apply andb_prop in E2 as [H1 H2]. apply Z.leb_le in H1. apply Z.ltb_lt in H2. lia. }
  reflexivity.
Qed.

Lemma set_free_quad_node_index_error_witness :
  set_free_quad_node 9 split_root = (Raise IndexError, split_root).
Proof.
  apply set_free_quad_node_index_error; [reflexivity|]. left. vm_compute. discriminate.
Defined.

(** ** Nodes the allocator leaves alone *)

(** On a tree reached from a new one, [set_branch] on a node in use changes no
    other node in use, and freeing the block of a branch changes no node but
    the branch and its four children. *)
Theorem allocator_frame (t : QuadTree) :
  reachable t ->
  (forall q n t' j nj,
     all_quad_node t !! q = Some n -> in_use n = true ->
     set_branch q (Z.of_nat q) t = (Ok tt, t') ->
     all_quad_node t !! j = Some nj -> in_use nj = true -> j <> q ->
     all_quad_node t' !! j = Some nj) /\
  (forall s n c t' j,
     all_quad_node t !! s = Some n -> in_use n = true -> is_branch n = true ->
     first_child n = Z.of_nat c ->
     set_free_quad_node (first_child n) t = (Ok tt, t') ->
     j <> s -> ~ (c <= j < c + 4)%nat ->
     all_quad_node t' !! j = all_quad_node t !! j).
Proof.
  intros Hr. destruct (reachable_wf _ Hr) as [rk Hwf]. split.
  - intros q n t' j nj Hq Hu Hrun Hj Hju Hjq.
    destruct (wf_free _ _ Hwf) as (bs & Hbs).
    destruct (free_chain_head _ _ _ Hbs)
      as [[Hhd ->]|(f & fn & bs' & Hhd & -> & Hf & Htail & Hnin)].
    + rewrite (set_branch_fresh _ _ _ _ Hq Hhd) in Hrun. inversion Hrun; subst.
      rewrite lookup_branched_fresh.
      destruct (decide _) as [|Hge];
        [|exfalso; apply Hge; eapply lookup_lt_Some, Hj].
      destruct (decide (q = j)); [congruence|exact Hj].
    + rewrite Hhd in Hbs.
      destruct (free_chain_block _ _ _ f Hbs ltac:(left)) as (_ & _ & Hfr & Hfun).
      assert (Hout : forall z m, all_quad_node t !! z = Some m -> in_use m = true ->
                (z < f \/ f + 3 < z)%nat).
      { intros z m Hz Hzu.
        destruct (decide (f <= z < f + 4)%nat) as [Hin|]; [|lia]. exfalso.
        destruct (Hfun (z - f)%nat) as (m' & Hm' & Hmu'); [lia|].
        replace (f + (z - f))%nat with z in Hm' by lia. congruence. }
      rewrite (set_branch_reuse _ _ _ _ _ _ Hq Hhd Hfr (Hout _ _ Hq Hu) Hf) in Hrun.
      inversion Hrun; subst.
      rewrite lookup_branched_reuse by exact (Hout _ _ Hq Hu).
      pose proof (Hout _ _ Hj Hju). destruct (decide _); [lia|].
      destruct (decide (q = j)); [congruence|exact Hj].
  - intros s n c t' j Hs Hu Hb Hc Hrun Hjs Hjc.
    destruct (wf_freed _ _ _ _ _ Hwf Hs Hu Hb Hc) as (Hrun' & _ & _ & Hfr & _).
    rewrite Hrun in Hrun'. inversion Hrun'; subst. now apply Hfr.
Qed.

Lemma allocator_frame_witness :
  (forall q n t' j nj,
     all_quad_node split_twice !! q = Some n -> in_use n = true ->
     set_branch q (Z.of_nat q) split_twice = (Ok tt, t') ->
     all_quad_node split_twice !! j = Some nj -> in_use nj = true -> j <> q ->
     all_quad_node t' !! j = Some nj) /\
  (forall s n c t' j,
     all_quad_node split_twice !! s = Some n -> in_use n = true ->
     is_branch n = true -> first_child n = Z.of_nat c ->
     set_free_quad_node (first_child n) split_twice = (Ok tt, t') ->
     j <> s -> ~ (c <= j < c + 4)%nat ->
     all_quad_node t' !! j = all_quad_node split_twice !! j).
Proof. exact (allocator_frame split_twice reachable_split_twice). Defined.

(** ** Regions of the children of the root *)

Lemma fold_select_skip (i : Z) :
  forall (l : list BBox) (j : Z) (acc : BBox),
    i < j ->
    fold_left (fun acc iq => if fst iq =? i then snd iq else acc)
      (enumerate_from j l) acc = acc.
Proof.
  induction l as [|a l IH]; intros j acc Hj; cbn [enumerate_from fold_left fst snd];
    [reflexivity|].
  replace (j =? i) with false by (symmetry; apply Z.eqb_neq; lia).
  apply IH. lia.
Qed.

Lemma fold_select (i : Z) :
  forall (l : list BBox) (j : Z) (acc : BBox),
    j <= i ->
    fold_left (fun acc iq => if fst iq =? i then snd iq else acc)
      (enumerate_from j l) acc
    = nth (Z.to_nat (i - j)) l acc.
Proof.
  induction l as [|a l IH]; intros j acc Hj; cbn [enumerate_from fold_left fst snd].
  - now destruct (Z.to_nat (i - j)).
  - destruct (j =? i) eqn:E.
    + apply Z.eqb_eq in E. subst j. rewrite Z.sub_diag. cbn [Z.to_nat nth].
      apply fold_select_skip. lia.
    + apply Z.eqb_neq in E. rewrite IH by lia.
      replace (Z.to_nat (i - j)) with (S (Z.to_nat (i - (j + 1)))) by lia.
      reflexivity.
Qed.

Lemma select_quadrant_nth {G : Geometry} (b : BBox) (i : nat) :
  select_quadrant b (Z.of_nat i) = nth i (split_box b) b.
Proof.
  unfold select_quadrant, enumerate. rewrite fold_select by lia.
  now rewrite Z.sub_0_r, Nat2Z.id.
Qed.

(** For a child of the root, in a tree reached from a new one, [get_bbox]
    answers the slot of the child and the quadrant of the box of the tree at
    the position of the child among its siblings: there is a single split to
    apply, and the order of the splits plays no part. *)
Theorem get_bbox_child_of_root {G : Geometry} (t : QuadTree) (n : QuadNode)
    (c i fuel : nat) :
  reachable t ->
  all_quad_node t !! 0%nat = Some n -> is_branch n = true ->
  first_child n = Z.of_nat c -> (i < 4)%nat ->
  get_bbox fuel t (c + i) = Ok (Z.of_nat (c + i), nth i (split_box (bbox t)) (bbox t)).
Proof.
  intros Hr Hn Hb Hc Hi. destruct (reachable_wf _ Hr) as [rk Hwf].
  destruct (wf_root _ _ Hwf) as (n0 & Hn0 & Hu). rewrite Hn in Hn0.
  inversion Hn0; subst n0.
  destruct (child_of _ _ _ _ _ _ Hwf Hn Hu Hb Hc Hi)
    as (Hc1 & Hcm & _ & cn & Hcn & _ & Hpar).
  pose proof (lookup_node_nat _ _ _ Hn) as Hlk. change (Z.of_nat 0) with 0 in Hlk.
  unfold get_bbox. rewrite Hlk. cbn [rbind].
  replace (Nat.eqb (c + i) 0) with false by (symmetry; apply Nat.eqb_neq; lia).
  rewrite Hcn.
  assert (Hq : (Z.of_nat (c + i) - 1) mod 4 = Z.of_nat i).
  { apply Z.mod_divide in Hcm; [|lia]. destruct Hcm as [k Hk].
    replace (Z.of_nat (c + i) - 1) with (Z.of_nat i + k * 4) by lia.
    rewrite Z_mod_plus_full. apply Z.mod_small. lia. }
  assert (Hclimb : forall qs, climb fuel t cn qs = Ok qs).
  { intros qs. destruct fuel; cbn [climb]; rewrite Hpar; reflexivity. }
  rewrite Hclimb. cbn [rbind fold_left]. rewrite Hq, select_quadrant_nth. reflexivity.
Qed.

Lemma get_bbox_child_of_root_witness :
  get_bbox (G := plane_geometry) 0 split_twice (1 + 1)
  = Ok (Z.of_nat (1 + 1),
        nth 1 (split_box (Geometry := plane_geometry) (bbox split_twice))
          (bbox split_twice)).
Proof.
  apply (get_bbox_child_of_root (G := plane_geometry) split_twice
           (as_branch 1 root_QuadNode) 1 1 0 reachable_split_twice);
    [reflexivity|reflexivity|reflexivity|lia].
Defined.

(** ** Leaves below a node *)


Section Leaves.
Context {G : Geometry}.
Hypothesis split_box_4 : forall box, length (split_box box) = 4%nat.


End Leaves.



Lemma step_progress_witness :
  (forall q n, all_quad_node split_twice !! q = Some n -> in_use n = true ->
     exists t', set_branch q (Z.of_nat q) split_twice = (Ok tt, t')) /\
  (forall s n, all_quad_node split_twice !! s = Some n -> in_use n = true ->
     is_branch n = true ->
     exists t', set_free_quad_node (first_child n) split_twice = (Ok tt, t')) /\
  (exists fuel0 t', forall fuel, (fuel0 <= fuel)%nat ->
     clean_up fuel split_twice = (Ok tt, t')).
Proof. exact (step_progress split_twice reachable_split_twice). Defined.

(** ** Splitting a leaf of a reachable tree and freeing the block again *)

Lemma reachable_freed_root : reachable freed_root.
Proof.
  apply (reachable_step split_root); [exact reachable_split_root|].
  apply (step_set_free _ 0 (as_branch 1 root_QuadNode)); vm_compute; reflexivity.
Qed.

Lemma reachable_loaded_root : reachable loaded_root.
Proof.
  apply (reachable_step freed_root); [exact reachable_freed_root|].
  apply (step_entities freed_root 0 root_QuadNode 2); vm_compute; congruence.
Qed.

Lemma reachable_collapsed_root : reachable collapsed_root.
Proof.
  apply (reachable_step split_root); [exact reachable_split_root|].
  apply (step_clean_up _ 2). vm_compute. reflexivity.
Qed.

(** C3, as the code has it.  On a tree reached from a new one by operations
    applied within their contract, for a leaf in use: [set_branch] on it and
    then [set_free_quad_node] on the block it was given both return; the
    in-use counter is back to its value; the node is an empty leaf,
    [first_child = -1] and [total_entity = 0], with [in_use] and
    [parent_index] as before; the head of the free list is the base of that
    block, the former head when the free list was not empty and the former
    length of the pool when it was. *)
Theorem set_branch_then_free (t : QuadTree) (q : nat) (n : QuadNode) :
  reachable t ->
  all_quad_node t !! q = Some n -> in_use n = true -> is_leaf n = true ->
  exists (t1 t2 : QuadTree) (c : Z),
    set_branch q (Z.of_nat q) t = (Ok tt, t1) /\
    first_child <$> all_quad_node t1 !! q = Some c /\
    c = (if free_quad_node_index t =? -1 then num_quad_node t
         else free_quad_node_index t) /\
    set_free_quad_node c t1 = (Ok tt, t2) /\
    num_quad_node_in_use t2 = num_quad_node_in_use t /\
    all_quad_node t2 !! q = Some (as_empty_leaf n) /\
    free_quad_node_index t2 = c.
Proof.
  intros Hr Hq Hu _. destruct (reachable_wf _ Hr) as [rk Hwf].
  apply (branch_then_free_local t q n Hq (wf_len _ _ Hwf)).
  destruct (wf_free _ _ Hwf) as (bs & Hbs).
  destruct (free_chain_head _ _ _ Hbs)
    as [[Hhd _]|(f & fn & bs' & Hhd & -> & Hf & Htail & Hnin)]; [now left|].
  right. exists f. rewrite Hhd in Hbs.
  destruct (free_chain_block _ _ _ f Hbs ltac:(left)) as (_ & Hfm & Hfr & Hfun).
  repeat split; auto.
  destruct (decide (f <= q < f + 4)%nat) as [Hin|]; [|lia]. exfalso.
  destruct (Hfun (q - f)%nat) as (m & Hm & Hmu); [lia|].
  replace (f + (q - f))%nat with q in Hm by lia. congruence.
Qed.

Lemma set_branch_then_free_witness :
  exists (t1 t2 : QuadTree) (c : Z),
    set_branch 0 0 loaded_root = (Ok tt, t1) /\
    first_child <$> all_quad_node t1 !! 0%nat = Some c /\
    c = 1 /\
    set_free_quad_node c t1 = (Ok tt, t2) /\
    num_quad_node_in_use t2 = 1 /\
    all_quad_node t2 !! 0%nat = Some root_QuadNode /\
    free_quad_node_index t2 = c.
Proof.
  exact (set_branch_then_free loaded_root 0 (with_total_entity 2 root_QuadNode)
           reachable_loaded_root eq_refl eq_refl eq_refl).
Defined.

(** C3 as stated fails in five ways.  On a new tree the free list is empty
    before the split and its head is 1 after the round trip.  On
    [loaded_root], a reachable tree whose free list is not empty, the root
    holds 2 entities before and 0 after.  On [collapsed_root], reachable as
    well, the root is a leaf with [first_child = 1] before and [-1] after.  On
    [freed_root], reachable, slot 1 is a leaf by its entity count but not in
    use: the split hands it its own block, the rewrite of the block leaves it
    [first_child = -1], freeing that index raises ValueError, and the
    counter is left at 5 instead of 1.  On [misfreed_root], whose root is a
    leaf in use but which no operation within its contract produces, the
    split gives the root [first_child = -1] and the round trip ends the same
    way. *)
Lemma set_branch_then_free_differs :
  (free_quad_node_index tree_64 = -1 /\
   exists t1 t2,
     set_branch 0 0 tree_64 = (Ok tt, t1) /\
     first_child <$> all_quad_node t1 !! 0%nat = Some 1 /\
     set_free_quad_node 1 t1 = (Ok tt, t2) /\
     free_quad_node_index t2 = 1) /\
  (reachable loaded_root /\
   all_quad_node loaded_root !! 0%nat = Some (with_total_entity 2 root_QuadNode) /\
   free_quad_node_index loaded_root = 1 /\
   exists t1 t2,
     set_branch 0 0 loaded_root = (Ok tt, t1) /\
     first_child <$> all_quad_node t1 !! 0%nat = Some 1 /\
     set_free_quad_node 1 t1 = (Ok tt, t2) /\
     total_entity <$> all_quad_node t2 !! 0%nat = Some 0) /\
  (reachable collapsed_root /\
   all_quad_node collapsed_root !! 0%nat = Some (with_first_child 1 root_QuadNode) /\
   is_leaf (with_first_child 1 root_QuadNode) = true /\
   exists t1 t2,
     set_branch 0 0 collapsed_root = (Ok tt, t1) /\
     first_child <$> all_quad_node t1 !! 0%nat = Some 1 /\
     set_free_quad_node 1 t1 = (Ok tt, t2) /\
     first_child <$> all_quad_node t2 !! 0%nat = Some (-1)) /\
  (reachable freed_root /\
   all_quad_node freed_root !! 1%nat = Some (set_free (-1) root_QuadNode) /\
   is_leaf (set_free (-1) root_QuadNode) = true /\
   num_quad_node_in_use freed_root = 1 /\
   exists t1 t2,
     set_branch 1 1 freed_root = (Ok tt, t1) /\
     first_child <$> all_quad_node t1 !! 1%nat = Some (-1) /\
     set_free_quad_node (-1) t1 = (Raise ValueError, t2) /\
     num_quad_node_in_use t2 = 5) /\
  (all_quad_node misfreed_root !! 0%nat = Some root_QuadNode /\
   is_leaf root_QuadNode = true /\
   num_quad_node_in_use misfreed_root = 1 /\
   exists t1 t2,
     set_branch 0 0 misfreed_root = (Ok tt, t1) /\
     first_child <$> all_quad_node t1 !! 0%nat = Some (-1) /\
     set_free_quad_node (-1) t1 = (Raise ValueError, t2) /\
     num_quad_node_in_use t2 = 5).
Proof.
  split; [|split; [|split; [|split]]].
  - split; [vm_compute; reflexivity|].
    exists split_root, (snd (set_free_quad_node 1 split_root)).
    repeat apply conj; vm_compute; reflexivity.
  - split; [exact reachable_loaded_root|].
    split; [vm_compute; reflexivity|]. split; [vm_compute; reflexivity|].
    exists (snd (set_branch 0 0 loaded_root)),
      (snd (set_free_quad_node 1 (snd (set_branch 0 0 loaded_root)))).
    repeat apply conj; vm_compute; reflexivity.
  - split; [exact reachable_collapsed_root|].
    split; [vm_compute; reflexivity|]. split; [vm_compute; reflexivity|].
    exists (snd (set_branch 0 0 collapsed_root)),
      (snd (set_free_quad_node 1 (snd (set_branch 0 0 collapsed_root)))).
    repeat apply conj; vm_compute; reflexivity.
  - split; [exact reachable_freed_root|].
    split; [vm_compute; reflexivity|]. split; [vm_compute; reflexivity|].
    split; [vm_compute; reflexivity|].
    exists (snd (set_branch 1 1 freed_root)),
      (snd (set_free_quad_node (-1) (snd (set_branch 1 1 freed_root)))).
    repeat apply conj; vm_compute; reflexivity.
  - split; [vm_compute; reflexivity|]. split; [vm_compute; reflexivity|].
    split; [vm_compute; reflexivity|].
    exists (snd (set_branch 0 0 misfreed_root)),
      (snd (set_free_quad_node (-1) (snd (set_branch 0 0 misfreed_root)))).
    repeat apply conj; vm_compute; reflexivity.
Qed.
